(** * generate_newsletter.py: the extraction and validation pipeline

    A shallow embedding of the deterministic part of
    [generate_newsletter.py] (date normaliser, deterministic summariser,
    summary selector, deal value extractor, metadata validator) together
    with the properties its specification states about it.

    Python [str] values are sequences of Unicode code points; they are
    modelled as lists of [N].  The two calls to the text generation
    service are modelled as the only effect of a small free monad, and
    the exceptions that can escape a function as an explicit outcome. *)

From Stdlib Require Import List NArith PeanoNat Bool Lia.
From Stdlib Require String Ascii DecimalString.
Import ListNotations String.StringSyntax.

Open Scope list_scope.
Open Scope string_scope.

(* ================================================================= *)
(** ** Strings *)

Module Str.

Definition char := N.
Definition pystr := list char.

(** An ASCII literal of the source as a Python string. *)
Definition str (s : String.string) : pystr :=
  map Ascii.N_of_ascii (String.list_ascii_of_string s).

Definition eqb (a b : pystr) : bool :=
  if list_eq_dec N.eq_dec a b then true else false.

(** [bool(s)] of a string: true iff it is not empty. *)
Definition truthy (s : pystr) : bool :=
  match s with [] => false | _ :: _ => true end.

Local Open Scope N_scope.

Definition in_range (lo hi c : char) : bool := (lo <=? c) && (c <=? hi).
Arguments in_range (lo hi c)%_N_scope.

Definition is_ascii (c : char) : bool := c <? 128.

(** [str.isspace] on one character, which is also what [str.split()],
    [str.strip()] and the pattern [\s] use: CPython's
    [_PyUnicode_IsWhitespace]. *)
Definition is_space (c : char) : bool :=
  in_range 9 13 c || in_range 28 32 c || (c =? 133) || (c =? 160)
  || (c =? 5760) || in_range 8192 8202 c || (c =? 8232)
  || (c =? 8233) || (c =? 8239) || (c =? 8287) || (c =? 12288).

Definition ascii_lower (c : char) : char :=
  if in_range 65 90 c then c + 32 else c.

Local Close Scope N_scope.

(** [sep.join(parts)] *)
Fixpoint join (sep : pystr) (parts : list pystr) : pystr :=
  match parts with
  | [] => []
  | [p] => p
  | p :: rest => p ++ sep ++ join sep rest
  end.

(** [s.split()]: the maximal runs of non-whitespace characters.
    [cur] is the run being read, reversed. *)
Fixpoint split_ws_aux (s : pystr) (cur : pystr) : list pystr :=
  match s with
  | [] => match cur with [] => [] | _ => [rev cur] end
  | c :: s' =>
      if is_space c
      then match cur with
           | [] => split_ws_aux s' []
           | _ => rev cur :: split_ws_aux s' []
           end
      else split_ws_aux s' (c :: cur)
  end.

Definition split_ws (s : pystr) : list pystr := split_ws_aux s [].

(** [" ".join(s.split())] *)
Definition collapse_ws (s : pystr) : pystr := join (str " ") (split_ws s).

Fixpoint lstrip_by (p : char -> bool) (s : pystr) : pystr :=
  match s with
  | c :: s' => if p c then lstrip_by p s' else s
  | [] => []
  end.

Definition rstrip_by (p : char -> bool) (s : pystr) : pystr :=
  rev (lstrip_by p (rev s)).

Definition strip_by (p : char -> bool) (s : pystr) : pystr :=
  rstrip_by p (lstrip_by p s).

(** [s.strip()] *)
Definition strip (s : pystr) : pystr := strip_by is_space s.

(** [s.strip(chars)] *)
Definition strip_chars (chars : pystr) (s : pystr) : pystr :=
  strip_by (fun c => existsb (N.eqb c) chars) s.

Fixpoint starts_with (x s : pystr) : bool :=
  match x, s with
  | [], _ => true
  | a :: x', b :: s' => (a =? b)%N && starts_with x' s'
  | _ :: _, [] => false
  end.

(** [s.find(x)]: the lowest index at which [x] occurs, [None] for -1. *)
Fixpoint find (x s : pystr) : option nat :=
  if starts_with x s then Some 0
  else match s with
       | [] => None
       | _ :: s' => option_map S (find x s')
       end.

(** [s.find(x, start)] for [start <= len(s)]. *)
Definition find_from (x s : pystr) (start : nat) : option nat :=
  option_map (Nat.add start) (find x (skipn start s)).

(** [x in s] *)
Definition contains (s x : pystr) : bool :=
  match find x s with Some _ => true | None => false end.

(** [s.rfind(" ")]-style search for one character: the highest index. *)
Fixpoint rfind_char (c : char) (s : pystr) : option nat :=
  match s with
  | [] => None
  | d :: s' =>
      match rfind_char c s' with
      | Some i => Some (S i)
      | None => if (d =? c)%N then Some 0 else None
      end
  end.

(** [s.replace(old, new)] for a non-empty [old]: the occurrences are
    replaced from left to right and do not overlap.  [skip] counts the
    characters of an occurrence that are still to be dropped. *)
Fixpoint replace_aux (old new : pystr) (s : pystr) (skip : nat) : pystr :=
  match skip with
  | S n => match s with [] => [] | _ :: s' => replace_aux old new s' n end
  | 0 =>
      match s with
      | [] => []
      | c :: s' =>
          if starts_with old s
          then new ++ replace_aux old new s' (length old - 1)
          else c :: replace_aux old new s' 0
      end
  end.

Definition replace (old new s : pystr) : pystr := replace_aux old new s 0.

(** [str(n)] of a non-negative integer. *)
Definition of_N (n : N) : pystr :=
  str (DecimalString.NilEmpty.string_of_uint (N.to_uint n)).

End Str.
Import Str.

(* ================================================================= *)
(** ** The CPython runtime outside ASCII

    How CPython treats the ASCII characters is fixed below.  What it
    does with the other code points depends on the Unicode database of
    the interpreter, and what [json.loads] returns is the business of
    the [json] library: the model takes both as a parameter, so that
    every statement holds whatever they are. *)

(** A value returned by [json.loads].  Only the truth value of a number
    is ever observed, so a float carries no more than whether it is
    zero.  An object is a dictionary, given by its items in order; its
    keys are distinct. *)
#[local] Unset Elimination Schemes.
Inductive json : Type :=
| JNull
| JBool (b : bool)
| JInt (z : N) (negative : bool)
| JFloat (is_zero : bool)
| JStr (s : pystr)
| JArr (items : list json)
| JObj (items : list (pystr * json)).
#[local] Set Elimination Schemes.

Record runtime : Type := {
  (** the value of a decimal digit (category Nd) outside ASCII *)
  uni_decimal : char -> option N;
  (** [s.lower()] of a string that has a character outside ASCII *)
  uni_lower : pystr -> pystr;
  (** [re.IGNORECASE]: does the pattern character (first) match the
      text character (second), when one of them is outside ASCII *)
  uni_fold : char -> char -> bool;
  (** [json.loads(s)], [None] when it raises *)
  json_loads : pystr -> option json
}.

(** The tables of a runtime in which no character outside ASCII is a
    digit or has another case.  They are CPython's on every string whose
    characters outside ASCII are of that kind, the euro and pound signs
    for instance. *)
Definition caseless : runtime := {|
  uni_decimal := fun _ => None;
  uni_lower := map ascii_lower;
  uni_fold := N.eqb;
  json_loads := fun _ => None
|}.

Section Classes.
Context (R : runtime).

(** The digit value of a character that [\d] and [int()] accept. *)
Definition decimal_value (c : char) : option N :=
  if is_ascii c
  then if in_range 48 57 c then Some (c - 48)%N else None
  else uni_decimal R c.

(** The pattern [\d]. *)
Definition is_digit (c : char) : bool :=
  match decimal_value c with Some _ => true | None => false end.

(** [s.lower()] *)
Definition lower (s : pystr) : pystr :=
  if forallb is_ascii s then map ascii_lower s else uni_lower R s.

(** A literal character [p] of a pattern compiled with [re.IGNORECASE]
    against the character [c] of the text. *)
Definition fold_eq (p c : char) : bool :=
  if is_ascii p && is_ascii c
  then (ascii_lower p =? ascii_lower c)%N
  else uni_fold R p c.

End Classes.

(* ================================================================= *)
(** ** Regular expressions

    The fragment of [re] that the patterns of the program use, with the
    backtracking semantics of the [re] module: alternatives are tried
    from left to right, repetitions are greedy, and a later part of the
    pattern that fails sends the search back into the earlier ones.
    Every repetition of the program is over a single character class. *)

Module Re.

Inductive regex : Type :=
| Eps
| Chr (p : char -> bool)            (* one character of a class *)
| Seq (r1 r2 : regex)
| Alt (r1 r2 : regex)               (* r1|r2 *)
| Opt (r : regex)                   (* r? *)
| Many (p : char -> bool)           (* [..]* *)
| Rep (lo hi : nat) (p : char -> bool).   (* [..]{lo,hi} *)

(** [[..]+] *)
Definition plus (p : char -> bool) : regex := Seq (Chr p) (Many p).

(** A literal character. *)
Definition one (c : String.string) : char -> bool :=
  fun d => existsb (N.eqb d) (str c).

(** A character class listing its members, such as [[.!?]]. *)
Definition cls (members : String.string) : char -> bool :=
  fun d => existsb (N.eqb d) (str members).

(** A literal word. *)
Fixpoint word (eq : char -> char -> bool) (w : pystr) : regex :=
  match w with
  | [] => Eps
  | [c] => Chr (eq c)
  | c :: w' => Seq (Chr (eq c)) (word eq w')
  end.

Definition lit (w : String.string) : regex := word N.eqb (str w).

(** [r1|r2|...] *)
Fixpoint alts (rs : list regex) : regex :=
  match rs with
  | [] => Chr (fun _ => false)
  | [r] => r
  | r :: rs' => Alt r (alts rs')
  end.

Section Engine.
Variable A : Type.

Fixpoint many (p : char -> bool) (s : pystr) (k : pystr -> option A)
  : option A :=
  match s with
  | c :: s' =>
      if p c
      then match many p s' k with Some a => Some a | None => k s end
      else k s
  | [] => k s
  end.

Fixpoint rep (p : char -> bool) (lo hi : nat) (s : pystr)
  (k : pystr -> option A) : option A :=
  let stop := match lo with 0 => k s | S _ => None end in
  match hi with
  | 0 => stop
  | S hi' =>
      match s with
      | c :: s' =>
          if p c
          then match rep p (pred lo) hi' s' k with
               | Some a => Some a
               | None => stop
               end
          else stop
      | [] => stop
      end
  end.

(** [run r s k]: match [r] at the start of [s] and go on with [k] on
    what is left; [None] when every way of matching fails. *)
Fixpoint run (r : regex) (s : pystr) (k : pystr -> option A) : option A :=
  match r with
  | Eps => k s
  | Chr p =>
      match s with
      | c :: s' => if p c then k s' else None
      | [] => None
      end
  | Seq r1 r2 => run r1 s (fun s' => run r2 s' k)
  | Alt r1 r2 =>
      match run r1 s k with Some a => Some a | None => run r2 s k end
  | Opt r1 =>
      match run r1 s k with Some a => Some a | None => k s end
  | Many p => many p s k
  | Rep lo hi p => rep p lo hi s k
  end.

(** [re.search]: the attempt [m] is made at every position from the
    left; the result carries the index of the first that succeeds. *)
Fixpoint search (m : pystr -> option A) (s : pystr) : option (nat * A) :=
  match m s with
  | Some a => Some (0, a)
  | None =>
      match s with
      | [] => None
      | _ :: s' =>
          match search m s' with
          | Some (i, a) => Some (S i, a)
          | None => None
          end
      end
  end.

End Engine.
Arguments many {A} p s k.
Arguments rep {A} p lo hi s k.
Arguments run {A} r s k.
Arguments search {A} m s.

(** What a match that started at [s] and stopped at [s'] has read. *)
Definition consumed (s s' : pystr) : pystr :=
  firstn (length s - length s') s.

(** The text that [r] matches at the start of [s]. *)
Definition match_at (r : regex) (s : pystr) : option pystr :=
  run r s (fun s' => Some (consumed s s')).

(** The number of characters that [r] matches at the start of [s]. *)
Definition match_len (r : regex) (s : pystr) : option nat :=
  run r s (fun s' => Some (length s - length s')).

(** [re.split] for a pattern without groups that matches no empty
    string.  The attempt [m] is given the character before the position
    (for a look-behind) and the text from the position on, and answers
    the length of the match.  [skip] counts the characters of a match
    still to be passed, [cur] is the piece being read, reversed. *)
Fixpoint split_aux (m : option char -> pystr -> option nat)
  (prev : option char) (s : pystr) (skip : nat) (cur : pystr)
  : list pystr :=
  match skip with
  | S n =>
      match s with
      | [] => [rev cur]
      | c :: s' => split_aux m (Some c) s' n cur
      end
  | 0 =>
      match m prev s with
      | Some (S n) =>
          rev cur ::
          match s with
          | [] => [[]]
          | c :: s' => split_aux m (Some c) s' n []
          end
      | _ =>
          match s with
          | [] => [rev cur]
          | c :: s' => split_aux m (Some c) s' 0 (c :: cur)
          end
      end
  end.

Definition split_by (m : option char -> pystr -> option nat) (s : pystr)
  : list pystr :=
  split_aux m None s 0 [].

(** [re.split(r, s)] *)
Definition split (r : regex) (s : pystr) : list pystr :=
  split_by (fun _ => match_len r) s.

(** [re.sub(r, repl, s)] for a pattern that matches no empty string. *)
Fixpoint sub_aux (r : regex) (repl : pystr) (s : pystr) (skip : nat)
  : pystr :=
  match skip with
  | S n => match s with [] => [] | _ :: s' => sub_aux r repl s' n end
  | 0 =>
      match match_len r s with
      | Some (S n) =>
          repl ++ match s with [] => [] | _ :: s' => sub_aux r repl s' n end
      | _ =>
          match s with [] => [] | c :: s' => c :: sub_aux r repl s' 0 end
      end
  end.

Definition sub (r : regex) (repl s : pystr) : pystr := sub_aux r repl s 0.

(** The strings a pattern matches. *)
Fixpoint lang (r : regex) (m : pystr) : Prop :=
  match r with
  | Eps => m = []
  | Chr p => exists c, m = [c] /\ p c = true
  | Seq r1 r2 => exists m1 m2, m = m1 ++ m2 /\ lang r1 m1 /\ lang r2 m2
  | Alt r1 r2 => lang r1 m \/ lang r2 m
  | Opt r1 => m = [] \/ lang r1 m
  | Many p => forallb p m = true
  | Rep lo hi p => lo <= length m <= hi /\ forallb p m = true
  end.

(** An attempt that finds a match. *)
Definition succeeds {A : Type} (o : option A) : Prop := exists a, o = Some a.

End Re.

(* ================================================================= *)
(** ** Effects: the text generation service and exceptions *)

Inductive exn : Type := ValueError | AttributeError.

(** What a call of a function of the program does: it returns a value
    or an exception escapes it. *)
Inductive outcome (A : Type) : Type :=
| Returns (a : A)
| Raises (e : exn).
Arguments Returns {A} a.
Arguments Raises {A} e.

(** The two prompts of the program.  A prompt is a fixed text around
    the first [MAX_CHARS_FOR_AI] characters of the content and, for the
    summary, the date. *)
Inductive request : Type :=
| SummaryPrompt (content_for_ai date_str : pystr)
| MetadataPrompt (content_for_ai : pystr).

(** A computation that may call the service.  The answer to a call is
    [Some text] when [requests.post], [raise_for_status] and
    [resp.json().get("response") or ""] give the string [text], and
    [None] when one of them raises or the value is no string: all of
    that happens inside a [try] whose handler catches [Exception]. *)
Inductive gen (A : Type) : Type :=
| Ret (a : A)
| Call (q : request) (k : option pystr -> gen A).
Arguments Ret {A} a.
Arguments Call {A} q k.

Fixpoint gbind {A B} (g : gen A) (f : A -> gen B) : gen B :=
  match g with
  | Ret a => f a
  | Call q k => Call q (fun ans => gbind (k ans) f)
  end.

(** The result of a computation when the service answers as [service]
    says. *)
Fixpoint result {A} (service : request -> option pystr) (g : gen A) : A :=
  match g with
  | Ret a => a
  | Call q k => result service (k (service q))
  end.

(** The calls a computation makes, in order. *)
Fixpoint calls {A} (service : request -> option pystr) (g : gen A)
  : list request :=
  match g with
  | Ret _ => []
  | Call q k => q :: calls service (k (service q))
  end.

(** Sequencing of computations that may call the service and may
    raise. *)
Definition bind {A B} (m : gen (outcome A)) (f : A -> gen (outcome B))
  : gen (outcome B) :=
  gbind m (fun o =>
    match o with
    | Returns a => f a
    | Raises e => Ret (Raises e)
    end).

Definition ret {A} (a : A) : gen (outcome A) := Ret (Returns a).
Definition pure_call {A} (o : outcome A) : gen (outcome A) := Ret o.
Definition service_call {A} (g : gen A) : gen (outcome A) :=
  gbind g (fun a => Ret (Returns a)).

Declare Scope py_scope.
Delimit Scope py_scope with py.
Notation "x <- m ;; k" := (bind m (fun x => k))
  (at level 61, m at next level, right associativity) : py_scope.

Definition obind {A B} (o : outcome A) (f : A -> outcome B) : outcome B :=
  match o with
  | Returns a => f a
  | Raises e => Raises e
  end.

(* ================================================================= *)
(** ** The program *)

Definition MAX_CHARS_FOR_AI : nat := 2000.
Definition NA : pystr := str "NA".

(** An article of [output.json].  A field that is missing or [null] is
    read by the program as [""] (as [[]] for the timestamps). *)
Record article : Type := {
  title : pystr;
  content : pystr;
  url : pystr;
  timestamp : list pystr
}.

(** [d.get(key, default)] on a dictionary given by its items. *)
Fixpoint dict_get {V : Type} (d : list (pystr * V)) (key : pystr)
  (default : V) : V :=
  match d with
  | [] => default
  | (k, v) :: d' => if Str.eqb k key then v else dict_get d' key default
  end.

Section Program.
Context (R : runtime).

(* ----------------------------------------------------------------- *)
(** *** Date handling *)

Definition MONTH_MAP : list (pystr * pystr) :=
  [ (str "Jan.", str "Jan"); (str "January", str "Jan");
    (str "Feb.", str "Feb"); (str "February", str "Feb");
    (str "Mar.", str "Mar"); (str "March", str "Mar");
    (str "Apr.", str "Apr"); (str "April", str "Apr");
    (str "May", str "May");
    (str "Jun.", str "Jun"); (str "June", str "Jun");
    (str "Jul.", str "Jul"); (str "July", str "Jul");
    (str "Aug.", str "Aug"); (str "August", str "Aug");
    (str "Sep.", str "Sep"); (str "Sept.", str "Sep");
    (str "September", str "Sep");
    (str "Oct.", str "Oct"); (str "October", str "Oct");
    (str "Nov.", str "Nov"); (str "November", str "Nov");
    (str "Dec.", str "Dec"); (str "December", str "Dec") ].

Definition normalize_month (month_str : pystr) : pystr :=
  dict_get MONTH_MAP month_str month_str.

(** The three groups of
    [([A-Z][a-z]{2,9}\.?)[ ]+(\d{1,2}),[ ]*(\d{4})]. *)
Definition month_re : Re.regex :=
  Re.Seq (Re.Chr (in_range 65 90))
    (Re.Seq (Re.Rep 2 9 (in_range 97 122)) (Re.Opt (Re.Chr (Re.one ".")))).
Definition day_re : Re.regex := Re.Rep 1 2 (is_digit R).
Definition year_re : Re.regex := Re.Rep 4 4 (is_digit R).

(** The pattern at the start of [s]; the groups are what the three
    group patterns have read. *)
Definition date_at (s : pystr) : option (pystr * pystr * pystr) :=
  Re.run month_re s (fun s1 =>
  Re.run (Re.plus (Re.one " ")) s1 (fun s2 =>
  Re.run day_re s2 (fun s3 =>
  Re.run (Re.Seq (Re.Chr (Re.one ",")) (Re.Many (Re.one " "))) s3 (fun s4 =>
  Re.run year_re s4 (fun s5 =>
    Some (Re.consumed s s1, Re.consumed s2 s3, Re.consumed s4 s5)))))).

(** [re.search(pattern, s)] and [m.groups()] *)
Definition date_search (s : pystr) : option (pystr * pystr * pystr) :=
  option_map snd (Re.search date_at s).

Fixpoint int_digits (s : pystr) (acc : N) : option N :=
  match s with
  | [] => Some acc
  | c :: s' =>
      match decimal_value R c with
      | Some d => int_digits s' (10 * acc + d)%N
      | None => None
      end
  end.

(** [int(s)] on a string of decimal digits.  On any other string the
    model raises [ValueError], which [int] does on fewer strings (it
    accepts a sign, blanks around and underscores between digits). *)
Definition py_int (s : pystr) : outcome N :=
  match s with
  | [] => Raises ValueError
  | _ :: _ =>
      match int_digits s 0 with
      | Some n => Returns n
      | None => Raises ValueError
      end
  end.

(** [f"{normalize_month(month_raw)} {int(day)}, {year}"] *)
Definition format_date (groups : pystr * pystr * pystr) : outcome pystr :=
  let '(month_raw, day, year) := groups in
  obind (py_int day) (fun d =>
  Returns (normalize_month month_raw ++ str " " ++ of_N d ++ str ", "
           ++ year)).

Definition extract_date_from_timestamp_list (timestamp_list : list pystr)
  : outcome pystr :=
  match timestamp_list with
  | [] => Returns []
  | ts :: _ =>
      match date_search ts with
      | Some groups => format_date groups
      | None => Returns []
      end
  end.

Definition extract_date_from_content (content : pystr) : outcome pystr :=
  let text := collapse_ws content in
  match date_search text with
  | None => Returns []
  | Some groups => format_date groups
  end.

Definition get_pretty_date (a : article) : outcome pystr :=
  obind (extract_date_from_timestamp_list (timestamp a)) (fun ts_date =>
  if truthy ts_date then Returns ts_date
  else extract_date_from_content (content a)).

(* ----------------------------------------------------------------- *)
(** *** Fallback summary *)

Definition strip_prnewswire_boilerplate (content : pystr) : pystr :=
  let text := collapse_ws content in
  let marker := str "/PRNewswire" in
  match find marker text with
  | Some idx =>
      match find_from (str "--") text idx with
      | Some dash_idx => strip (skipn (dash_idx + 2) text)
      | None => strip (skipn (idx + length marker) text)
      end
  | None => text
  end.

(** The pattern [(?<=[.!?])\s+] at a position: the character before it
    is one of [.!?] and white space follows. *)
Definition sentence_break (prev : option char) (s : pystr) : option nat :=
  match prev with
  | Some c =>
      if Re.cls ".!?" c then Re.match_len (Re.plus is_space) s else None
  | None => None
  end.

Definition simple_summary (content : pystr) (max_chars : nat) : pystr :=
  let core := strip_prnewswire_boilerplate content in
  if negb (truthy core) then []
  else
    let sentences := Re.split_by sentence_break core in
    let summary := strip (join (str " ") (firstn 2 sentences)) in
    if max_chars <? length summary
    then
      let short := firstn max_chars summary in
      let short :=
        match rfind_char 32%N short with
        | Some last => if 0 <? last then firstn last short else short
        | None => short
        end in
      short ++ str "..."
    else summary.

(* ----------------------------------------------------------------- *)
(** *** Generated summary and its check against the title *)

Definition ai_summarise_with_ollama (content date_str : pystr) : gen pystr :=
  if negb (truthy content) then Ret []
  else
    let content_for_ai := firstn MAX_CHARS_FOR_AI content in
    Call (SummaryPrompt content_for_ai date_str) (fun ans =>
      match ans with
      | Some response => Ret (strip response)
      | None => Ret []
      end).

Definition title_punctuation : pystr := str " ,.&()/-".

Definition title_tokens (title : pystr) : list pystr :=
  map (strip_chars title_punctuation)
    (filter (fun t => 4 <=? length (strip_chars title_punctuation t))
       (split_ws title)).

(** The loop [for t in tokens: if t.lower() in summary_l: return True]. *)
Fixpoint any_token_in (summary_l : pystr) (tokens : list pystr) : bool :=
  match tokens with
  | [] => false
  | t :: rest =>
      if contains summary_l (lower R t) then true
      else any_token_in summary_l rest
  end.

Definition summary_matches_title (summary title : pystr) : bool :=
  if negb (truthy summary) || negb (truthy title) then false
  else
    let summary_l := lower R summary in
    let tokens := title_tokens title in
    match tokens with
    | [] => false
    | _ :: _ => any_token_in summary_l tokens
    end.

Definition get_context_text (a : article) : gen (outcome pystr) :=
  (let content := content a in
   pretty_date <- pure_call (get_pretty_date a) ;;
   let title := title a in
   let fallback := ret (simple_summary content 400) in
   if truthy content
   then
     ai_line <- service_call (ai_summarise_with_ollama content pretty_date) ;;
     if truthy ai_line && summary_matches_title ai_line title
     then ret ai_line
     else fallback
   else fallback)%py.

(* ----------------------------------------------------------------- *)
(** *** Deal value *)

(** A word of the pattern under [re.IGNORECASE]. *)
Definition nocase (w : String.string) : Re.regex :=
  Re.word (fold_eq R) (str w).

(** The alternatives [USD|US\$|\$|EUR|...|Rs\.?] in the order of the
    source.  The fifth and the seventh are the characters that the
    source file holds there: U+201A U+00C7 U+00A8 and U+00AC U+00A3.
    Of these only U+00C7 has another case; [re] compares the others,
    like [$] and [.], as they are. *)
Definition currency_markers : list Re.regex :=
  [ nocase "USD";
    Re.Seq (nocase "US") (Re.Chr (Re.one "$"));
    Re.Chr (Re.one "$");
    nocase "EUR";
    Re.Seq (Re.Chr (N.eqb 8218))
      (Re.Seq (Re.Chr (fold_eq R 199%N)) (Re.Chr (N.eqb 168)));
    nocase "GBP";
    Re.Seq (Re.Chr (N.eqb 172)) (Re.Chr (N.eqb 163));
    Re.Seq (nocase "C") (Re.Chr (Re.one "$"));
    nocase "CAD";
    nocase "INR";
    Re.Seq (nocase "Rs") (Re.Opt (Re.Chr (Re.one "."))) ].

(** [[0-9][0-9,]*(?:\.\d+)?] *)
Definition number_re : Re.regex :=
  Re.Seq (Re.Chr (in_range 48 57))
    (Re.Seq (Re.Many (fun c => in_range 48 57 c || Re.one "," c))
       (Re.Opt (Re.Seq (Re.Chr (Re.one ".")) (Re.plus (is_digit R))))).

(** [(?:million|billion|bn|mn|m|M|B)?] *)
Definition magnitude_re : Re.regex :=
  Re.Opt (Re.alts [ nocase "million"; nocase "billion"; nocase "bn";
                    nocase "mn"; nocase "m"; nocase "M"; nocase "B" ]).

Definition deal_value_re : Re.regex :=
  Re.Seq (Re.alts currency_markers)
    (Re.Seq (Re.Many is_space)
       (Re.Seq number_re (Re.Seq (Re.Many is_space) magnitude_re))).

(** The last three statements of [extract_deal_value_from_text]. *)
Definition clean_value (value : pystr) : pystr :=
  let value := replace (str "US$") (str "USD ") value in
  let value := replace (str "$") (str "USD ") value in
  strip (Re.sub (Re.plus is_space) (str " ") value).

Definition extract_deal_value_from_text (content : pystr) : pystr :=
  if negb (truthy content) then NA
  else
    let text := collapse_ws content in
    match Re.search (Re.match_at deal_value_re) text with
    | None => NA
    | Some (_, group1) => clean_value (strip group1)
    end.

(* ----------------------------------------------------------------- *)
(** *** Deal metadata *)

Record metadata : Type := {
  deal_value : pystr;
  deal_advisor : pystr;
  investor_or_pe : pystr;
  buyer : pystr;
  seller : pystr;
  buyer_lead_name : pystr;
  buyer_lead_role : pystr;
  investor_lead_name : pystr;
  investor_lead_role : pystr;
  seller_lead_name : pystr;
  seller_lead_role : pystr
}.

(** [not val] *)
Definition falsy (val : json) : bool :=
  match val with
  | JNull => true
  | JBool b => negb b
  | JInt z _ => (z =? 0)%N
  | JFloat is_zero => is_zero
  | JStr s => negb (truthy s)
  | JArr items => match items with [] => true | _ => false end
  | JObj items => match items with [] => true | _ => false end
  end.

(** [clean]; only a string has [strip]. *)
Definition clean (val : json) : outcome pystr :=
  if falsy val then Returns NA
  else
    match val with
    | JStr v => let s := strip v in Returns (if truthy s then s else NA)
    | _ => Raises AttributeError
    end.

(** [data.get(key, "NA")]; only a dictionary has [get]. *)
Definition data_get (data : json) (key : String.string) : outcome json :=
  match data with
  | JObj items => Returns (dict_get items (str key) (JStr NA))
  | _ => Raises AttributeError
  end.

(** The body of the [try] once the service has answered: the text from
    the first [{] to the last [}] ([\{.*\}] with [re.DOTALL]) is parsed;
    without such a text, or when the parser raises, [data] is [{}]. *)
Definition proposal_of (ans : option pystr) : json :=
  match ans with
  | None => JObj []
  | Some response =>
      let raw := strip response in
      let braces :=
        Re.Seq (Re.Chr (Re.one "{"))
          (Re.Seq (Re.Many (fun _ => true)) (Re.Chr (Re.one "}"))) in
      match Re.search (Re.match_at braces) raw with
      | None => JObj []
      | Some (_, group0) =>
          match json_loads R group0 with
          | Some data => data
          | None => JObj []
          end
      end
  end.

(** [re.split(r"&|,|/| and ", name)] *)
Definition org_separator : Re.regex :=
  Re.alts [ Re.lit "&"; Re.lit ","; Re.lit "/"; Re.lit " and " ].

Definition org_parts (name : pystr) : list pystr :=
  map strip
    (filter (fun p => truthy (strip p)) (Re.split org_separator name)).

Definition person_tokens (name : pystr) : list pystr :=
  filter (fun t => 2 <? length t) (Re.split (Re.plus is_space) name).

(** [re.split(r"[\s/&,-]+", role)] *)
Definition role_tokens (role : pystr) : list pystr :=
  filter (fun t => 2 <? length t)
    (Re.split (Re.plus (fun c => is_space c || Re.cls "/&,-" c)) role).

Section Validate.
Variable content_norm : pystr.

(** The loop [for p in parts: if p.lower() in content_norm: return name]
    followed by [return "NA"]. *)
Fixpoint keep_if_attested (name : pystr) (parts : list pystr) : pystr :=
  match parts with
  | [] => NA
  | p :: rest =>
      if contains content_norm (lower R p) then name
      else keep_if_attested name rest
  end.

Definition validate_org (name : pystr) : pystr :=
  if Str.eqb name NA then NA
  else keep_if_attested name (org_parts name).

Definition validate_person (name : pystr) : pystr :=
  if Str.eqb name NA then NA
  else keep_if_attested name (person_tokens name).

Definition validate_role (role : pystr) : pystr :=
  if Str.eqb role NA then NA
  else keep_if_attested role (role_tokens role).

End Validate.

Definition all_NA : metadata := {|
  deal_value := NA; deal_advisor := NA; investor_or_pe := NA;
  buyer := NA; seller := NA;
  buyer_lead_name := NA; buyer_lead_role := NA;
  investor_lead_name := NA; investor_lead_role := NA;
  seller_lead_name := NA; seller_lead_role := NA
|}.

(** [clean(data.get(key, "NA"))] *)
Definition proposed (data : json) (key : String.string) : outcome pystr :=
  obind (data_get data key) clean.

(** What [ai_extract_deal_metadata] does after the [try] statement. *)
Definition validate_proposal (content : pystr) (deal_value : pystr)
  (data : json) : outcome metadata :=
  let content_norm := lower R (collapse_ws content) in
  obind (proposed data "investor_or_pe") (fun investor_or_pe =>
  obind (proposed data "buyer") (fun buyer =>
  obind (proposed data "seller") (fun seller =>
  obind (proposed data "advisor_firm") (fun advisor_firm =>
  obind (proposed data "buyer_lead_name") (fun buyer_lead_name =>
  obind (proposed data "buyer_lead_role") (fun buyer_lead_role =>
  obind (proposed data "investor_lead_name") (fun investor_lead_name =>
  obind (proposed data "investor_lead_role") (fun investor_lead_role =>
  obind (proposed data "seller_lead_name") (fun seller_lead_name =>
  obind (proposed data "seller_lead_role") (fun seller_lead_role =>
  let investor_or_pe := validate_org content_norm investor_or_pe in
  let advisor_firm := validate_org content_norm advisor_firm in
  let buyer := validate_org content_norm buyer in
  let seller := validate_org content_norm seller in
  let buyer_lead_name := validate_person content_norm buyer_lead_name in
  let investor_lead_name :=
    validate_person content_norm investor_lead_name in
  let seller_lead_name := validate_person content_norm seller_lead_name in
  let buyer_lead_role := validate_role content_norm buyer_lead_role in
  let investor_lead_role :=
    validate_role content_norm investor_lead_role in
  let seller_lead_role := validate_role content_norm seller_lead_role in
  let deal_advisor :=
    if negb (Str.eqb investor_or_pe NA) then investor_or_pe
    else if negb (Str.eqb advisor_firm NA) then advisor_firm
    else if negb (Str.eqb buyer NA) then buyer
    else if negb (Str.eqb seller NA) then seller
    else NA in
  Returns {|
    deal_value := deal_value;
    deal_advisor := deal_advisor;
    investor_or_pe := investor_or_pe;
    buyer := buyer;
    seller := seller;
    buyer_lead_name := buyer_lead_name;
    buyer_lead_role := buyer_lead_role;
    investor_lead_name := investor_lead_name;
    investor_lead_role := investor_lead_role;
    seller_lead_name := seller_lead_name;
    seller_lead_role := seller_lead_role
  |})))))))))).

Definition ai_extract_deal_metadata (content : pystr)
  : gen (outcome metadata) :=
  if negb (truthy content) then Ret (Returns all_NA)
  else
    let deal_value := extract_deal_value_from_text content in
    let content_for_ai := firstn MAX_CHARS_FOR_AI content in
    Call (MetadataPrompt content_for_ai) (fun ans =>
      Ret (validate_proposal content deal_value (proposal_of ans))).

End Program.

(* ================================================================= *)
(** ** Vocabulary of the specification *)

(** [x] occurs in [s]. *)
Definition occurs_in (x s : pystr) : Prop :=
  exists pre post, s = pre ++ x ++ post.

(** [m] is a text of the form [<Month>[.] <Day>, <Year>] whose three
    groups are [g]. *)
Definition date_text (R : runtime) (g : pystr * pystr * pystr) (m : pystr)
  : Prop :=
  let '(month_raw, day, year) := g in
  exists blanks comma,
    m = month_raw ++ blanks ++ day ++ comma ++ year /\
    Re.lang month_re month_raw /\
    Re.lang (Re.plus (Re.one " ")) blanks /\
    Re.lang (day_re R) day /\
    Re.lang (Re.Seq (Re.Chr (Re.one ",")) (Re.Many (Re.one " "))) comma /\
    Re.lang (year_re R) year.

(** The date pattern matches somewhere in [s]. *)
Definition has_date (R : runtime) (s : pystr) : Prop :=
  exists g m, date_text R g m /\ occurs_in m s.

(** The two sentences that [simple_summary] joins, before the cut. *)
Definition first_two_sentences (content : pystr) : pystr :=
  strip (join (str " ")
           (firstn 2 (Re.split_by sentence_break
                        (strip_prnewswire_boilerplate content)))).

(** A word of the title that, stripped of its punctuation, has four
    characters or more and occurs in the summary, both lower-cased. *)
Definition title_attests (R : runtime) (title summary : pystr) : Prop :=
  exists w,
    In w (split_ws title) /\
    4 <= length (strip_chars title_punctuation w) /\
    occurs_in (lower R (strip_chars title_punctuation w)) (lower R summary).

(** The service is unavailable: every call fails or brings back nothing
    but white space. *)
Definition unavailable (service : request -> option pystr) : Prop :=
  forall q, match service q with
            | None => True
            | Some response => strip response = []
            end.

(** The outcome of a validator on the proposed value: the value itself
    or the sentinel. *)
Definition kept_or_NA (proposed_value out : pystr) : Prop :=
  out = proposed_value \/ out = NA.

(** The value [v] of a field is attested in the content: it is the
    sentinel, or one of its tokens, of [min_len] characters at least,
    occurs lower-cased in the whitespace-collapsed, lower-cased
    content. *)
Definition attested (R : runtime) (content : pystr)
  (tokens : pystr -> list pystr) (min_len : nat) (v : pystr) : Prop :=
  v = NA \/
  exists t,
    In t (tokens v) /\ min_len <= length t /\
    occurs_in (lower R t) (lower R (collapse_ws content)).

(** The field [out] of the record is the sentinel or, character for
    character, the cleaned value that the proposal has under [key]. *)
Definition verbatim (data : json) (key : String.string) (out : pystr)
  : Prop :=
  out = NA \/ proposed data key = Returns out.

(** A runtime for the examples: the tables of [caseless] and a parser
    that answers one fixed proposal. *)
Definition example_runtime : runtime := {|
  uni_decimal := uni_decimal caseless;
  uni_lower := uni_lower caseless;
  uni_fold := uni_fold caseless;
  json_loads := fun _ =>
    Some (JObj [ (str "buyer", JStr (str " Acme Corp & Zed "));
                 (str "seller", JStr (str "Bar Inc"));
                 (str "buyer_lead_name", JStr (str "Jane Q. Doe"));
                 (str "buyer_lead_role", JStr (str "Chief/ceo"));
                 (str "advisor_firm", JNull) ])
|}.

(** The currency tokens that the specification lists for the start of
    a deal value: USD, EUR, the euro sign, GBP, the pound sign, C$, CAD,
    INR and Rs. *)
Definition known_currency_tokens : list pystr :=
  [ str "USD"; str "EUR"; [8364%N]; str "GBP"; [163%N]; str "C$";
    str "CAD"; str "INR"; str "Rs." ].

(** An ASCII letter. *)
Definition is_letter (c : char) : bool :=
  in_range 65 90 c || in_range 97 122 c.

(** [m] is a match of the deal value pattern in [text] and no match
    starts further to the left. *)
Definition leftmost_deal_match (R : runtime) (m text : pystr) : Prop :=
  Re.lang (deal_value_re R) m /\
  exists pre post,
    text = pre ++ m ++ post /\
    forall pre' m' post',
      text = pre' ++ m' ++ post' -> Re.lang (deal_value_re R) m' ->
      length pre <= length pre'.

(** The article of the end-to-end scenario of the specification. *)
Definition scenario : article := {|
  title := str "Acme Acquires Foo";
  content := str "(PRNewswire) -- Acme Corp acquired Foo Inc for USD 240 million. Jane Doe, CEO of Acme, said the deal expands reach.";
  url := [];
  timestamp := []
|}.

(* ================================================================= *)
(** ** Delivery *)

(** The loop of [load_emails_from_file] over the lines of the file. *)
Fixpoint read_emails (lines : list pystr) : list pystr :=
  match lines with
  | [] => []
  | line :: rest =>
      let line := strip line in
      if negb (truthy line) || starts_with (str "#") line
      then read_emails rest
      else if contains line (str "@") && contains line (str ".")
      then line :: read_emails rest
      else read_emails rest
  end.

(** [load_emails_from_file]; the file is given by its lines, [None]
    when it does not exist.  The messages it prints are left out. *)
Definition load_emails_from_file (file : option (list pystr))
  : list pystr :=
  match file with
  | None => []
  | Some lines => read_emails lines
  end.

(** The dictionary that [send_newsletters_to_all] returns. *)
Record send_stats : Type := {
  success : nat;
  failed : nat;
  total : nat
}.

(** The loop of [send_newsletters_to_all].  [send idx email] is what
    [send_newsletter_email] returns for the recipient numbered [idx]:
    it catches every exception of the mail service and answers a
    truth value. *)
Fixpoint send_loop (send : nat -> pystr -> bool) (idx : nat)
  (emails : list pystr) (success_count failed_count : nat) : nat * nat :=
  match emails with
  | [] => (success_count, failed_count)
  | email :: rest =>
      if send idx email
      then send_loop send (S idx) rest (S success_count) failed_count
      else send_loop send (S idx) rest success_count (S failed_count)
  end.

(** [send_newsletters_to_all]; [api_key] is [RESEND_API_KEY]. *)
Definition send_newsletters_to_all (api_key : pystr)
  (send : nat -> pystr -> bool) (emails : list pystr) : send_stats :=
  if negb (truthy api_key)
  then {| success := 0; failed := 0; total := length emails |}
  else
    let '(success_count, failed_count) := send_loop send 1 emails 0 0 in
    {| success := success_count; failed := failed_count;
       total := length emails |}.

(* ================================================================= *)
(** ** Rendering *)

(** [html.escape(s)], with [quote=True]: five replacements, the
    ampersand first. *)
Definition escape (s : pystr) : pystr :=
  let s := replace (str "&") (str "&amp;") s in
  let s := replace (str "<") (str "&lt;") s in
  let s := replace (str ">") (str "&gt;") s in
  let s := replace [34]%N (str "&quot;") s in
  let s := replace [39]%N (str "&#x27;") s in
  s.

(** An article as [build_deal_block], [build_context_entry] and the
    loop of [main] read it: the items of the dictionary whose values
    are strings (of a key listed twice the first item counts) and the
    list under ["timestamp"], empty when the key is missing.  The
    program calls [escape] on what it reads, which raises on a value
    that is no string; such dictionaries are left out. *)
Record enriched : Type := {
  texts : list (pystr * pystr);
  stamps : list pystr
}.

(** [a.get(key, default)]. *)
Definition get (a : enriched) (key default : String.string) : pystr :=
  dict_get (texts a) (str key) (str default).

(** What the extractors read of the dictionary. *)
Definition as_article (a : enriched) : article := {|
  title := get a "title" "";
  content := get a "content" "";
  url := get a "url" "";
  timestamp := stamps a
|}.

(** The line feed and the double quote of the templates. *)
Definition nl : pystr := [10]%N.
Definition dq : pystr := [34]%N.
Definition quoted (s : String.string) : pystr := dq ++ str s ++ dq.

(** The separator of the labels: in the source file it is the three
    characters U+201A U+00C4 U+00EC between two blanks. *)
Definition label_dash : pystr := [32; 8218; 196; 236; 32]%N.

(** The labels of the footer row of [build_deal_block]. *)
Definition deal_labels (a : enriched) : list pystr :=
  let buyer := get a "buyer" "NA" in
  let seller := get a "seller" "NA" in
  let investor_or_pe := get a "investor_or_pe" "NA" in
  let buyer_lead_name := get a "buyer_lead_name" "NA" in
  let buyer_lead_role := get a "buyer_lead_role" "NA" in
  let investor_lead_name := get a "investor_lead_name" "NA" in
  let investor_lead_role := get a "investor_lead_role" "NA" in
  let seller_lead_name := get a "seller_lead_name" "NA" in
  let seller_lead_role := get a "seller_lead_role" "NA" in
  let labels := [] in
  let labels :=
    if negb (Str.eqb buyer NA) && negb (Str.eqb buyer_lead_name NA)
    then
      let text := buyer ++ label_dash ++ buyer_lead_name in
      let text :=
        if negb (Str.eqb buyer_lead_role NA)
        then text ++ str " (" ++ buyer_lead_role ++ str ")" else text in
      labels ++ [text]
    else labels in
  let labels :=
    if negb (Str.eqb investor_or_pe NA)
    then
      let text :=
        if negb (Str.eqb investor_lead_name NA)
        then
          let text := investor_or_pe ++ label_dash ++ investor_lead_name in
          if negb (Str.eqb investor_lead_role NA)
          then text ++ str " (" ++ investor_lead_role ++ str ")" else text
        else str "Investor" ++ label_dash ++ investor_or_pe in
      labels ++ [text]
    else labels in
  let labels :=
    if negb (Str.eqb seller NA) && negb (Str.eqb seller_lead_name NA)
    then
      let text := seller ++ label_dash ++ seller_lead_name in
      let text :=
        if negb (Str.eqb seller_lead_role NA)
        then text ++ str " (" ++ seller_lead_role ++ str ")" else text in
      labels ++ [text]
    else labels in
  labels.

(** The footer row: nothing without labels. *)
Definition footer_row_html (labels : list pystr) : pystr :=
  match labels with
  | [] => []
  | _ :: _ =>
      let items_html :=
        join []
          (map (fun lbl =>
                  str "<div class=" ++ quoted "deal-footer-item" ++ str ">"
                  ++ escape lbl ++ str "</div>")
               labels) in
      nl ++
      str "      <div class=" ++ quoted "deal-footer-row" ++ str ">" ++ nl ++
      str "        " ++ items_html ++ nl ++
      str "      </div>" ++ nl ++
      str "    "
  end.

Definition build_deal_block (R : runtime) (a : enriched) : outcome pystr :=
  let title := get a "title" "Untitled deal" in
  let context_text := get a "context" "" in
  let url := get a "url" "#" in
  obind (get_pretty_date R (as_article a)) (fun pretty_date =>
  let title_html := escape title in
  let body_html := escape context_text in
  let url_html := escape url in
  let date_html := escape pretty_date in
  let deal_advisor := escape (get a "deal_advisor" "NA") in
  let deal_value := escape (get a "deal_value" "NA") in
  let footer_row_html := footer_row_html (deal_labels a) in
  Returns (
    nl ++
    str "    <div class=" ++ quoted "deal-block" ++ str ">" ++ nl ++
    str "      <div class=" ++ quoted "deal-title-main" ++ str ">" ++ nl ++
    str "        <a href=" ++ dq ++ url_html ++ dq ++
      str " target=" ++ quoted "_blank" ++
      str " style=" ++ quoted "color: #000; text-decoration: none;" ++
      str ">" ++ nl ++
    str "          " ++ title_html ++ nl ++
    str "        </a>" ++ nl ++
    str "      </div>" ++ nl ++
    nl ++
    str "      <div class=" ++ quoted "deal-meta-row" ++ str ">" ++ nl ++
    str "        <div class=" ++ quoted "deal-meta-left" ++ str ">" ++
      date_html ++ str "</div>" ++ nl ++
    str "        <div class=" ++ quoted "deal-meta-center" ++ str ">" ++
      str "<span class=" ++ quoted "deal-meta-label" ++
      str ">Deal Advisor:</span> " ++ deal_advisor ++ str "</div>" ++ nl ++
    str "        <div class=" ++ quoted "deal-meta-right" ++ str ">" ++
      str "<span class=" ++ quoted "deal-meta-label" ++
      str ">Deal Value:</span> " ++ deal_value ++ str "</div>" ++ nl ++
    str "      </div>" ++ nl ++
    nl ++
    str "      <div class=" ++ quoted "deal-body" ++ str ">" ++
      body_html ++ str "</div>" ++ nl ++
    str "      " ++ footer_row_html ++ nl ++
    str "    </div>" ++ nl ++
    str "    ")).

Definition ISSUE_DATE : pystr := str "November 26, 2025".
Definition ISSUE_NUMBER : pystr := str "0001".

(** The blocks of the articles, in order; the first exception ends the
    generator. *)
Fixpoint deal_blocks (R : runtime) (articles : list enriched)
  : outcome (list pystr) :=
  match articles with
  | [] => Returns []
  | a :: rest =>
      obind (build_deal_block R a) (fun block =>
      obind (deal_blocks R rest) (fun blocks =>
      Returns (block :: blocks)))
  end.

(** [build_newsletter_html]; [template] is the text of
    [template_base.html]. *)
Definition build_newsletter_html (R : runtime) (template : pystr)
  (articles : list enriched) : outcome pystr :=
  obind (deal_blocks R articles) (fun blocks =>
  let blocks_html := join nl blocks in
  Returns
    (replace (str "{{DEAL_BLOCKS}}") blocks_html
       (replace (str "{{ISSUE_NUMBER}}") ISSUE_NUMBER
          (replace (str "{{ISSUE_DATE}}") ISSUE_DATE template)))).

Definition build_context_entry (a : enriched) : pystr :=
  get a "url" "" ++ nl ++ nl ++ get a "context" "" ++ nl ++ nl.

Definition build_contexts_text (articles : list enriched) : pystr :=
  join []
    (map build_context_entry
       (filter (fun a => truthy (get a "url" "")) articles)).

(* ================================================================= *)
(** ** The run *)

Definition TEST_COUNT : nat := 20.

(** The items of the dictionary that [ai_extract_deal_metadata]
    returns. *)
Definition metadata_items (m : metadata) : list (pystr * pystr) :=
  [ (str "deal_value", deal_value m);
    (str "deal_advisor", deal_advisor m);
    (str "investor_or_pe", investor_or_pe m);
    (str "buyer", buyer m);
    (str "seller", seller m);
    (str "buyer_lead_name", buyer_lead_name m);
    (str "buyer_lead_role", buyer_lead_role m);
    (str "investor_lead_name", investor_lead_name m);
    (str "investor_lead_role", investor_lead_role m);
    (str "seller_lead_name", seller_lead_name m);
    (str "seller_lead_role", seller_lead_role m) ].

(** One turn of the loop of [main]: the dictionary
    [{**article, "context": context, **meta}], in which the later keys
    win. *)
Definition enrich (R : runtime) (a : enriched) : gen (outcome enriched) :=
  (context <- get_context_text R (as_article a) ;;
   meta <- ai_extract_deal_metadata R (content (as_article a)) ;;
   ret {| texts := metadata_items meta ++ (str "context", context) :: texts a;
          stamps := stamps a |})%py.

Fixpoint enrich_all (R : runtime) (articles : list enriched)
  : gen (outcome (list enriched)) :=
  match articles with
  | [] => ret []
  | a :: rest =>
      (e <- enrich R a ;;
       es <- enrich_all R rest ;;
       ret (e :: es))%py
  end.

(** [main] with [TEST_MODE = True] and [SEND_EMAILS = False], as the
    source has them: the texts written to [newsletter_issue_0001.html]
    and [contexts.txt].  [articles] is what [load_articles] returns and
    [template] the text of the template; the messages printed are left
    out. *)
Definition main (R : runtime) (template : pystr) (articles : list enriched)
  : gen (outcome (pystr * pystr)) :=
  (let articles := firstn TEST_COUNT articles in
   enriched <- enrich_all R articles ;;
   html <- pure_call (build_newsletter_html R template enriched) ;;
   let contexts := build_contexts_text enriched in
   ret (html, contexts))%py.

(* ================================================================= *)
(** ** Vocabulary of the further properties *)

(** [p] is the beginning of [s]; [p] is the end of [s]. *)
Definition prefix_of (p s : pystr) : Prop := exists post, s = p ++ post.
Definition suffix_of (p s : pystr) : Prop := exists pre, s = pre ++ p.

(** Every white space character of the text is a blank that another
    character, not white space, follows. *)
Fixpoint single_spaced (s : pystr) : Prop :=
  match s with
  | [] => True
  | c :: rest =>
      (is_space c = true ->
       c = 32%N /\
       match rest with
       | d :: _ => is_space d = false
       | [] => False
       end) /\
      single_spaced rest
  end.

(** The text does not begin with white space. *)
Definition starts_clean (s : pystr) : Prop :=
  match s with
  | [] => True
  | c :: _ => is_space c = false
  end.

(** A word of [s.split()]: not empty, without white space. *)
Definition is_word (w : pystr) : Prop :=
  w <> [] /\ forallb (fun c => negb (is_space c)) w = true.

(** The keys that [ai_extract_deal_metadata] reads from the proposal. *)
Definition metadata_keys : list String.string :=
  [ "investor_or_pe"; "buyer"; "seller"; "advisor_firm";
    "buyer_lead_name"; "buyer_lead_role";
    "investor_lead_name"; "investor_lead_role";
    "seller_lead_name"; "seller_lead_role" ].

(** A proposed value that [clean] accepts: one that is false as a
    condition, or a string. *)
Definition cleanable (val : json) : Prop :=
  falsy val = true \/ exists s, val = JStr s.

(** A proposal on which [ai_extract_deal_metadata] does not raise: a
    dictionary whose values under the ten keys, where present, are
    cleanable. *)
Definition proposal_ok (data : json) : Prop :=
  exists items,
    data = JObj items /\
    Forall (fun key => cleanable (dict_get items (str key) (JStr NA)))
      metadata_keys.

(** The first of the values that is not the sentinel. *)
Fixpoint first_non_NA (values : list pystr) : pystr :=
  match values with
  | [] => NA
  | v :: rest => if negb (Str.eqb v NA) then v else first_non_NA rest
  end.

(** A value as the record holds it: not empty and without white space
    around it. *)
Definition trimmed (v : pystr) : Prop := v <> [] /\ strip v = v.

(** The digits outside ASCII have a value below ten, as the decimal
    digits of Unicode do. *)
Definition sane_digits (R : runtime) : Prop :=
  forall c v, uni_decimal R c = Some v -> (v < 10)%N.

(** The values of [MONTH_MAP]. *)
Definition month_abbreviations : list pystr :=
  [ str "Jan"; str "Feb"; str "Mar"; str "Apr"; str "May"; str "Jun";
    str "Jul"; str "Aug"; str "Sep"; str "Oct"; str "Nov"; str "Dec" ].


(** The number of times the character [c] occurs in [s]. *)
Definition occurrences (c : char) (s : pystr) : nat :=
  length (filter (N.eqb c) s).

(** The proposal for the article [a] can be cleaned: there is no
    content, so that nothing is asked, or the proposal read from the
    answer is a dictionary whose values under the ten keys are strings
    or false as conditions. *)
Definition metadata_ok (R : runtime) (service : request -> option pystr)
  (a : enriched) : Prop :=
  content (as_article a) = [] \/
  proposal_ok
    (proposal_of R
       (service
          (MetadataPrompt
             (firstn MAX_CHARS_FOR_AI (content (as_article a)))))).

(** The calls of the two extractors for the article [a]. *)
Definition article_calls (R : runtime) (service : request -> option pystr)
  (a : enriched) : list request :=
  calls service (get_context_text R (as_article a)) ++
  calls service (ai_extract_deal_metadata R (content (as_article a))).

(** A template read as a sequence of texts and placeholders. *)
Inductive piece : Type :=
| Text (t : pystr)
| IssueDate
| IssueNumber
| DealBlocks.

(** The pieces with the placeholders written as [date], [number] and
    [blocks]. *)
Definition render (date number blocks : pystr) (pieces : list piece)
  : pystr :=
  concat
    (map (fun p =>
            match p with
            | Text t => t
            | IssueDate => date
            | IssueNumber => number
            | DealBlocks => blocks
            end) pieces).

(** The text of the template, and the page once it is filled. *)
Definition template_text (pieces : list piece) : pystr :=
  render (str "{{ISSUE_DATE}}") (str "{{ISSUE_NUMBER}}")
    (str "{{DEAL_BLOCKS}}") pieces.

Definition filled (blocks_html : pystr) (pieces : list piece) : pystr :=
  render ISSUE_DATE ISSUE_NUMBER blocks_html pieces.

(** A text between placeholders: each [{] of it is followed by a
    character that is not [{], so that it holds no beginning of a
    placeholder, not even as its last character. *)
Fixpoint plain (t : pystr) : bool :=
  match t with
  | [] => true
  | c :: t' =>
      (if (c =? 123)%N
       then match t' with
            | d :: _ => negb (d =? 123)%N
            | [] => false
            end
       else true) && plain t'
  end.

Definition plain_piece (p : piece) : bool :=
  match p with
  | Text t => plain t
  | _ => true
  end.
(* ================================================================= *)
(** * Properties *)

(* ================================================================= *)
(** ** Strings *)

Lemma eqb_eq (a b : pystr) : Str.eqb a b = true <-> a = b.
Proof.
  unfold Str.eqb. destruct (list_eq_dec N.eq_dec a b); split; congruence.
Qed.

Lemma eqb_neq (a b : pystr) : Str.eqb a b = false <-> a <> b.
Proof.
  unfold Str.eqb. destruct (list_eq_dec N.eq_dec a b); split; congruence.
Qed.

Lemma truthy_true (s : pystr) : truthy s = true <-> s <> [].
Proof. destruct s; simpl; split; congruence. Qed.

Lemma truthy_false (s : pystr) : truthy s = false <-> s = [].
Proof. destruct s; simpl; split; congruence. Qed.

Lemma starts_with_spec (x s : pystr) :
  starts_with x s = true <-> exists post, s = x ++ post.
Proof.
  revert s. induction x as [|a x IH]; intros s; simpl.
  - split; [intros _; now exists s | reflexivity].
  - destruct s as [|b s].
    + split; [discriminate | intros [post H]; discriminate].
    + rewrite andb_true_iff, N.eqb_eq, IH. split.
      * intros [-> [post ->]]. now exists post.
      * intros [post H]. injection H as -> ->. split; [reflexivity | now exists post].
Qed.

Lemma find_some (x s : pystr) (i : nat) :
  find x s = Some i -> exists post, skipn i s = x ++ post /\ i <= length s.
Proof.
  revert i. induction s as [|c s IH]; intros i; simpl.
  - destruct (starts_with x []) eqn:E; [|discriminate].
    intros [= <-]. apply starts_with_spec in E. destruct E as [post E].
    exists post. simpl. split; [exact E | lia].
  - destruct (starts_with x (c :: s)) eqn:E.
    + intros [= <-]. apply starts_with_spec in E. destruct E as [post E].
      exists post. simpl. split; [exact E | lia].
    + destruct (find x s) as [j|]; [|discriminate]. simpl.
      intros [= <-]. destruct (IH j eq_refl) as [post [H L]].
      exists post. simpl. split; [exact H | lia].
Qed.

Lemma find_none (x s pre post : pystr) :
  find x s = None -> s <> pre ++ x ++ post.
Proof.
  revert pre. induction s as [|c s IH]; intros pre; simpl.
  - destruct (starts_with x []) eqn:E; [discriminate|]. intros _ H.
    destruct pre; simpl in H.
    + assert (starts_with x [] = true) by (apply starts_with_spec; now exists post).
      congruence.
    + discriminate.
  - destruct (starts_with x (c :: s)) eqn:E; [discriminate|].
    destruct (find x s) eqn:F; [discriminate|]. intros _ H.
    destruct pre as [|d pre]; simpl in H.
    + assert (starts_with x (c :: s) = true)
        by (apply starts_with_spec; now exists post).
      congruence.
    + injection H as _ H. now apply (IH pre eq_refl).
Qed.

(** [x in s] holds exactly when [x] occurs in [s]. *)
Lemma contains_spec (s x : pystr) :
  contains s x = true <-> exists pre post, s = pre ++ x ++ post.
Proof.
  unfold contains. destruct (find x s) as [i|] eqn:F; split.
  - intros _. destruct (find_some _ _ _ F) as [post [H _]].
    exists (firstn i s), post. now rewrite <- H, firstn_skipn.
  - reflexivity.
  - discriminate.
  - intros [pre [post H]]. now apply (find_none _ _ pre post) in F.
Qed.

Lemma lstrip_by_snoc p a c :
  p c = false -> lstrip_by p (a ++ [c]) = lstrip_by p a ++ [c].
Proof.
  intros H. induction a as [|d a IH]; simpl.
  - now rewrite H.
  - destruct (p d); [exact IH | reflexivity].
Qed.

Lemma rstrip_by_cons p c s :
  p c = false -> rstrip_by p (c :: s) = c :: rstrip_by p s.
Proof.
  intros H. unfold rstrip_by. simpl rev.
  now rewrite lstrip_by_snoc, rev_app_distr by exact H.
Qed.

(** Stripping keeps a first character that is not stripped. *)
Lemma strip_by_cons p c s :
  p c = false -> strip_by p (c :: s) = c :: rstrip_by p s.
Proof.
  intros H. unfold strip_by. simpl lstrip_by. rewrite H.
  now apply rstrip_by_cons.
Qed.

Lemma replace_cons old new c s :
  replace old new (c :: s) =
  if starts_with old (c :: s)
  then new ++ replace_aux old new s (length old - 1)
  else c :: replace_aux old new s 0.
Proof. reflexivity. Qed.

Lemma in_join c sep parts :
  In c (join sep parts) -> In c sep \/ exists p, In p parts /\ In c p.
Proof.
  induction parts as [|p rest IH]; simpl; [intros []|].
  destruct rest as [|q rest].
  - intros H. right. exists p. auto.
  - intros H. apply in_app_or in H. destruct H as [H|H].
    + right. exists p. auto.
    + apply in_app_or in H. destruct H as [H|H]; [now left|].
      destruct (IH H) as [I|[x [Ix Ic]]]; [now left|].
      right. exists x. split; [now right | exact Ic].
Qed.

Lemma in_split_ws_aux s : forall cur p c,
  In p (split_ws_aux s cur) -> In c p -> In c s \/ In c cur.
Proof.
  induction s as [|d s IH]; intros cur p c; simpl.
  - destruct cur as [|e cur]; [intros []|].
    intros [<-|[]] H. right. now apply in_rev.
  - destruct (is_space d).
    + destruct cur as [|e cur].
      * intros H Hc. destruct (IH _ _ _ H Hc) as [I|[]]. left. now right.
      * intros [<-|H] Hc.
        -- right. now apply in_rev.
        -- destruct (IH _ _ _ H Hc) as [I|[]]. left. now right.
    + intros H Hc. destruct (IH _ _ _ H Hc) as [I|[<-|I]].
      * left. now right.
      * left. now left.
      * now right.
Qed.

(** The characters of a collapsed text are blanks and characters of
    the text. *)
Lemma in_collapse_ws c s : In c (collapse_ws s) -> c = 32%N \/ In c s.
Proof.
  unfold collapse_ws, split_ws. intros H. apply in_join in H.
  destruct H as [[<-|[]]|[p [I Hc]]]; [now left|].
  destruct (in_split_ws_aux _ _ _ _ I Hc) as [J|[]]. now right.
Qed.

(* ================================================================= *)
(** ** The regular expression engine *)

Module ReFacts.
Import Re.

Lemma consumed_app (m s' : pystr) : consumed (m ++ s') s' = m.
Proof.
  unfold consumed. rewrite length_app.
  replace (length m + length s' - length s') with (length m) by lia.
  rewrite firstn_app, firstn_all, Nat.sub_diag. simpl. apply app_nil_r.
Qed.

Section Soundness.
Variable A : Type.
Implicit Types (k : pystr -> option A) (a : A).

Lemma many_sound p s k a :
  many p s k = Some a ->
  exists m s', s = m ++ s' /\ forallb p m = true /\ k s' = Some a.
Proof.
  induction s as [|c s IH]; simpl.
  - intros H. now exists [], [].
  - destruct (p c) eqn:P.
    + destruct (many p s k) as [b|] eqn:M.
      * intros [= ->]. destruct (IH eq_refl) as [m [s' [-> [F K]]]].
        exists (c :: m), s'. simpl. now rewrite P, F.
      * intros H. now exists [], (c :: s).
    + intros H. now exists [], (c :: s).
Qed.

Lemma rep_sound p lo hi s k a :
  rep p lo hi s k = Some a ->
  exists m s',
    s = m ++ s' /\ forallb p m = true /\ lo <= length m <= hi /\
    k s' = Some a.
Proof.
  revert lo s. induction hi as [|hi IH]; intros lo s; simpl.
  - destruct lo; [|discriminate]. intros H. exists [], s. simpl. repeat split; auto.
  - assert (Stop : match lo with 0 => k s | S _ => None end = Some a ->
        exists m s', s = m ++ s' /\ forallb p m = true /\
                     lo <= length m <= S hi /\ k s' = Some a).
    { destruct lo; [|discriminate]. intros H. exists [], s. simpl.
      repeat split; auto. lia. }
    destruct s as [|c s]; [exact Stop|].
    destruct (p c) eqn:P; [|exact Stop].
    destruct (rep p (pred lo) hi s k) as [b|] eqn:E; [|exact Stop].
    intros [= ->]. destruct (IH _ _ E) as [m [s' [-> [F [L K]]]]].
    exists (c :: m), s'. simpl. rewrite P, F. repeat split; auto; lia.
Qed.

Lemma run_sound r : forall s k a,
  run r s k = Some a ->
  exists m s', s = m ++ s' /\ lang r m /\ k s' = Some a.
Proof.
  induction r as [|p|r1 IH1 r2 IH2|r1 IH1 r2 IH2|r1 IH1|p|lo hi p];
    intros s k a; simpl.
  - intros H. now exists [], s.
  - destruct s as [|c s]; [discriminate|].
    destruct (p c) eqn:P; [|discriminate].
    intros H. exists [c], s. repeat split; auto. now exists c.
  - intros H. destruct (IH1 _ _ _ H) as [m1 [s1 [-> [L1 H1]]]].
    destruct (IH2 _ _ _ H1) as [m2 [s2 [-> [L2 H2]]]].
    exists (m1 ++ m2), s2. rewrite <- app_assoc. repeat split; auto.
    now exists m1, m2.
  - destruct (run r1 s k) as [b|] eqn:E.
    + intros [= ->]. destruct (IH1 _ _ _ E) as [m [s' [-> [L K]]]].
      exists m, s'. auto.
    + intros H. destruct (IH2 _ _ _ H) as [m [s' [-> [L K]]]].
      exists m, s'. auto.
  - destruct (run r1 s k) as [b|] eqn:E.
    + intros [= ->]. destruct (IH1 _ _ _ E) as [m [s' [-> [L K]]]].
      exists m, s'. auto.
    + intros H. exists [], s. auto.
  - intros H. apply many_sound in H. destruct H as [m [s' [-> [F K]]]].
    exists m, s'. auto.
  - intros H. apply rep_sound in H. destruct H as [m [s' [-> [F [L K]]]]].
    exists m, s'. auto.
Qed.

End Soundness.

Section Completeness.
Variable A : Type.
Implicit Types (k : pystr -> option A).

Lemma many_stop p s k : succeeds (k s) -> succeeds (many p s k).
Proof.
  intros [a K]. destruct s as [|c s]; simpl; [now exists a|].
  destruct (p c); [|now exists a].
  destruct (many p s k) as [b|]; [now exists b | now exists a].
Qed.

Lemma many_complete p m s' k :
  forallb p m = true -> succeeds (k s') -> succeeds (many p (m ++ s') k).
Proof.
  induction m as [|c m IH]; simpl; intros F K.
  - now apply many_stop.
  - apply andb_true_iff in F. destruct F as [P F]. rewrite P.
    destruct (IH F K) as [b ->]. now exists b.
Qed.

Lemma rep_complete p lo hi m s' k :
  forallb p m = true -> lo <= length m <= hi -> succeeds (k s') ->
  succeeds (rep p lo hi (m ++ s') k).
Proof.
  revert lo m. induction hi as [|hi IH]; intros lo m F L K.
  - assert (length m = 0) by lia. destruct m; [|discriminate].
    assert (lo = 0) by (simpl in L; lia). subst. exact K.
  - destruct m as [|c m].
    + assert (lo = 0) by (simpl in L; lia). subst lo. simpl.
      destruct K as [a K]. destruct s' as [|c s']; [now exists a|].
      destruct (p c); [|now exists a].
      destruct (rep p 0 hi s' k) as [b|]; [now exists b | now exists a].
    + simpl in *. apply andb_true_iff in F. destruct F as [P F]. rewrite P.
      destruct (IH (pred lo) m F) as [b ->]; [lia | exact K | now exists b].
Qed.

Lemma run_complete r : forall m s' k,
  lang r m -> succeeds (k s') -> succeeds (run r (m ++ s') k).
Proof.
  induction r as [|p|r1 IH1 r2 IH2|r1 IH1 r2 IH2|r1 IH1|p|lo hi p];
    intros m s' k; simpl.
  - intros -> K. exact K.
  - intros [c [-> P]] K. simpl. now rewrite P.
  - intros [m1 [m2 [-> [L1 L2]]]] K. rewrite <- app_assoc.
    apply IH1; [exact L1|]. now apply IH2.
  - intros [L|L] K.
    + destruct (IH1 _ _ _ L K) as [b ->]. now exists b.
    + destruct (run r1 (m ++ s') k) as [b|]; [now exists b|]. now apply IH2.
  - intros [->|L] K.
    + simpl. destruct K as [a K].
      destruct (run r1 s' k) as [b|]; [now exists b | now exists a].
    + destruct (IH1 _ _ _ L K) as [b ->]. now exists b.
  - intros F K. now apply many_complete.
  - intros [L F] K. now apply rep_complete.
Qed.

End Completeness.

(** [re.search] answers the leftmost position at which the attempt
    succeeds. *)
Lemma search_sound (A : Type) (m : pystr -> option A) s i a :
  search m s = Some (i, a) ->
  i <= length s /\ m (skipn i s) = Some a /\
  forall j, j < i -> m (skipn j s) = None.
Proof.
  revert i. induction s as [|c s IH]; intros i; simpl.
  - destruct (m []) as [b|] eqn:E; [|discriminate].
    intros [= <- <-]. repeat split; auto. intros j Hj. lia.
  - destruct (m (c :: s)) as [b|] eqn:E.
    + intros [= <- <-]. repeat split; auto; [lia|]. intros j Hj. lia.
    + destruct (search m s) as [[j b]|] eqn:S; [|discriminate].
      intros [= <- <-]. destruct (IH _ eq_refl) as [L [M N]].
      repeat split; auto; [lia|]. intros [|j'] Hj; simpl; [exact E|].
      apply N. lia.
Qed.

Lemma search_none (A : Type) (m : pystr -> option A) s :
  search m s = None -> forall pre post, s = pre ++ post -> m post = None.
Proof.
  induction s as [|c s IH]; simpl.
  - destruct (m []) eqn:E; [discriminate|]. intros _ pre post H.
    symmetry in H. apply app_eq_nil in H. destruct H as [_ ->]. exact E.
  - destruct (m (c :: s)) eqn:E; [discriminate|].
    destruct (search m s) as [[j b]|] eqn:S; [discriminate|].
    intros _ [|d pre] post H; simpl in H.
    + now subst post.
    + injection H as _ H. now apply (IH eq_refl pre).
Qed.

(** The text of a match is what the pattern matches. *)
Lemma match_at_sound r s m :
  match_at r s = Some m -> lang r m /\ exists s', s = m ++ s'.
Proof.
  unfold match_at. intros H. apply run_sound in H.
  destruct H as [m' [s' [-> [L [= <-]]]]]. rewrite consumed_app.
  split; [exact L | now exists s'].
Qed.

Lemma match_at_complete r m s' :
  lang r m -> exists m', match_at r (m ++ s') = Some m'.
Proof.
  intros L. apply run_complete; [exact L|]. now eexists.
Qed.

End ReFacts.


(* ================================================================= *)
(** ** Date handling *)

Section DateFacts.
Context (R : runtime).
Import Re ReFacts.

Lemma date_at_sound s g :
  date_at R s = Some g -> exists m rest, s = m ++ rest /\ date_text R g m.
Proof.
  unfold date_at. intros H.
  apply run_sound in H. destruct H as [m1 [s1 [E1 [L1 H]]]].
  apply run_sound in H. destruct H as [m2 [s2 [E2 [L2 H]]]].
  apply run_sound in H. destruct H as [m3 [s3 [E3 [L3 H]]]].
  apply run_sound in H. destruct H as [m4 [s4 [E4 [L4 H]]]].
  apply run_sound in H. destruct H as [m5 [s5 [E5 [L5 H]]]].
  injection H as <-. subst s4 s3 s2 s1 s. rewrite !consumed_app.
  exists (m1 ++ m2 ++ m3 ++ m4 ++ m5), s5. split.
  - now rewrite <- !app_assoc.
  - exists m2, m4. repeat (split; [assumption || reflexivity|]). assumption.
Qed.

Lemma date_at_complete g m rest :
  date_text R g m -> succeeds (date_at R (m ++ rest)).
Proof.
  destruct g as [[mo d] y]. intros [sp [c [-> [L1 [L2 [L3 [L4 L5]]]]]]].
  unfold date_at. rewrite <- !app_assoc.
  apply run_complete; [exact L1|].
  apply run_complete; [exact L2|].
  apply run_complete; [exact L3|].
  apply run_complete; [exact L4|].
  apply run_complete; [exact L5|].
  now eexists.
Qed.

Lemma date_search_some s g :
  date_search R s = Some g -> exists m, date_text R g m /\ occurs_in m s.
Proof.
  unfold date_search. destruct (search (date_at R) s) as [[i g']|] eqn:E;
    [|discriminate].
  simpl. intros [= ->]. apply search_sound in E. destruct E as [_ [E _]].
  apply date_at_sound in E. destruct E as [m [rest [E T]]].
  exists m. split; [exact T|]. exists (firstn i s), rest.
  now rewrite <- E, firstn_skipn.
Qed.

Lemma date_search_none s : date_search R s = None -> ~ has_date R s.
Proof.
  unfold date_search. destruct (search (date_at R) s) as [[i g']|] eqn:E;
    [discriminate|].
  intros _ [g [m [T [pre [post H]]]]].
  apply (search_none _ _ _ E pre) in H.
  destruct (date_at_complete g m post T) as [g' G]. congruence.
Qed.

Lemma date_search_complete s :
  has_date R s -> exists g, date_search R s = Some g.
Proof.
  intros H. destruct (date_search R s) as [g|] eqn:E; [now exists g|].
  now apply date_search_none in E.
Qed.

Lemma int_digits_total d : forall acc,
  forallb (is_digit R) d = true -> exists n, int_digits R d acc = Some n.
Proof.
  induction d as [|c d IH]; intros acc; simpl.
  - intros _. now exists acc.
  - unfold is_digit at 1. destruct (decimal_value R c) as [v|]; [|discriminate].
    simpl. apply IH.
Qed.

(** [int(day)] does not raise on the second group of the pattern, and
    the formatted date is not empty. *)
Lemma format_date_returns g m :
  date_text R g m ->
  exists out, format_date R g = Returns out /\ out <> [].
Proof.
  destruct g as [[mo d] y]. intros [sp [c [_ [_ [_ [[L F] _]]]]]].
  unfold format_date, py_int.
  destruct d as [|c0 d]; [simpl in L; lia|].
  destruct (int_digits_total (c0 :: d) 0%N F) as [n ->]. simpl.
  eexists. split; [reflexivity|].
  intros H. apply app_eq_nil in H. destruct H as [_ H]. discriminate.
Qed.

Lemma extract_date_from_content_returns content :
  exists out, extract_date_from_content R content = Returns out.
Proof.
  unfold extract_date_from_content.
  destruct (date_search R (collapse_ws content)) as [g|] eqn:E.
  - apply date_search_some in E. destruct E as [m [T _]].
    destruct (format_date_returns g m T) as [out [-> _]]. now exists out.
  - now eexists.
Qed.

Lemma get_pretty_date_returns a :
  exists out, get_pretty_date R a = Returns out.
Proof.
  unfold get_pretty_date, extract_date_from_timestamp_list.
  destruct (timestamp a) as [|ts rest]; simpl.
  - apply extract_date_from_content_returns.
  - destruct (date_search R ts) as [g|] eqn:E; simpl.
    + apply date_search_some in E. destruct E as [m [T _]].
      destruct (format_date_returns g m T) as [out [-> N]]. simpl.
      apply truthy_true in N. rewrite N. now exists out.
    + apply extract_date_from_content_returns.
Qed.

End DateFacts.

(** Without a date in the first timestamp entry the content decides. *)
Lemma date_source_order_aux (R : runtime) (a : article) :
  timestamp a = [] \/
  (exists ts rest, timestamp a = ts :: rest /\ ~ has_date R ts) ->
  (forall g, date_search R (collapse_ws (content a)) = Some g ->
     get_pretty_date R a = format_date R g) /\
  (~ has_date R (collapse_ws (content a)) ->
     get_pretty_date R a = Returns []).
Proof.
  intros H.
  assert (E : get_pretty_date R a = extract_date_from_content R (content a)).
  { unfold get_pretty_date. destruct H as [->|[ts [rest [-> N]]]]; simpl.
    - reflexivity.
    - destruct (date_search R ts) as [g|] eqn:G; [|reflexivity].
      exfalso. apply N. destruct (date_search_some R ts g G) as [m [T O]].
      now exists g, m. }
  rewrite E. unfold extract_date_from_content. split.
  - intros g ->. reflexivity.
  - intros N. destruct (date_search R (collapse_ws (content a))) as [g|] eqn:G;
      [|reflexivity].
    exfalso. apply N. destruct (date_search_some R _ g G) as [m [T O]].
    now exists g, m.
Qed.

(** C6. Source order of the date normaliser.  [get_pretty_date] never
    raises.  When the date pattern matches in the first timestamp entry,
    the result is the non-empty formatted date of that entry, whatever
    the content is; the content is consulted only when there is no
    timestamp or the first entry has no match, and then the same pattern
    is searched in the whitespace-collapsed content; when nothing
    matches in either source the result is the empty string. *)
Theorem date_source_order (R : runtime) (a : article) :
  (exists out, get_pretty_date R a = Returns out) /\
  (forall ts rest, timestamp a = ts :: rest -> has_date R ts ->
     exists g out,
       date_search R ts = Some g /\ format_date R g = Returns out /\
       out <> [] /\
       forall a', timestamp a' = timestamp a ->
                  get_pretty_date R a' = Returns out) /\
  (timestamp a = [] \/
   (exists ts rest, timestamp a = ts :: rest /\ ~ has_date R ts) ->
     (forall g, date_search R (collapse_ws (content a)) = Some g ->
        get_pretty_date R a = format_date R g) /\
     (~ has_date R (collapse_ws (content a)) ->
        get_pretty_date R a = Returns [])).
Proof.
  split; [apply get_pretty_date_returns|]. split.
  - intros ts rest E H. destruct (date_search_complete R ts H) as [g G].
    destruct (date_search_some R ts g G) as [m [T _]].
    destruct (format_date_returns R g m T) as [out [F N]].
    exists g, out. repeat (split; [assumption|]).
    intros a' E'. unfold get_pretty_date. rewrite E', E. simpl.
    rewrite G, F. simpl. apply truthy_true in N. now rewrite N.
  - apply date_source_order_aux.
Qed.

(** A run of [date_source_order]: the first timestamp entry has no
    date, so the date comes from the content. *)
Lemma date_source_order_witness :
  get_pretty_date caseless
    {| title := []; content := str "Signed on  March 5, 2024 in Paris";
       url := []; timestamp := [str "yesterday"] |}
  = Returns (str "Mar 5, 2024").
Proof.
  set (a := {| title := []; content := str "Signed on  March 5, 2024 in Paris";
               url := []; timestamp := [str "yesterday"] |}).
  assert (N : ~ has_date caseless (str "yesterday")).
  { apply date_search_none. vm_compute. reflexivity. }
  destruct (date_source_order caseless a) as [_ [_ H]].
  destruct H as [H _].
  - right. exists (str "yesterday"), []. split; [reflexivity | exact N].
  - rewrite (H (str "March", str "5", str "2024")); vm_compute; reflexivity.
Defined.

(** C7. Round trip of the date normaliser: an article whose first
    timestamp entry is ["Nov. 26, 2025"] gets ["Nov 26, 2025"], one
    whose first entry is ["November 3, 2025"] gets ["Nov 3, 2025"]: the
    month in its three-letter form, the day as a plain integer. *)
Theorem date_round_trip (R : runtime) (title content url : pystr)
  (rest : list pystr) :
  get_pretty_date R
    {| title := title; content := content; url := url;
       timestamp := str "Nov. 26, 2025" :: rest |}
  = Returns (str "Nov 26, 2025") /\
  get_pretty_date R
    {| title := title; content := content; url := url;
       timestamp := str "November 3, 2025" :: rest |}
  = Returns (str "Nov 3, 2025") /\
  get_pretty_date R
    {| title := title; content := content; url := url;
       timestamp := str "Nov. 03, 2025" :: rest |}
  = Returns (str "Nov 3, 2025").
Proof.
  repeat split; vm_compute; reflexivity.
Qed.

(* ================================================================= *)
(** ** Calls of the service *)

Lemma result_gbind {A B} service (g : gen A) (f : A -> gen B) :
  result service (gbind g f) = result service (f (result service g)).
Proof. induction g as [a|q k IH]; simpl; [reflexivity | apply IH]. Qed.

Lemma calls_gbind {A B} service (g : gen A) (f : A -> gen B) :
  calls service (gbind g f)
  = calls service g ++ calls service (f (result service g)).
Proof.
  induction g as [a|q k IH]; simpl; [reflexivity | now rewrite IH].
Qed.

(* ================================================================= *)
(** ** Summaries *)

Lemma rfind_char_lt c s i : rfind_char c s = Some i -> i < length s.
Proof.
  revert i. induction s as [|d s IH]; intros i; simpl; [discriminate|].
  destruct (rfind_char c s) as [j|].
  - intros [= <-]. specialize (IH j eq_refl). lia.
  - destruct (d =? c)%N; [|discriminate]. intros [= <-]. lia.
Qed.

Lemma simple_summary_unfold content n :
  simple_summary content n =
  let summary := first_two_sentences content in
  if negb (truthy (strip_prnewswire_boilerplate content)) then []
  else if n <? length summary
  then
    match rfind_char 32%N (firstn n summary) with
    | Some last =>
        if 0 <? last then firstn last (firstn n summary)
        else firstn n summary
    | None => firstn n summary
    end ++ str "..."
  else summary.
Proof. reflexivity. Qed.

Lemma first_two_sentences_empty content :
  strip_prnewswire_boilerplate content = [] ->
  first_two_sentences content = [].
Proof. unfold first_two_sentences. intros ->. reflexivity. Qed.

(** C10. Length bound of the deterministic summary: with
    [max_chars = 400] the result has at most 403 characters.  When the
    two joined sentences have at most 400 characters they are the
    result; when they have more, the result is a cut of them of at most
    400 characters (their first 400, or those before the last blank of
    these when there is one past index 0) followed by the three
    characters ["..."]. *)
Theorem simple_summary_length (content : pystr) :
  length (simple_summary content 400) <= 403 /\
  (length (first_two_sentences content) <= 400 ->
     simple_summary content 400 = first_two_sentences content) /\
  (400 < length (first_two_sentences content) ->
     exists cut,
       simple_summary content 400 = cut ++ str "..." /\
       length cut <= 400 /\
       (cut = firstn 400 (first_two_sentences content) \/
        exists last,
          0 < last /\
          rfind_char 32%N (firstn 400 (first_two_sentences content))
            = Some last /\
          cut = firstn last (first_two_sentences content))).
Proof.
  rewrite simple_summary_unfold. cbv zeta.
  set (summary := first_two_sentences content).
  assert (F : length (firstn 400 summary) <= 400) by apply firstn_le_length.
  destruct (truthy (strip_prnewswire_boilerplate content)) eqn:T; simpl negb;
    cbv iota.
  - destruct (400 <? length summary) eqn:L.
    + apply Nat.ltb_lt in L.
      assert (C : exists cut,
                 match rfind_char 32%N (firstn 400 summary) with
                 | Some last =>
                     if 0 <? last then firstn last (firstn 400 summary)
                     else firstn 400 summary
                 | None => firstn 400 summary
                 end = cut /\ length cut <= 400 /\
                 (cut = firstn 400 summary \/
                  exists last, 0 < last /\
                    rfind_char 32%N (firstn 400 summary) = Some last /\
                    cut = firstn last summary)).
      { destruct (rfind_char 32%N (firstn 400 summary)) as [last|] eqn:E.
        - destruct (0 <? last) eqn:P.
          + exists (firstn last (firstn 400 summary)). split; [reflexivity|].
            apply rfind_char_lt in E. split.
            * rewrite firstn_le_length. lia.
            * right. exists last. apply Nat.ltb_lt in P.
              repeat split; auto. rewrite firstn_firstn. f_equal. lia.
          + exists (firstn 400 summary). auto.
        - exists (firstn 400 summary). auto. }
      destruct C as [cut [-> [Lc Hc]]]. split; [|split].
      * rewrite length_app. simpl. lia.
      * lia.
      * intros _. exists cut. auto.
    + apply Nat.ltb_ge in L. split; [lia|]. split; [reflexivity | lia].
  - apply truthy_false in T.
    assert (E : summary = []) by now apply first_two_sentences_empty.
    split; [simpl; lia|]. split; [now rewrite E|]. rewrite E. simpl. lia.
Qed.

(** A run of [simple_summary_length] on a short text of three
    sentences. *)
Lemma simple_summary_length_witness :
  simple_summary (str "One. Two. Three.") 400 = str "One. Two.".
Proof.
  apply (proj1 (proj2 (simple_summary_length (str "One. Two. Three.")))).
  vm_compute. lia.
Defined.

(* ================================================================= *)
(** ** The summary selector *)

Section SelectorFacts.
Context (R : runtime).

Lemma any_token_in_spec summary_l tokens :
  any_token_in R summary_l tokens = true <->
  exists t, In t tokens /\ occurs_in (lower R t) summary_l.
Proof.
  induction tokens as [|t rest IH]; simpl.
  - split; [discriminate | intros [t [[] _]]].
  - destruct (contains summary_l (lower R t)) eqn:C.
    + split; [|reflexivity]. intros _. exists t. split; [now left|].
      now apply contains_spec.
    + rewrite IH. split.
      * intros [u [I O]]. exists u. split; [now right | exact O].
      * intros [u [[->|I] O]].
        -- apply contains_spec in O. congruence.
        -- now exists u.
Qed.

Lemma title_tokens_spec title t :
  In t (title_tokens title) <->
  exists w, In w (split_ws title) /\
            4 <= length (strip_chars title_punctuation w) /\
            t = strip_chars title_punctuation w.
Proof.
  unfold title_tokens. rewrite in_map_iff. split.
  - intros [w [<- I]]. apply filter_In in I. destruct I as [I L].
    apply Nat.leb_le in L. now exists w.
  - intros [w [I [L ->]]]. exists w. split; [reflexivity|].
    apply filter_In. split; [exact I | now apply Nat.leb_le].
Qed.

(** [summary_matches_title] on a summary that is not empty. *)
Lemma summary_matches_title_spec summary title :
  summary <> [] ->
  summary_matches_title R summary title = true <->
  title_attests R title summary.
Proof.
  intros N. unfold summary_matches_title.
  apply truthy_true in N. rewrite N. simpl.
  assert (E : match title_tokens title with
              | [] => false
              | _ :: _ => any_token_in R (lower R summary) (title_tokens title)
              end = any_token_in R (lower R summary) (title_tokens title))
    by (destruct (title_tokens title); reflexivity).
  assert (S : any_token_in R (lower R summary) (title_tokens title) = true
              <-> title_attests R title summary).
  { rewrite any_token_in_spec. unfold title_attests. split.
    - intros [t [I O]]. apply title_tokens_spec in I.
      destruct I as [w [I [L ->]]]. now exists w.
    - intros [w [I [L O]]]. exists (strip_chars title_punctuation w).
      split; [|exact O]. apply title_tokens_spec. now exists w. }
  destruct (truthy title) eqn:T; simpl.
  - now rewrite E.
  - rewrite <- S. apply truthy_false in T. subst title. simpl.
    split; [discriminate | discriminate].
Qed.

Lemma ai_summarise_empty service date_str :
  result service (ai_summarise_with_ollama [] date_str) = [].
Proof. reflexivity. Qed.

(** What [get_context_text] returns, once the date is known. *)
Lemma get_context_text_result service a date :
  get_pretty_date R a = Returns date ->
  result service (get_context_text R a) =
  Returns
    (let ai_line :=
       result service (ai_summarise_with_ollama (content a) date) in
     if truthy ai_line && summary_matches_title R ai_line (title a)
     then ai_line
     else simple_summary (content a) 400).
Proof.
  intros D. unfold get_context_text, bind, pure_call, ret, service_call.
  rewrite D. simpl gbind. destruct (content a) as [|c rest] eqn:C.
  - reflexivity.
  - cbv zeta. simpl truthy. cbv iota. rewrite !result_gbind. simpl result at 1.
    destruct (truthy _ && _); reflexivity.
Qed.

End SelectorFacts.

(** C5. The summary selector.  With [generated] the text that the
    generative summariser returns for the article, the chosen context is
    [generated] when it is not empty and a word of the title of four
    characters or more (after stripping its punctuation) occurs in it,
    both lower-cased; in every other case it is the deterministic
    summary of the same content, in particular when [generated] or the
    title is empty. *)
Theorem summary_selector (R : runtime) (service : request -> option pystr)
  (a : article) :
  exists date,
    get_pretty_date R a = Returns date /\
    let generated :=
      result service (ai_summarise_with_ollama (content a) date) in
    let chosen := result service (get_context_text R a) in
    (generated <> [] /\ title_attests R (title a) generated ->
       chosen = Returns generated) /\
    (~ (generated <> [] /\ title_attests R (title a) generated) ->
       chosen = Returns (simple_summary (content a) 400)) /\
    (generated = [] \/ title a = [] ->
       chosen = Returns (simple_summary (content a) 400)).
Proof.
  destruct (get_pretty_date_returns R a) as [date D]. exists date.
  split; [exact D|]. cbv zeta.
  rewrite (get_context_text_result R service a date D). cbv zeta.
  set (generated := result service (ai_summarise_with_ollama (content a) date)).
  assert (Yes : generated <> [] /\ title_attests R (title a) generated ->
                truthy generated
                && summary_matches_title R generated (title a) = true).
  { intros [N T]. apply andb_true_iff. split; [now apply truthy_true|].
    now apply summary_matches_title_spec. }
  assert (No : ~ (generated <> [] /\ title_attests R (title a) generated) ->
               truthy generated
               && summary_matches_title R generated (title a) = false).
  { intros N. destruct (truthy generated) eqn:T; [|reflexivity]. simpl.
    apply truthy_true in T.
    destruct (summary_matches_title R generated (title a)) eqn:M;
      [|reflexivity].
    exfalso. apply N. split; [exact T|].
    now apply summary_matches_title_spec. }
  split; [|split].
  - intros H. now rewrite (Yes H).
  - intros H. now rewrite (No H).
  - intros H. rewrite No; [reflexivity|]. intros [N [w [I _]]].
    destruct H as [H|H]; [contradiction|]. rewrite H in I. exact I.
Qed.

(** A run of [summary_selector]: the service answers with a summary
    that names no word of the title, and the deterministic summary is
    chosen. *)
Lemma summary_selector_witness :
  result (fun _ => Some (str "Beta bought a firm."))
    (get_context_text caseless
       {| title := str "Acme Acquires Foo"; content := str "Acme bought Foo.";
          url := []; timestamp := [] |})
  = Returns (str "Acme bought Foo.").
Proof.
  set (service := fun _ : request => Some (str "Beta bought a firm.")).
  set (a := {| title := str "Acme Acquires Foo";
               content := str "Acme bought Foo."; url := [];
               timestamp := [] |}).
  destruct (summary_selector caseless service a) as [date [D [_ [H _]]]].
  injection D as <-. apply H. intros [_ T].
  apply (summary_matches_title_spec caseless) in T; [|discriminate].
  vm_compute in T. discriminate.
Defined.

(* ================================================================= *)
(** ** Metadata: the shape of a returned record *)

Lemma validate_proposal_inv R content dv data m :
  validate_proposal R content dv data = Returns m ->
  exists i b s ad bn br inn inr sn sr,
    proposed data "investor_or_pe" = Returns i /\
    proposed data "buyer" = Returns b /\
    proposed data "seller" = Returns s /\
    proposed data "advisor_firm" = Returns ad /\
    proposed data "buyer_lead_name" = Returns bn /\
    proposed data "buyer_lead_role" = Returns br /\
    proposed data "investor_lead_name" = Returns inn /\
    proposed data "investor_lead_role" = Returns inr /\
    proposed data "seller_lead_name" = Returns sn /\
    proposed data "seller_lead_role" = Returns sr /\
    let cn := lower R (collapse_ws content) in
    deal_value m = dv /\
    investor_or_pe m = validate_org R cn i /\
    buyer m = validate_org R cn b /\
    seller m = validate_org R cn s /\
    buyer_lead_name m = validate_person R cn bn /\
    buyer_lead_role m = validate_role R cn br /\
    investor_lead_name m = validate_person R cn inn /\
    investor_lead_role m = validate_role R cn inr /\
    seller_lead_name m = validate_person R cn sn /\
    seller_lead_role m = validate_role R cn sr /\
    (deal_advisor m = validate_org R cn i \/
     deal_advisor m = validate_org R cn ad \/
     deal_advisor m = validate_org R cn b \/
     deal_advisor m = validate_org R cn s \/
     deal_advisor m = NA).
Proof.
  unfold validate_proposal.
  destruct (proposed data "investor_or_pe") as [i|]; [|discriminate].
  destruct (proposed data "buyer") as [b|]; [|discriminate].
  destruct (proposed data "seller") as [s|]; [|discriminate].
  destruct (proposed data "advisor_firm") as [ad|]; [|discriminate].
  destruct (proposed data "buyer_lead_name") as [bn|]; [|discriminate].
  destruct (proposed data "buyer_lead_role") as [br|]; [|discriminate].
  destruct (proposed data "investor_lead_name") as [inn|]; [|discriminate].
  destruct (proposed data "investor_lead_role") as [inr|]; [|discriminate].
  destruct (proposed data "seller_lead_name") as [sn|]; [|discriminate].
  destruct (proposed data "seller_lead_role") as [sr|]; [|discriminate].
  cbn [obind]. cbv zeta. intros [= <-].
  exists i, b, s, ad, bn, br, inn, inr, sn, sr.
  repeat (split; [reflexivity|]). cbn [deal_advisor].
  destruct (negb (Str.eqb (validate_org R _ i) NA)); [now left|].
  destruct (negb (Str.eqb (validate_org R _ ad) NA)); [now right; left|].
  destruct (negb (Str.eqb (validate_org R _ b) NA)); [now right; right; left|].
  destruct (negb (Str.eqb (validate_org R _ s) NA)); [now right; right; right; left|].
  now right; right; right; right.
Qed.

Lemma ai_extract_result R service content :
  content <> [] ->
  result service (ai_extract_deal_metadata R content) =
  validate_proposal R content (extract_deal_value_from_text R content)
    (proposal_of R
       (service (MetadataPrompt (firstn MAX_CHARS_FOR_AI content)))).
Proof.
  intros N. unfold ai_extract_deal_metadata.
  apply truthy_true in N. rewrite N. reflexivity.
Qed.

(* ================================================================= *)
(** ** The end-to-end scenario *)

Lemma ai_summarise_unavailable service content date_str :
  unavailable service ->
  result service (ai_summarise_with_ollama content date_str) = [].
Proof.
  intros U. unfold ai_summarise_with_ollama.
  destruct (truthy content); simpl; [|reflexivity].
  specialize (U (SummaryPrompt (firstn MAX_CHARS_FOR_AI content) date_str)).
  destruct (service _); simpl; [exact U | reflexivity].
Qed.

(** C3 as stated fails: with the service down, the context of the
    scenario is the content as it is, the text ["(PRNewswire) -- "]
    included, and not the text that starts at ["Acme Corp acquired"]. *)
Lemma scenario_context_keeps_prefix :
  unavailable (fun _ => None) /\
  result (fun _ => None) (get_context_text caseless scenario)
    = Returns (content scenario) /\
  result (fun _ => None) (get_context_text caseless scenario)
    <> Returns (str "Acme Corp acquired Foo Inc for USD 240 million. Jane Doe, CEO of Acme, said the deal expands reach.").
Proof.
  split; [intros q; exact I|]. split; [vm_compute; reflexivity|].
  vm_compute. intros H. discriminate H.
Qed.

(** C3, amended.  For the article of the scenario the extracted deal
    value is ["USD 240 million"], also as a field of the metadata
    record; the content does not hold the marker ["/PRNewswire"], so
    nothing is stripped from it, and when the service is unavailable
    the context is its first two sentences, which are the whole content
    from ["(PRNewswire) -- Acme Corp acquired"] on. *)
Theorem scenario_end_to_end (R : runtime) (service : request -> option pystr) :
  unavailable service ->
  extract_deal_value_from_text R (content scenario) = str "USD 240 million" /\
  (forall m,
     result service (ai_extract_deal_metadata R (content scenario))
       = Returns m ->
     deal_value m = str "USD 240 million") /\
  strip_prnewswire_boilerplate (content scenario) = content scenario /\
  result service (get_context_text R scenario)
    = Returns (str "(PRNewswire) -- Acme Corp acquired Foo Inc for USD 240 million. Jane Doe, CEO of Acme, said the deal expands reach.").
Proof.
  intros U.
  assert (V : extract_deal_value_from_text R (content scenario)
              = str "USD 240 million") by (vm_compute; reflexivity).
  split; [exact V|]. split; [|split].
  - intros m H. rewrite ai_extract_result in H by discriminate.
    apply validate_proposal_inv in H.
    destruct H as (i & b & s & ad & bn & br & inn & inr & sn & sr & H).
    destruct H as (_ & _ & _ & _ & _ & _ & _ & _ & _ & _ & H).
    cbv zeta in H. destruct H as [H _]. now rewrite H.
  - vm_compute. reflexivity.
  - rewrite (get_context_text_result R service scenario []);
      [|vm_compute; reflexivity].
    cbv zeta. rewrite ai_summarise_unavailable by exact U.
    simpl andb. cbv iota. vm_compute. reflexivity.
Qed.

(** A run of [scenario_end_to_end] with a service whose calls fail. *)
Lemma scenario_end_to_end_witness :
  extract_deal_value_from_text caseless (content scenario)
    = str "USD 240 million" /\
  result (fun _ => None) (get_context_text caseless scenario)
    = Returns (content scenario).
Proof.
  assert (U : unavailable (fun _ => None)) by (intros q; exact I).
  destruct (scenario_end_to_end caseless (fun _ => None) U) as [V [_ [_ C]]].
  split; [exact V | exact C].
Defined.

(* ================================================================= *)
(** ** Empty content *)

Lemma get_context_text_empty R a :
  content a = [] -> get_context_text R a = Ret (Returns []).
Proof.
  intros E. unfold get_context_text, bind, pure_call, ret.
  destruct (get_pretty_date_returns R a) as [date ->]. simpl gbind.
  rewrite E. reflexivity.
Qed.

(** C8 as stated fails: an article with empty content and a dated
    first timestamp entry gets that date from [get_pretty_date], not
    the empty string. *)
Lemma empty_content_keeps_timestamp_date :
  content {| title := []; content := []; url := [];
             timestamp := [str "Nov. 26, 2025"] |} = [] /\
  get_pretty_date caseless
    {| title := []; content := []; url := [];
       timestamp := [str "Nov. 26, 2025"] |}
  = Returns (str "Nov 26, 2025") /\
  get_pretty_date caseless
    {| title := []; content := []; url := [];
       timestamp := [str "Nov. 26, 2025"] |}
  <> Returns [].
Proof.
  split; [reflexivity|]. split; [vm_compute; reflexivity|].
  vm_compute. intros H. discriminate H.
Qed.

(** C8, amended.  For an article with empty content no function raises
    and every extractor but the date gives its sentinel: the search of a
    date in the content gives [""], so [get_pretty_date] returns what
    the timestamps give ([""] when there is none or the first has no
    date); [simple_summary] returns [""], [extract_deal_value_from_text]
    returns ["NA"], [ai_extract_deal_metadata] returns the record of
    eleven ["NA"] and [get_context_text] returns [""], both without a
    call of the service. *)
Theorem empty_content_degrades (R : runtime)
  (service : request -> option pystr) (a : article) :
  content a = [] ->
  extract_date_from_content R (content a) = Returns [] /\
  get_pretty_date R a = extract_date_from_timestamp_list R (timestamp a) /\
  (exists out, get_pretty_date R a = Returns out) /\
  (timestamp a = [] \/
   (exists ts rest, timestamp a = ts :: rest /\ ~ has_date R ts) ->
   get_pretty_date R a = Returns []) /\
  simple_summary (content a) 400 = [] /\
  extract_deal_value_from_text R (content a) = str "NA" /\
  result service (ai_extract_deal_metadata R (content a))
    = Returns {| deal_value := str "NA"; deal_advisor := str "NA";
                 investor_or_pe := str "NA"; buyer := str "NA";
                 seller := str "NA"; buyer_lead_name := str "NA";
                 buyer_lead_role := str "NA";
                 investor_lead_name := str "NA";
                 investor_lead_role := str "NA";
                 seller_lead_name := str "NA";
                 seller_lead_role := str "NA" |} /\
  calls service (ai_extract_deal_metadata R (content a)) = [] /\
  result service (get_context_text R a) = Returns [] /\
  calls service (get_context_text R a) = [].
Proof.
  intros E.
  assert (C : extract_date_from_content R [] = Returns []) by reflexivity.
  assert (G : get_pretty_date R a
              = extract_date_from_timestamp_list R (timestamp a)).
  { unfold get_pretty_date. rewrite E, C.
    destruct (extract_date_from_timestamp_list R (timestamp a)) as [d|e];
      [|reflexivity].
    destruct d; reflexivity. }
  rewrite (get_context_text_empty R a E), E.
  split; [exact C|]. split; [exact G|].
  split; [apply get_pretty_date_returns|]. split.
  - intros H. destruct (date_source_order_aux R a H) as [_ N].
    apply N. rewrite E. apply date_search_none. reflexivity.
  - repeat split; reflexivity.
Qed.

(** A run of [empty_content_degrades]: no content, an undated
    timestamp. *)
Lemma empty_content_degrades_witness :
  get_pretty_date caseless
    {| title := str "Acme Acquires Foo"; content := []; url := [];
       timestamp := [str "today"] |} = Returns [] /\
  calls (fun _ => Some (str "a summary"))
    (get_context_text caseless
       {| title := str "Acme Acquires Foo"; content := []; url := [];
          timestamp := [str "today"] |}) = [].
Proof.
  set (a := {| title := str "Acme Acquires Foo"; content := []; url := [];
               timestamp := [str "today"] |}).
  destruct (empty_content_degrades caseless
              (fun _ => Some (str "a summary")) a eq_refl)
    as (_ & _ & _ & D & _ & _ & _ & _ & _ & C).
  split; [|exact C]. apply D. right. exists (str "today"), [].
  split; [reflexivity|]. apply date_search_none. vm_compute. reflexivity.
Defined.

(* ================================================================= *)
(** ** The metadata validator *)

Section ValidatorFacts.
Context (R : runtime).

Lemma keep_if_attested_spec content_norm name parts :
  keep_if_attested R content_norm name parts = NA \/
  (keep_if_attested R content_norm name parts = name /\
   exists p, In p parts /\ occurs_in (lower R p) content_norm).
Proof.
  induction parts as [|p rest IH]; simpl.
  - now left.
  - destruct (contains content_norm (lower R p)) eqn:C.
    + right. split; [reflexivity|]. exists p. split; [now left|].
      now apply contains_spec.
    + destruct IH as [IH|[IH [q [I O]]]]; [now left|].
      right. split; [exact IH|]. exists q. split; [now right | exact O].
Qed.

Lemma org_parts_length name p : In p (org_parts name) -> 1 <= length p.
Proof.
  unfold org_parts. rewrite in_map_iff. intros [q [<- I]].
  apply filter_In in I. destruct I as [_ T].
  destruct (strip q); [discriminate | simpl; lia].
Qed.

Lemma person_tokens_length name t :
  In t (person_tokens name) -> 3 <= length t.
Proof.
  unfold person_tokens. intros I. apply filter_In in I.
  destruct I as [_ L]. now apply Nat.ltb_lt in L.
Qed.

Lemma role_tokens_length role t : In t (role_tokens role) -> 3 <= length t.
Proof.
  unfold role_tokens. intros I. apply filter_In in I.
  destruct I as [_ L]. now apply Nat.ltb_lt in L.
Qed.

Lemma validate_org_kept content_norm v :
  kept_or_NA v (validate_org R content_norm v).
Proof.
  unfold validate_org, kept_or_NA. destruct (Str.eqb v NA); [now right|].
  destruct (keep_if_attested_spec content_norm v (org_parts v)) as [->|[-> _]];
    auto.
Qed.

Lemma validate_person_kept content_norm v :
  kept_or_NA v (validate_person R content_norm v).
Proof.
  unfold validate_person, kept_or_NA. destruct (Str.eqb v NA); [now right|].
  destruct (keep_if_attested_spec content_norm v (person_tokens v))
    as [->|[-> _]]; auto.
Qed.

Lemma validate_role_kept content_norm v :
  kept_or_NA v (validate_role R content_norm v).
Proof.
  unfold validate_role, kept_or_NA. destruct (Str.eqb v NA); [now right|].
  destruct (keep_if_attested_spec content_norm v (role_tokens v))
    as [->|[-> _]]; auto.
Qed.

Lemma validate_org_attested content v :
  attested R content org_parts 1
    (validate_org R (lower R (collapse_ws content)) v).
Proof.
  unfold validate_org, attested. destruct (Str.eqb v NA); [now left|].
  destruct (keep_if_attested_spec (lower R (collapse_ws content)) v
              (org_parts v)) as [->|[-> [p [I O]]]]; [now left|].
  right. exists p. split; [exact I|]. split; [|exact O].
  now apply org_parts_length in I.
Qed.

Lemma validate_person_attested content v :
  attested R content person_tokens 3
    (validate_person R (lower R (collapse_ws content)) v).
Proof.
  unfold validate_person, attested. destruct (Str.eqb v NA); [now left|].
  destruct (keep_if_attested_spec (lower R (collapse_ws content)) v
              (person_tokens v)) as [->|[-> [p [I O]]]]; [now left|].
  right. exists p. split; [exact I|]. split; [|exact O].
  now apply person_tokens_length in I.
Qed.

Lemma validate_role_attested content v :
  attested R content role_tokens 3
    (validate_role R (lower R (collapse_ws content)) v).
Proof.
  unfold validate_role, attested. destruct (Str.eqb v NA); [now left|].
  destruct (keep_if_attested_spec (lower R (collapse_ws content)) v
              (role_tokens v)) as [->|[-> [p [I O]]]]; [now left|].
  right. exists p. split; [exact I|]. split; [|exact O].
  now apply role_tokens_length in I.
Qed.

Lemma verbatim_of_kept data key v out :
  proposed data key = Returns v -> kept_or_NA v out -> verbatim data key out.
Proof. intros P [-> | ->]; [now right | now left]. Qed.

(** The function returns whenever every proposed value is a string or
    is false as a condition ([null], [false], [0], [""], [[]], [{}]). *)
Lemma proposed_returns items key :
  Forall (fun kv => falsy (snd kv) = true \/ exists s, snd kv = JStr s)
    items ->
  exists v, proposed (JObj items) key = Returns v.
Proof.
  intros F. unfold proposed, data_get. simpl obind.
  assert (G : falsy (dict_get items (str key) (JStr NA)) = true \/
              exists s, dict_get items (str key) (JStr NA) = JStr s).
  { induction F as [|[k v] rest H _ IH]; simpl.
    - right. now exists NA.
    - destruct (Str.eqb k (str key)); [exact H | exact IH]. }
  unfold clean. destruct G as [->|[s E]]; [now eexists|].
  rewrite E. destruct (falsy (JStr s)); now eexists.
Qed.

Lemma validate_proposal_returns content dv items :
  Forall (fun kv => falsy (snd kv) = true \/ exists s, snd kv = JStr s)
    items ->
  exists m, validate_proposal R content dv (JObj items) = Returns m.
Proof.
  intros F. unfold validate_proposal.
  destruct (proposed_returns items "investor_or_pe" F) as [v1 ->].
  destruct (proposed_returns items "buyer" F) as [v2 ->].
  destruct (proposed_returns items "seller" F) as [v3 ->].
  destruct (proposed_returns items "advisor_firm" F) as [v4 ->].
  destruct (proposed_returns items "buyer_lead_name" F) as [v5 ->].
  destruct (proposed_returns items "buyer_lead_role" F) as [v6 ->].
  destruct (proposed_returns items "investor_lead_name" F) as [v7 ->].
  destruct (proposed_returns items "investor_lead_role" F) as [v8 ->].
  destruct (proposed_returns items "seller_lead_name" F) as [v9 ->].
  destruct (proposed_returns items "seller_lead_role" F) as [v10 ->].
  cbn [obind]. now eexists.
Qed.

End ValidatorFacts.

(** C1. Attestation invariant.  Whatever the content, the proposed
    value and the answer of the service: what a validator returns, and
    so every organisation field ([investor_or_pe], [buyer], [seller],
    and [deal_advisor], which is where a validated [advisor_firm] ends
    up), every [*_lead_name] and every [*_lead_role] of the record that
    [ai_extract_deal_metadata] returns, is either ["NA"] or a value one
    of whose parts (for an organisation, not empty) or tokens (for a
    name or a role, of more than two characters) occurs, lower-cased,
    in the whitespace-collapsed, lower-cased content. *)
Theorem attestation_invariant (R : runtime) (content : pystr) :
  (forall v,
     let content_norm := lower R (collapse_ws content) in
     attested R content org_parts 1 (validate_org R content_norm v) /\
     attested R content person_tokens 3 (validate_person R content_norm v) /\
     attested R content role_tokens 3 (validate_role R content_norm v)) /\
  (forall service m,
     result service (ai_extract_deal_metadata R content) = Returns m ->
     attested R content org_parts 1 (investor_or_pe m) /\
     attested R content org_parts 1 (buyer m) /\
     attested R content org_parts 1 (seller m) /\
     attested R content org_parts 1 (deal_advisor m) /\
     attested R content person_tokens 3 (buyer_lead_name m) /\
     attested R content person_tokens 3 (investor_lead_name m) /\
     attested R content person_tokens 3 (seller_lead_name m) /\
     attested R content role_tokens 3 (buyer_lead_role m) /\
     attested R content role_tokens 3 (investor_lead_role m) /\
     attested R content role_tokens 3 (seller_lead_role m)).
Proof.
  split.
  - intros v content_norm.
    split; [apply validate_org_attested|].
    split; [apply validate_person_attested | apply validate_role_attested].
  - intros service m. destruct content as [|c rest].
    + simpl. intros [= <-]. repeat split; now left.
    + intros H. rewrite ai_extract_result in H by discriminate.
      apply validate_proposal_inv in H.
      destruct H as (i & b & s & ad & bn & br & inn & inr & sn & sr & H).
      destruct H as (_ & _ & _ & _ & _ & _ & _ & _ & _ & _ & H).
      cbv zeta in H.
      destruct H as (_ & -> & -> & -> & -> & -> & -> & -> & -> & -> & A).
      split; [apply validate_org_attested|].
      split; [apply validate_org_attested|].
      split; [apply validate_org_attested|].
      split; [destruct A as [-> | [-> | [-> | [-> | ->]]]];
              first [apply validate_org_attested | now left]|].
      split; [apply validate_person_attested|].
      split; [apply validate_person_attested|].
      split; [apply validate_person_attested|].
      split; [apply validate_role_attested|].
      split; apply validate_role_attested.
Qed.

(** A run of [attestation_invariant]: the proposal of
    [example_runtime] against a content that names the buyer and its
    chief executive but not the seller. *)
Lemma attestation_invariant_witness :
  attested example_runtime (str "Acme Corp  bought foo. Jane Doe, CEO")
    org_parts 1 (str "Acme Corp & Zed") /\
  attested example_runtime (str "Acme Corp  bought foo. Jane Doe, CEO")
    role_tokens 3 (str "Chief/ceo").
Proof.
  set (content := str "Acme Corp  bought foo. Jane Doe, CEO").
  set (m := {| deal_value := str "NA";
               deal_advisor := str "Acme Corp & Zed";
               investor_or_pe := str "NA";
               buyer := str "Acme Corp & Zed";
               seller := str "NA";
               buyer_lead_name := str "Jane Q. Doe";
               buyer_lead_role := str "Chief/ceo";
               investor_lead_name := str "NA";
               investor_lead_role := str "NA";
               seller_lead_name := str "NA";
               seller_lead_role := str "NA" |}).
  assert (H : result (fun _ => Some (str "Here it is: {} "))
                (ai_extract_deal_metadata example_runtime content)
              = Returns m) by (vm_compute; reflexivity).
  destruct (proj2 (attestation_invariant example_runtime content) _ m H)
    as (_ & B & _ & _ & _ & _ & _ & Ro & _).
  split; [exact B | exact Ro].
Defined.

(** C9. Validation is identity or sentinel.  Each of [validate_org],
    [validate_person] and [validate_role] returns the proposed value
    itself, character for character, or ["NA"].  So in a record that
    [ai_extract_deal_metadata] returns for a content that is not empty,
    every field is ["NA"] or is the cleaned value that the proposal
    holds under the key of the field ([deal_advisor]: under one of the
    four organisation keys). *)
Theorem validation_identity_or_sentinel (R : runtime) :
  (forall content_norm v,
     kept_or_NA v (validate_org R content_norm v) /\
     kept_or_NA v (validate_person R content_norm v) /\
     kept_or_NA v (validate_role R content_norm v)) /\
  (forall service content m,
     content <> [] ->
     result service (ai_extract_deal_metadata R content) = Returns m ->
     let data :=
       proposal_of R
         (service (MetadataPrompt (firstn MAX_CHARS_FOR_AI content))) in
     verbatim data "investor_or_pe" (investor_or_pe m) /\
     verbatim data "buyer" (buyer m) /\
     verbatim data "seller" (seller m) /\
     verbatim data "buyer_lead_name" (buyer_lead_name m) /\
     verbatim data "buyer_lead_role" (buyer_lead_role m) /\
     verbatim data "investor_lead_name" (investor_lead_name m) /\
     verbatim data "investor_lead_role" (investor_lead_role m) /\
     verbatim data "seller_lead_name" (seller_lead_name m) /\
     verbatim data "seller_lead_role" (seller_lead_role m) /\
     (verbatim data "investor_or_pe" (deal_advisor m) \/
      verbatim data "advisor_firm" (deal_advisor m) \/
      verbatim data "buyer" (deal_advisor m) \/
      verbatim data "seller" (deal_advisor m))).
Proof.
  split.
  - intros content_norm v.
    split; [apply validate_org_kept|].
    split; [apply validate_person_kept | apply validate_role_kept].
  - intros service content m N H data.
    rewrite ai_extract_result in H by exact N. fold data in H.
    apply validate_proposal_inv in H.
    destruct H as (i & b & s & ad & bn & br & inn & inr & sn & sr & H).
    destruct H as (Pi & Pb & Ps & Pad & Pbn & Pbr & Pinn & Pinr & Psn & Psr & H).
    cbv zeta in H.
    destruct H as (_ & -> & -> & -> & -> & -> & -> & -> & -> & -> & A).
    split; [eapply verbatim_of_kept; [exact Pi | apply validate_org_kept]|].
    split; [eapply verbatim_of_kept; [exact Pb | apply validate_org_kept]|].
    split; [eapply verbatim_of_kept; [exact Ps | apply validate_org_kept]|].
    split; [eapply verbatim_of_kept; [exact Pbn | apply validate_person_kept]|].
    split; [eapply verbatim_of_kept; [exact Pbr | apply validate_role_kept]|].
    split; [eapply verbatim_of_kept; [exact Pinn | apply validate_person_kept]|].
    split; [eapply verbatim_of_kept; [exact Pinr | apply validate_role_kept]|].
    split; [eapply verbatim_of_kept; [exact Psn | apply validate_person_kept]|].
    split; [eapply verbatim_of_kept; [exact Psr | apply validate_role_kept]|].
    destruct A as [-> | [-> | [-> | [-> | ->]]]].
    + left. eapply verbatim_of_kept; [exact Pi | apply validate_org_kept].
    + right; left.
      eapply verbatim_of_kept; [exact Pad | apply validate_org_kept].
    + right; right; left.
      eapply verbatim_of_kept; [exact Pb | apply validate_org_kept].
    + right; right; right.
      eapply verbatim_of_kept; [exact Ps | apply validate_org_kept].
    + left. now left.
Qed.

(** A run of [validation_identity_or_sentinel]: the buyer of the
    proposal of [example_runtime], cleaned, is kept as it is. *)
Lemma validation_identity_or_sentinel_witness :
  verbatim
    (proposal_of example_runtime (Some (str "Here it is: {} ")))
    "buyer" (str "Acme Corp & Zed").
Proof.
  set (content := str "Acme Corp  bought foo. Jane Doe, CEO").
  set (m := {| deal_value := str "NA";
               deal_advisor := str "Acme Corp & Zed";
               investor_or_pe := str "NA";
               buyer := str "Acme Corp & Zed";
               seller := str "NA";
               buyer_lead_name := str "Jane Q. Doe";
               buyer_lead_role := str "Chief/ceo";
               investor_lead_name := str "NA";
               investor_lead_role := str "NA";
               seller_lead_name := str "NA";
               seller_lead_role := str "NA" |}).
  assert (N : content <> []) by discriminate.
  assert (H : result (fun _ => Some (str "Here it is: {} "))
                (ai_extract_deal_metadata example_runtime content)
              = Returns m) by (vm_compute; reflexivity).
  destruct (proj2 (validation_identity_or_sentinel example_runtime)
              _ content m N H) as (_ & B & _).
  exact B.
Defined.

(* ================================================================= *)
(** ** The deal value extractor *)

Section DealValueFacts.
Context (R : runtime).
Import Re ReFacts.

(** A match of the pattern starts with a currency marker of the
    pattern, white space or none, and an ASCII digit. *)
Lemma deal_value_lang_shape m :
  lang (deal_value_re R) m ->
  exists marker blanks digit rest,
    m = marker ++ blanks ++ digit :: rest /\
    lang (alts (currency_markers R)) marker /\
    forallb is_space blanks = true /\
    in_range 48 57 digit = true.
Proof.
  unfold deal_value_re. cbn [lang].
  intros (marker & m2 & -> & Lm & blanks & m3 & -> & Lb & num & m4 & -> & Ln & _).
  unfold number_re in Ln. cbn [lang] in Ln.
  destruct Ln as (d & r & -> & (digit & -> & D) & _).
  exists marker, blanks, digit, (r ++ m4). simpl. auto.
Qed.

Lemma deal_value_search_leftmost text i group1 :
  search (match_at (deal_value_re R)) text = Some (i, group1) ->
  leftmost_deal_match R group1 text.
Proof.
  intros S. apply search_sound in S. destruct S as (Li & M & Before).
  apply match_at_sound in M. destruct M as (L & post & E).
  split; [exact L|]. exists (firstn i text), post. split.
  - now rewrite <- E, firstn_skipn.
  - intros pre' m' post' E' L'. rewrite length_firstn.
    destruct (Nat.lt_ge_cases (length pre') i) as [Lt|Ge]; [|lia].
    exfalso. specialize (Before _ Lt).
    rewrite E', skipn_app, skipn_all, Nat.sub_diag in Before. simpl in Before.
    destruct (match_at_complete (deal_value_re R) m' post' L') as [x X].
    congruence.
Qed.

(** The first character of a currency marker of the pattern. *)
Lemma marker_head marker :
  lang (alts (currency_markers R)) marker ->
  exists c rest,
    marker = c :: rest /\
    (c = 36%N \/ c = 8218%N \/ c = 172%N \/
     exists p, In p (str "UEGCIR") /\ fold_eq R p c = true).
Proof.
  unfold currency_markers, nocase. cbn [alts word str map lang
    String.list_ascii_of_string].
  intros H.
  repeat match goal with
  | H : _ \/ _ |- _ => destruct H as [H|H]
  | H : exists _, _ |- _ => destruct H as [? H]
  | H : _ /\ _ |- _ => destruct H as [? H]
  end; subst; simpl app;
    try (eexists; eexists; split; [reflexivity|]);
    first
      [ left; unfold one in *; simpl in *;
        match goal with
        | H : (?c =? 36)%N || false = true |- ?c = 36%N =>
            rewrite orb_false_r in H; now apply N.eqb_eq in H
        end
      | right; left;
        match goal with
        | H : (8218 =? ?c)%N = true |- _ => now apply N.eqb_eq in H
        end
      | right; right; left;
        match goal with
        | H : (172 =? ?c)%N = true |- _ => now apply N.eqb_eq in H
        end
      | right; right; right; eexists; split; [|eassumption]; simpl; tauto ].
Qed.

Lemma fold_eq_ascii_letter p c :
  In p (str "UEGCIR") -> is_ascii c = true -> fold_eq R p c = true ->
  is_letter c = true /\ is_space c = false /\ c <> 36%N.
Proof.
  intros I A F. unfold fold_eq in F. rewrite A, andb_true_r in F.
  assert (P : is_ascii p = true /\ (97 <= ascii_lower p <= 122)%N).
  { simpl in I.
    repeat (destruct I as [<-|I]; [split; [reflexivity | vm_compute; split; discriminate]|]).
    destruct I. }
  destruct P as [Ap [Lo Hi]]. rewrite Ap in F. apply N.eqb_eq in F.
  rewrite F in Lo, Hi. clear F I Ap p. unfold ascii_lower in Lo, Hi.
  unfold is_letter, is_space, in_range in *.
  destruct (65 <=? c)%N eqn:E1; destruct (c <=? 90)%N eqn:E2; simpl in *;
    rewrite ?N.leb_le, ?N.leb_gt in *.
  all: repeat split;
    rewrite ?orb_false_iff, ?andb_false_iff, ?orb_true_iff, ?andb_true_iff,
      ?N.leb_le, ?N.leb_gt, ?N.eqb_neq, ?N.eqb_eq; try lia.
  all: repeat split; try lia.
Qed.

Lemma sub_blanks_cons repl c s :
  is_space c = false ->
  sub (plus is_space) repl (c :: s)
  = c :: sub_aux (plus is_space) repl s 0.
Proof.
  intros H. unfold sub. simpl sub_aux. unfold match_len. simpl run.
  now rewrite H.
Qed.

(** Cleaning a match that starts with a letter or with [$] gives a
    text that starts with a letter. *)
Lemma clean_value_head c s :
  is_letter c = true \/ c = 36%N -> is_space c = false ->
  exists h rest, clean_value (c :: s) = h :: rest /\ is_letter h = true.
Proof.
  intros L Sp. unfold clean_value. cbv zeta.
  assert (Tail : forall h x, is_letter h = true -> is_space h = false ->
            exists h' rest,
              strip (sub (plus is_space) (str " ")
                       (replace (str "$") (str "USD ") (h :: x)))
              = h' :: rest /\ is_letter h' = true).
  { intros h x Lh Sh. rewrite replace_cons.
    assert (N : starts_with (str "$") (h :: x) = false).
    { change (starts_with (str "$") (h :: x)) with ((36 =? h)%N && true).
      destruct (N.eqb_spec 36 h) as [<-|_]; [discriminate Lh | reflexivity]. }
    rewrite N, sub_blanks_cons by exact Sh. unfold strip.
    rewrite strip_by_cons by exact Sh. now eexists; eexists. }
  rewrite replace_cons.
  destruct (starts_with (str "US$") (c :: s)).
  - apply (Tail 85%N); reflexivity.
  - destruct L as [L| ->]; [now apply Tail|].
    rewrite replace_cons.
    change (starts_with (str "$") (36%N :: replace_aux (str "US$") (str "USD ") s 0))
      with true. cbv iota.
    change (str "USD " ++ ?x) with (85%N :: (str "SD " ++ x)).
    rewrite sub_blanks_cons by reflexivity. unfold strip.
    rewrite strip_by_cons by reflexivity. now eexists; eexists.
Qed.

End DealValueFacts.

(** C2 as stated fails: the pattern is matched without regard to
    letter case and the match is returned in the case of the text, so
    for ["usd 5"] the result is ["usd 5"], which is not ["NA"] and
    begins with none of the listed tokens. *)
Lemma lower_case_marker_is_returned :
  extract_deal_value_from_text caseless (str "usd 5") = str "usd 5" /\
  str "usd 5" <> NA /\
  ~ exists token rest,
      In token known_currency_tokens /\ str "usd 5" = token ++ rest.
Proof.
  split; [vm_compute; reflexivity|]. split; [discriminate|].
  intros (token & rest & I & E). simpl in I.
  repeat (destruct I as [<-|I]; [discriminate E|]). exact I.
Qed.

(** The value of a Canadian dollar amount: every [$] of the match is
    replaced, also the one of [C$]. *)
Lemma canadian_dollar_value (R : runtime) :
  extract_deal_value_from_text R (str "C$3.4 billion")
  = str "CUSD 3.4 billion".
Proof. vm_compute. reflexivity. Qed.

(** C2, amended.  For every content, [extract_deal_value_from_text]
    returns ["NA"] or the cleaned form (every [US$] and [$] replaced by
    ["USD "], white space collapsed and trimmed) of the leftmost match
    of the pattern in the whitespace-collapsed content; that match
    begins with one of the currency markers of the pattern, in any
    letter case, followed by white space or none and by a numeric
    literal that starts with an ASCII digit.  When the pattern matches
    somewhere, the result is that of the leftmost match.  So a number
    is returned only behind a currency marker of the text, whose letter
    case is kept; for a content within ASCII the result begins with a
    letter, never with a digit. *)
Theorem deal_value_shape (R : runtime) (content : pystr) :
  (extract_deal_value_from_text R content = NA \/
   exists m marker blanks digit rest,
     leftmost_deal_match R m (collapse_ws content) /\
     m = marker ++ blanks ++ digit :: rest /\
     Re.lang (Re.alts (currency_markers R)) marker /\
     forallb is_space blanks = true /\
     in_range 48 57 digit = true /\
     extract_deal_value_from_text R content = clean_value (strip m)) /\
  ((exists m0,
      Re.lang (deal_value_re R) m0 /\ occurs_in m0 (collapse_ws content)) ->
   exists m,
     leftmost_deal_match R m (collapse_ws content) /\
     extract_deal_value_from_text R content = clean_value (strip m)) /\
  (forallb is_ascii content = true ->
   exists letter rest,
     extract_deal_value_from_text R content = letter :: rest /\
     is_letter letter = true).
Proof.
  assert (Shape :
    extract_deal_value_from_text R content = NA \/
    exists m marker blanks digit rest,
      leftmost_deal_match R m (collapse_ws content) /\
      m = marker ++ blanks ++ digit :: rest /\
      Re.lang (Re.alts (currency_markers R)) marker /\
      forallb is_space blanks = true /\
      in_range 48 57 digit = true /\
      extract_deal_value_from_text R content = clean_value (strip m)).
  { unfold extract_deal_value_from_text.
    destruct (truthy content); simpl negb; cbv iota; [|now left].
    cbv zeta.
    destruct (Re.search (Re.match_at (deal_value_re R)) (collapse_ws content))
      as [[i group1]|] eqn:S; [|now left].
    right. pose proof (deal_value_search_leftmost R _ _ _ S) as Lm.
    destruct (deal_value_lang_shape R group1 (proj1 Lm))
      as (marker & blanks & digit & rest & E & Mk & B & D).
    exists group1, marker, blanks, digit, rest. auto 10. }
  split; [exact Shape|]. split.
  - intros (m0 & L0 & pre & post & E0).
    unfold extract_deal_value_from_text.
    destruct (truthy content) eqn:T; simpl negb; cbv iota.
    + cbv zeta.
      destruct (Re.search (Re.match_at (deal_value_re R))
                  (collapse_ws content)) as [[i group1]|] eqn:S.
      * exists group1. split; [|reflexivity].
        now apply deal_value_search_leftmost in S.
      * exfalso. apply (ReFacts.search_none _ _ _ S pre) in E0.
        destruct (ReFacts.match_at_complete (deal_value_re R) m0 post L0)
          as [x X].
        congruence.
    + exfalso. apply truthy_false in T. subst content.
      destruct (deal_value_lang_shape R m0 L0)
        as (marker & blanks & digit & rest & -> & _).
      change (collapse_ws []) with (@nil char) in E0.
      symmetry in E0. apply app_eq_nil in E0. destruct E0 as [_ E0].
      apply app_eq_nil in E0. destruct E0 as [E0 _].
      apply app_eq_nil in E0. destruct E0 as [_ E0].
      apply app_eq_nil in E0. destruct E0 as [_ E0]. discriminate E0.
  - intros A. destruct Shape as [->|Shape].
    + now exists 78%N, [65%N].
    + destruct Shape
        as (m & marker & blanks & digit & rest & Lm & E & Mk & _ & _ & ->).
      destruct (marker_head R marker Mk) as (c & mk & -> & Hc).
      destruct Lm as (_ & pre & post & Ec).
      destruct Ec as [Ec _].
      assert (Ac : is_ascii c = true).
      { assert (I : In c (collapse_ws content)).
        { rewrite Ec, E. apply in_or_app. right. apply in_or_app. left.
          now left. }
        apply in_collapse_ws in I. destruct I as [->|I]; [reflexivity|].
        rewrite forallb_forall in A. now apply A. }
      assert (G : (is_letter c = true \/ c = 36%N) /\ is_space c = false).
      { destruct Hc as [->|[->|[->|(p & Ip & F)]]];
          [split; [now right | reflexivity] | discriminate Ac
          | discriminate Ac |].
        destruct (fold_eq_ascii_letter R p c Ip Ac F) as (L & Sp & _).
        split; [now left | exact Sp]. }
      destruct G as [G Sp]. subst m. simpl app. unfold strip.
      rewrite strip_by_cons by exact Sp.
      now apply clean_value_head.
Qed.

(** A run of [deal_value_shape] on a text within ASCII that holds an
    amount in dollars. *)
Lemma deal_value_shape_witness :
  exists letter rest,
    extract_deal_value_from_text caseless (str "paid $ 5,000 for it")
      = letter :: rest /\
    is_letter letter = true.
Proof.
  apply (proj2 (proj2 (deal_value_shape caseless
                         (str "paid $ 5,000 for it")))).
  reflexivity.
Defined.

(** C4: the code at the two inputs of the claim.  The alternatives of
    the pattern that stand for the euro and the pound sign are the
    character sequences U+201A U+00C7 U+00A8 and U+00AC U+00A3, so an
    amount written with the sign itself is not found and the result is
    ["NA"]; an amount written with those sequences is found. *)
Theorem euro_and_pound_amounts_not_found :
  extract_deal_value_from_text caseless (8364%N :: str "2.5 billion") = NA /\
  extract_deal_value_from_text caseless (163%N :: str "3 million") = NA /\
  extract_deal_value_from_text caseless
    ([8218; 199; 168]%N ++ str "2.5 billion")
  = [8218; 199; 168]%N ++ str "2.5 billion" /\
  extract_deal_value_from_text caseless ([172; 163]%N ++ str "3 million")
  = [172; 163]%N ++ str "3 million".
Proof. repeat split; vm_compute; reflexivity. Qed.

(* ================================================================= *)
(** * Further properties of the program *)

(* ================================================================= *)
(** ** White space *)

Lemma split_ws_aux_nonspace w : forall rest cur,
  forallb (fun c => negb (is_space c)) w = true ->
  split_ws_aux (w ++ rest) cur = split_ws_aux rest (rev w ++ cur).
Proof.
  induction w as [|c w IH]; intros rest cur F; simpl.
  - reflexivity.
  - simpl in F. apply andb_true_iff in F. destruct F as [C F].
    apply negb_true_iff in C. rewrite C, IH by exact F.
    now rewrite <- app_assoc.
Qed.

Lemma split_ws_aux_words s : forall cur,
  forallb (fun c => negb (is_space c)) cur = true ->
  Forall is_word (split_ws_aux s cur).
Proof.
  assert (W : forall cur, cur <> [] ->
            forallb (fun c => negb (is_space c)) cur = true ->
            is_word (rev cur)).
  { intros cur N F. split.
    - intros E. apply N. now rewrite <- (rev_involutive cur), E.
    - rewrite forallb_forall in *. intros x I. apply F. now apply in_rev. }
  induction s as [|c s IH]; intros cur F; simpl.
  - destruct cur as [|d cur]; [constructor|].
    constructor; [|constructor]. now apply W.
  - destruct (is_space c) eqn:C.
    + destruct cur as [|d cur]; [now apply IH|].
      constructor; [now apply W | now apply IH].
    + apply IH. simpl. now rewrite C, F.
Qed.

(** The words of a text: [s.split()] gives words. *)
Lemma split_ws_words s : Forall is_word (split_ws s).
Proof. now apply split_ws_aux_words. Qed.

(** Joining words with a blank and splitting again gives the words. *)
Lemma split_ws_join ws :
  Forall is_word ws -> split_ws (join (str " ") ws) = ws.
Proof.
  unfold split_ws. induction 1 as [|w ws [N F] _ IH]; [reflexivity|].
  destruct ws as [|w2 ws].
  - simpl join. rewrite <- (app_nil_r w) at 1.
    rewrite split_ws_aux_nonspace by exact F. simpl.
    rewrite app_nil_r. destruct (rev w) eqn:E.
    + exfalso. apply N. now rewrite <- (rev_involutive w), E.
    + now rewrite <- E, rev_involutive.
  - change (join (str " ") (w :: w2 :: ws))
      with (w ++ 32%N :: join (str " ") (w2 :: ws)).
    rewrite split_ws_aux_nonspace by exact F. rewrite app_nil_r.
    change (split_ws_aux (32%N :: ?x) ?c)
      with (match c with
            | [] => split_ws_aux x []
            | _ => rev c :: split_ws_aux x []
            end).
    destruct (rev w) eqn:E.
    + exfalso. apply N. now rewrite <- (rev_involutive w), E.
    + rewrite <- E, rev_involutive. now rewrite IH.
Qed.

Lemma single_spaced_word_app w s :
  forallb (fun c => negb (is_space c)) w = true ->
  single_spaced s -> single_spaced (w ++ s).
Proof.
  induction w as [|c w IH]; intros F S; [exact S|].
  simpl in F. apply andb_true_iff in F. destruct F as [C F].
  apply negb_true_iff in C. simpl. split; [congruence | now apply IH].
Qed.

Lemma join_words_tidy ws :
  Forall is_word ws ->
  single_spaced (join (str " ") ws) /\ starts_clean (join (str " ") ws).
Proof.
  induction 1 as [|w ws [N F] Hws IH]; [now split|].
  assert (Hd : forall x, starts_clean (w ++ x)).
  { intros x. destruct w as [|c w]; [now elim N|]. simpl in *.
    apply andb_true_iff in F. now apply negb_true_iff, F. }
  destruct ws as [|w2 ws].
  - simpl join. split; [|now rewrite <- (app_nil_r w)].
    rewrite <- (app_nil_r w). now apply single_spaced_word_app.
  - change (join (str " ") (w :: w2 :: ws))
      with (w ++ 32%N :: join (str " ") (w2 :: ws)).
    split; [|apply Hd]. apply single_spaced_word_app; [exact F|].
    destruct IH as [S C].
    assert (Nj : join (str " ") (w2 :: ws) <> []).
    { inversion Hws as [|? ? [N2 _] _]; subst.
      destruct w2; [now elim N2|]. destruct ws; discriminate. }
    destruct (join (str " ") (w2 :: ws)) as [|d j]; [now elim Nj|].
    split; [|exact S]. intros _. split; [reflexivity | exact C].
Qed.

Lemma collapse_ws_tidy s :
  starts_clean (collapse_ws s) /\ single_spaced (collapse_ws s).
Proof.
  destruct (join_words_tidy _ (split_ws_words s)) as [S C]. now split.
Qed.

(** X1. The text [" ".join(s.split())], which every extractor works
    on: it does not begin with white space, all its white space is
    single blanks, each followed by a character that is not white space
    (so it does not end with one either); it has the words of [s], and
    collapsing it again changes nothing. *)
Theorem collapse_ws_normal_form (s : pystr) :
  starts_clean (collapse_ws s) /\
  single_spaced (collapse_ws s) /\
  split_ws (collapse_ws s) = split_ws s /\
  collapse_ws (collapse_ws s) = collapse_ws s.
Proof.
  pose proof (split_ws_words s) as W.
  destruct (join_words_tidy _ W) as [S C].
  assert (E : split_ws (collapse_ws s) = split_ws s)
    by now apply split_ws_join.
  repeat split; try assumption. unfold collapse_ws at 1. now rewrite E.
Qed.

Lemma single_spaced_suffix a b : single_spaced (a ++ b) -> single_spaced b.
Proof.
  induction a as [|c a IH]; [auto|]. simpl. intros [_ S]. now apply IH.
Qed.

Lemma lstrip_by_suffix p s : suffix_of (lstrip_by p s) s.
Proof.
  induction s as [|c s [pre IH]]; simpl.
  - now exists [].
  - destruct (p c).
    + exists (c :: pre). simpl. now f_equal.
    + now exists [].
Qed.

Lemma lstrip_starts_clean s : starts_clean (lstrip_by is_space s).
Proof.
  induction s as [|c s IH]; simpl; [exact I|].
  destruct (is_space c) eqn:C; [exact IH | exact C].
Qed.

Lemma lstrip_by_clean s :
  starts_clean s -> lstrip_by is_space s = s.
Proof. destruct s as [|c s]; simpl; [reflexivity|]. now intros ->. Qed.

Lemma rstrip_by_prefix p s : prefix_of (rstrip_by p s) s.
Proof.
  unfold rstrip_by. destruct (lstrip_by_suffix p (rev s)) as [pre E].
  exists (rev pre). rewrite <- rev_app_distr, <- E. now rewrite rev_involutive.
Qed.

Lemma rstrip_by_snoc p a c :
  p c = false -> rstrip_by p (a ++ [c]) = a ++ [c].
Proof.
  intros H. unfold rstrip_by. rewrite rev_app_distr. simpl. rewrite H.
  simpl. now rewrite rev_involutive.
Qed.

Lemma single_spaced_last s :
  single_spaced s -> s <> [] ->
  exists a c, s = a ++ [c] /\ is_space c = false.
Proof.
  induction s as [|c s IH]; [congruence|]. intros [H S] _.
  destruct s as [|d s].
  - exists [], c. split; [reflexivity|].
    destruct (is_space c); [|reflexivity]. now destruct H.
  - destruct (IH S) as [a [e [E Ne]]]; [discriminate|].
    exists (c :: a), e. rewrite E. now split.
Qed.

Lemma single_spaced_rstrip s :
  single_spaced s -> rstrip_by is_space s = s.
Proof.
  intros S. destruct s as [|c s]; [reflexivity|].
  destruct (single_spaced_last _ S) as [a [e [-> Ne]]]; [discriminate|].
  now apply rstrip_by_snoc.
Qed.

(** Stripping a text that is single-spaced only takes white space off
    its beginning. *)
Lemma strip_single_spaced s :
  single_spaced s ->
  strip s = lstrip_by is_space s /\
  suffix_of (strip s) s /\ single_spaced (strip s) /\ starts_clean (strip s).
Proof.
  intros S. destruct (lstrip_by_suffix is_space s) as [pre E].
  assert (S' : single_spaced (lstrip_by is_space s)).
  { apply (single_spaced_suffix pre). now rewrite <- E. }
  assert (Es : strip s = lstrip_by is_space s)
    by (unfold strip, strip_by; now apply single_spaced_rstrip).
  rewrite Es. repeat split; auto.
  - now exists pre.
  - apply lstrip_starts_clean.
Qed.

Lemma suffix_of_skipn n (s : pystr) : suffix_of (skipn n s) s.
Proof. exists (firstn n s). now rewrite firstn_skipn. Qed.

Lemma suffix_of_trans (a b c : pystr) :
  suffix_of a b -> suffix_of b c -> suffix_of a c.
Proof.
  intros [p ->] [q ->]. exists (q ++ p). now rewrite app_assoc.
Qed.

Lemma single_spaced_of_suffix a s :
  suffix_of a s -> single_spaced s -> single_spaced a.
Proof. intros [pre ->]. apply single_spaced_suffix. Qed.

Lemma find_dashes_after_marker post :
  find (str "--") (str "/PRNewswire" ++ post)
  = option_map (Nat.add 11) (find (str "--") post).
Proof.
  change (str "/PRNewswire" ++ post)
    with (47 :: 80 :: 82 :: 78 :: 101 :: 119 :: 115 :: 119 :: 105 :: 114
          :: 101 :: post)%N.
  change (str "--") with [45; 45]%N. simpl.
  destruct (find [45; 45]%N post); reflexivity.
Qed.

(** X2. [strip_prnewswire_boilerplate] only cuts from the front: its
    result is an end of the whitespace-collapsed content, single-spaced
    and without white space at its beginning.  Without the marker
    ["/PRNewswire"] it is the whole collapsed content; with it, the
    first occurrence of the marker and all that precedes it are gone. *)
Theorem boilerplate_is_cut_from_the_front (content : pystr) :
  suffix_of (strip_prnewswire_boilerplate content) (collapse_ws content) /\
  starts_clean (strip_prnewswire_boilerplate content) /\
  single_spaced (strip_prnewswire_boilerplate content) /\
  (~ occurs_in (str "/PRNewswire") (collapse_ws content) ->
   strip_prnewswire_boilerplate content = collapse_ws content) /\
  (occurs_in (str "/PRNewswire") (collapse_ws content) ->
   exists pre rest,
     collapse_ws content = pre ++ str "/PRNewswire" ++ rest /\
     find (str "/PRNewswire") (collapse_ws content) = Some (length pre) /\
     suffix_of (strip_prnewswire_boilerplate content) rest).
Proof.
  destruct (collapse_ws_tidy content) as [C S].
  unfold strip_prnewswire_boilerplate. cbv zeta.
  set (text := collapse_ws content) in *.
  destruct (find (str "/PRNewswire") text) as [idx|] eqn:F.
  - destruct (find_some _ _ _ F) as [rest [E L]].
    assert (T : text = firstn idx text ++ str "/PRNewswire" ++ rest)
      by now rewrite <- E, firstn_skipn.
    assert (Li : length (firstn idx text) = idx)
      by (rewrite length_firstn; lia).
    assert (R : skipn (idx + length (str "/PRNewswire")) text = rest).
    { rewrite Nat.add_comm, <- skipn_skipn, E.
      change (length (str "/PRNewswire")) with 11. reflexivity. }
    assert (G : forall k, idx + 11 <= k ->
              suffix_of (strip (skipn k text)) text /\
              starts_clean (strip (skipn k text)) /\
              single_spaced (strip (skipn k text)) /\
              suffix_of (strip (skipn k text)) rest).
    { intros k Hk.
      assert (Sk : single_spaced (skipn k text))
        by (eapply single_spaced_of_suffix; [apply suffix_of_skipn | exact S]).
      destruct (strip_single_spaced _ Sk) as (_ & Su & Ss & Sc).
      repeat split; auto.
      - eapply suffix_of_trans; [exact Su | apply suffix_of_skipn].
      - eapply suffix_of_trans; [exact Su|]. rewrite <- R.
        change (length (str "/PRNewswire")) with 11.
        replace k with ((k - (idx + 11)) + (idx + 11)) by lia.
        rewrite <- skipn_skipn. apply suffix_of_skipn. }
    assert (D : match find_from (str "--") text idx with
                | Some dash_idx => idx + 11 <= dash_idx + 2
                | None => True
                end).
    { unfold find_from. rewrite E, find_dashes_after_marker.
      destruct (find (str "--") rest); simpl; [lia | exact I]. }
    destruct (find_from (str "--") text idx) as [dash_idx|].
    + destruct (G (dash_idx + 2) D) as (G1 & G2 & G3 & G4).
      repeat split; auto.
      * intros N. exfalso. apply N. now exists (firstn idx text), rest.
      * intros _. exists (firstn idx text), rest. rewrite Li. auto.
    + destruct (G (idx + length (str "/PRNewswire"))) as (G1 & G2 & G3 & G4);
        [change (length (str "/PRNewswire")) with 11; lia|].
      repeat split; auto.
      * intros N. exfalso. apply N. now exists (firstn idx text), rest.
      * intros _. exists (firstn idx text), rest. rewrite Li. auto.
  - repeat split; auto.
    + now exists [].
    + intros [pre [post E]]. exfalso. now apply (find_none _ _ pre post) in F.
Qed.

(** A run of [boilerplate_is_cut_from_the_front] on a release with the
    marker. *)
Lemma boilerplate_is_cut_from_the_front_witness :
  exists pre rest,
    collapse_ws (str "NEW YORK  /PRNewswire/ -- Acme bought Foo.")
      = pre ++ str "/PRNewswire" ++ rest /\
    find (str "/PRNewswire")
      (collapse_ws (str "NEW YORK  /PRNewswire/ -- Acme bought Foo."))
      = Some (length pre) /\
    suffix_of
      (strip_prnewswire_boilerplate
         (str "NEW YORK  /PRNewswire/ -- Acme bought Foo."))
      rest.
Proof.
  apply (boilerplate_is_cut_from_the_front
           (str "NEW YORK  /PRNewswire/ -- Acme bought Foo.")).
  exists (str "NEW YORK "), (str "/ -- Acme bought Foo."). reflexivity.
Defined.

(* ================================================================= *)
(** ** The deterministic summary keeps to the text *)

Lemma prefix_of_refl (s : pystr) : prefix_of s s.
Proof. exists []. now rewrite app_nil_r. Qed.

Lemma prefix_of_trans (a b c : pystr) :
  prefix_of a b -> prefix_of b c -> prefix_of a c.
Proof. intros [p ->] [q ->]. exists (p ++ q). now rewrite app_assoc. Qed.

Lemma prefix_of_firstn n (s : pystr) : prefix_of (firstn n s) s.
Proof. exists (skipn n s). now rewrite firstn_skipn. Qed.

Lemma prefix_starts_clean p s :
  prefix_of p s -> starts_clean s -> starts_clean p.
Proof. intros [post ->]. now destruct p. Qed.

Lemma strip_prefix_of_clean s : starts_clean s -> prefix_of (strip s) s.
Proof.
  destruct s as [|c s]; [intros _; apply prefix_of_refl|].
  simpl. intros C. unfold strip. rewrite strip_by_cons by exact C.
  destruct (rstrip_by_prefix is_space s) as [post E].
  exists post. simpl. now rewrite <- E.
Qed.

Lemma split_aux_not_nil m : forall s prev skip cur,
  Re.split_aux m prev s skip cur <> [].
Proof.
  induction s as [|c s IH]; intros prev skip cur; simpl.
  - destruct skip; [|discriminate].
    destruct (m prev []) as [[|n]|]; discriminate.
  - destruct skip; [|apply IH].
    destruct (m prev (c :: s)) as [[|n]|]; try apply IH. discriminate.
Qed.

Lemma join_cons sep x (L : list pystr) :
  L <> [] -> join sep (x :: L) = x ++ sep ++ join sep L.
Proof. destruct L; [congruence | reflexivity]. Qed.

Lemma join_firstn_prefix sep n : forall L,
  prefix_of (join sep (firstn n L)) (join sep L).
Proof.
  induction n as [|n IH]; intros L; [now exists (join sep L)|].
  destruct L as [|x L]; [apply prefix_of_refl|].
  destruct L as [|y L].
  - destruct n; apply prefix_of_refl.
  - destruct n as [|n'].
    + simpl firstn. exists (sep ++ join sep (y :: L)). reflexivity.
    + rewrite (join_cons sep x (y :: L)) by discriminate.
      change (firstn (S (S n')) (x :: y :: L))
        with (x :: firstn (S n') (y :: L)).
      rewrite join_cons by discriminate.
      destruct (IH (y :: L)) as [post E]. exists post.
      rewrite E. now rewrite <- !app_assoc.
Qed.

Lemma sentence_break_nil prev : sentence_break prev [] = None.
Proof.
  unfold sentence_break. destruct prev as [c|]; [|reflexivity].
  destruct (Re.cls ".!?" c); reflexivity.
Qed.

Lemma sentence_break_nonspace prev c s :
  is_space c = false -> sentence_break prev (c :: s) = None.
Proof.
  intros C. unfold sentence_break. destruct prev as [d|]; [|reflexivity].
  destruct (Re.cls ".!?" d); [|reflexivity].
  unfold Re.match_len. simpl. now rewrite C.
Qed.

Lemma sentence_break_length prev c s n :
  sentence_break prev (c :: s) = Some n ->
  is_space c = true /\
  match s with
  | d :: _ => is_space d = false -> n = 1
  | [] => n = 1
  end.
Proof.
  unfold sentence_break. destruct prev as [e|]; [|discriminate].
  destruct (Re.cls ".!?" e); [|discriminate].
  unfold Re.match_len. cbn [Re.run Re.plus].
  destruct (is_space c); [|discriminate]. intros H. split; [reflexivity|].
  destruct s as [|d s]; cbn [Re.many] in H.
  - injection H as <-. reflexivity.
  - intros D. rewrite D in H. injection H as <-.
    destruct (length s); lia.
Qed.

(** On a single-spaced text every sentence break is one blank, so
    joining the sentences with a blank gives the text back. *)
Lemma sentence_split_join s : single_spaced s -> forall prev cur,
  join (str " ") (Re.split_aux sentence_break prev s 0 cur) = rev cur ++ s.
Proof.
  induction s as [|c s IH]; intros S prev cur.
  - simpl. rewrite sentence_break_nil. simpl. now rewrite app_nil_r.
  - destruct S as [H S].
    change (Re.split_aux sentence_break prev (c :: s) 0 cur)
      with (match sentence_break prev (c :: s) with
            | Some (S n) =>
                rev cur :: Re.split_aux sentence_break (Some c) s n []
            | _ => Re.split_aux sentence_break (Some c) s 0 (c :: cur)
            end).
    assert (Keep : join (str " ")
                     (Re.split_aux sentence_break (Some c) s 0 (c :: cur))
                   = rev cur ++ c :: s).
    { rewrite IH by exact S. simpl. now rewrite <- app_assoc. }
    destruct (sentence_break prev (c :: s)) as [[|n]|] eqn:B;
      [exact Keep | | exact Keep].
    apply sentence_break_length in B. destruct B as [C B].
    destruct (H C) as [-> D]. destruct s as [|d s]; [now elim D|].
    specialize (B D). injection B as ->.
    rewrite join_cons by apply split_aux_not_nil.
    rewrite IH by exact S. reflexivity.
Qed.

Lemma first_two_sentences_prefix content :
  prefix_of (first_two_sentences content)
    (strip_prnewswire_boilerplate content).
Proof.
  unfold first_two_sentences.
  set (core := strip_prnewswire_boilerplate content).
  assert (C : starts_clean core /\ single_spaced core).
  { destruct (collapse_ws_tidy content) as [C S].
    unfold core, strip_prnewswire_boilerplate. cbv zeta.
    destruct (find (str "/PRNewswire") (collapse_ws content)) as [idx|];
      [|now split].
    assert (G : forall k,
              starts_clean (strip (skipn k (collapse_ws content))) /\
              single_spaced (strip (skipn k (collapse_ws content)))).
    { intros k.
      assert (Sk : single_spaced (skipn k (collapse_ws content)))
        by (eapply single_spaced_of_suffix; [apply suffix_of_skipn | exact S]).
      destruct (strip_single_spaced _ Sk) as (_ & _ & Ss & Sc). now split. }
    destruct (find_from (str "--") (collapse_ws content) idx); apply G. }
  destruct C as [C S].
  assert (J : prefix_of
                (join (str " ")
                   (firstn 2 (Re.split_by sentence_break core))) core).
  { pose proof (join_firstn_prefix (str " ") 2
                  (Re.split_by sentence_break core)) as P.
    unfold Re.split_by in *.
    now rewrite (sentence_split_join core S None []) in P. }
  eapply prefix_of_trans; [|exact J].
  apply strip_prefix_of_clean. eapply prefix_starts_clean; [exact J | exact C].
Qed.

(** X3. The deterministic summary keeps to the text of the release:
    for every content and every limit, [simple_summary] returns a
    beginning of the text that [strip_prnewswire_boilerplate] leaves,
    as it is or followed by ["..."]; that beginning is a piece of the
    whitespace-collapsed content. *)
Theorem simple_summary_keeps_to_the_text (content : pystr)
  (max_chars : nat) :
  exists kept,
    prefix_of kept (strip_prnewswire_boilerplate content) /\
    occurs_in kept (collapse_ws content) /\
    (simple_summary content max_chars = kept \/
     simple_summary content max_chars = kept ++ str "...").
Proof.
  assert (Occ : forall kept,
            prefix_of kept (strip_prnewswire_boilerplate content) ->
            occurs_in kept (collapse_ws content)).
  { intros kept [post E].
    assert (Su : suffix_of (strip_prnewswire_boilerplate content)
                   (collapse_ws content)).
    { destruct (collapse_ws_tidy content) as [_ S].
      unfold strip_prnewswire_boilerplate. cbv zeta.
      destruct (find (str "/PRNewswire") (collapse_ws content)) as [idx|];
        [|now exists []].
      assert (G : forall k,
                suffix_of (strip (skipn k (collapse_ws content)))
                  (collapse_ws content)).
      { intros k.
        assert (Sk : single_spaced (skipn k (collapse_ws content)))
          by (eapply single_spaced_of_suffix;
              [apply suffix_of_skipn | exact S]).
        destruct (strip_single_spaced _ Sk) as (_ & Su & _).
        eapply suffix_of_trans; [exact Su | apply suffix_of_skipn]. }
      destruct (find_from (str "--") (collapse_ws content) idx); apply G. }
    destruct Su as [pre Ep]. exists pre, post. now rewrite Ep, E. }
  pose proof (first_two_sentences_prefix content) as P.
  rewrite simple_summary_unfold. cbv zeta.
  destruct (negb (truthy (strip_prnewswire_boilerplate content))).
  - exists []. split; [now eexists|]. split; [|now left].
    apply Occ. now eexists.
  - destruct (max_chars <? length (first_two_sentences content)).
    + set (short := firstn max_chars (first_two_sentences content)).
      assert (Ps : prefix_of short (strip_prnewswire_boilerplate content)).
      { eapply prefix_of_trans; [apply prefix_of_firstn | exact P]. }
      destruct (rfind_char 32%N short) as [last|].
      * destruct (0 <? last).
        -- exists (firstn last short).
           assert (Pl : prefix_of (firstn last short)
                          (strip_prnewswire_boilerplate content))
             by (eapply prefix_of_trans; [apply prefix_of_firstn | exact Ps]).
           split; [exact Pl|]. split; [now apply Occ | now right].
        -- exists short. split; [exact Ps|]. split; [now apply Occ | now right].
      * exists short. split; [exact Ps|]. split; [now apply Occ | now right].
    + exists (first_two_sentences content).
      split; [exact P|]. split; [now apply Occ | now left].
Qed.

(* ================================================================= *)
(** ** The deal value: what the cleaning leaves *)

Lemma in_strip_by p c s : In c (strip_by p s) -> In c s.
Proof.
  unfold strip_by. intros H.
  destruct (rstrip_by_prefix p (lstrip_by p s)) as [post E].
  destruct (lstrip_by_suffix p s) as [pre E'].
  rewrite E', E. apply in_or_app. right. apply in_or_app. now left.
Qed.

Lemma in_replace_aux old new c : forall s skip,
  In c (replace_aux old new s skip) -> In c new \/ In c s.
Proof.
  induction s as [|d s IH]; intros skip; simpl.
  - destruct skip; intros [].
  - destruct skip as [|n].
    + destruct (starts_with old (d :: s)).
      * intros H. apply in_app_or in H. destruct H as [H|H]; [now left|].
        destruct (IH _ H); auto.
      * intros [->|H]; [now right; left|]. destruct (IH _ H); auto.
    + intros H. destruct (IH _ H); auto.
Qed.

(** Replacing a character leaves none of it, when the replacement has
    none. *)
Lemma replace_char_gone d new : ~ In d new -> forall s,
  ~ In d (replace [d] new s).
Proof.
  intros N. unfold replace. induction s as [|c s IH]; simpl; [auto|].
  destruct (N.eqb_spec d c) as [E|E]; simpl.
  - intros H. apply in_app_or in H. destruct H as [H|H]; auto.
  - intros [H|H]; [now apply E | auto].
Qed.

Lemma many_answer (A : Type) p (f : pystr -> A) : forall s,
  exists s', suffix_of s' s /\
             Re.many p s (fun x => Some (f x)) = Some (f s').
Proof.
  induction s as [|c s [s' [[pre E] IH]]]; simpl.
  - exists []. split; [now exists []|reflexivity].
  - destruct (p c).
    + rewrite IH. exists s'. split; [|reflexivity].
      exists (c :: pre). simpl. now f_equal.
    + exists (c :: s). split; [now exists []|reflexivity].
Qed.

(** The pattern [\s+] matches at every white space character. *)
Lemma match_len_blanks c s :
  is_space c = true ->
  exists n, Re.match_len (Re.plus is_space) (c :: s) = Some (S n).
Proof.
  intros C. unfold Re.match_len. cbn [Re.run Re.plus]. rewrite C.
  destruct (many_answer nat is_space
              (fun x => length (c :: s) - length x) s)
    as [s' [[pre E] ->]].
  exists (length pre). f_equal. rewrite E. cbn [length].
  rewrite length_app. lia.
Qed.

Lemma in_sub_blanks repl c : forall s skip,
  In c (Re.sub_aux (Re.plus is_space) repl s skip) ->
  In c repl \/ (In c s /\ is_space c = false).
Proof.
  induction s as [|d s IH]; intros skip.
  - destruct skip; simpl.
    + unfold Re.match_len. simpl. intros [].
    + intros [].
  - destruct skip as [|n].
    + change (Re.sub_aux (Re.plus is_space) repl (d :: s) 0)
        with (match Re.match_len (Re.plus is_space) (d :: s) with
              | Some (S n) =>
                  repl ++ Re.sub_aux (Re.plus is_space) repl s n
              | _ => d :: Re.sub_aux (Re.plus is_space) repl s 0
              end).
      destruct (is_space d) eqn:D.
      * destruct (match_len_blanks d s D) as [n ->]. intros H.
        apply in_app_or in H. destruct H as [H|H]; [now left|].
        destruct (IH _ H) as [I|[I E]];
          [now left | right; split; [now right | exact E]].
      * assert (M : Re.match_len (Re.plus is_space) (d :: s) = None)
          by (unfold Re.match_len; simpl; now rewrite D).
        rewrite M. intros [->|H]; [right; split; [now left | exact D]|].
        destruct (IH _ H) as [I|[I E]];
          [now left | right; split; [now right | exact E]].
    + simpl. intros H. destruct (IH _ H) as [I|[I E]];
          [now left | right; split; [now right | exact E]].
Qed.

(** X4. What [extract_deal_value_from_text] returns holds no dollar
    sign, every one having been replaced by ["USD "], and no white
    space other than the blank. *)
Theorem deal_value_is_cleaned (R : runtime) (content : pystr) :
  ~ In 36%N (extract_deal_value_from_text R content) /\
  (forall c, In c (extract_deal_value_from_text R content) ->
             is_space c = true -> c = 32%N).
Proof.
  assert (Na : ~ In 36%N NA /\
               (forall c, In c NA -> is_space c = true -> c = 32%N)).
  { split.
    - intros [H|[H|[]]]; discriminate H.
    - intros c [<-|[<-|[]]] H; discriminate H. }
  unfold extract_deal_value_from_text.
  destruct (negb (truthy content)); [exact Na|]. cbv zeta.
  destruct (Re.search (Re.match_at (deal_value_re R)) (collapse_ws content))
    as [[i group1]|]; [|exact Na].
  unfold clean_value. cbv zeta. split.
  - intros H. apply in_strip_by in H. apply in_sub_blanks in H.
    destruct H as [[H|[]]|[H _]]; [discriminate H|].
    revert H. apply replace_char_gone.
    intros [H|[H|[H|[H|[]]]]]; discriminate H.
  - intros c H Sp. apply in_strip_by in H. apply in_sub_blanks in H.
    destruct H as [[H|[]]|[_ H]]; [now symmetry | congruence].
Qed.

(** X5. Without an ASCII digit in the content there is no deal value:
    [extract_deal_value_from_text] returns ["NA"]. *)
Theorem no_digit_no_deal_value (R : runtime) (content : pystr) :
  (forall c, In c content -> in_range 48 57 c = false) ->
  extract_deal_value_from_text R content = NA.
Proof.
  intros H. unfold extract_deal_value_from_text.
  destruct (negb (truthy content)); [reflexivity|]. cbv zeta.
  destruct (Re.search (Re.match_at (deal_value_re R)) (collapse_ws content))
    as [[i group1]|] eqn:S; [|reflexivity].
  exfalso. apply deal_value_search_leftmost in S.
  destruct S as [L [pre [post [E _]]]].
  destruct (deal_value_lang_shape R group1 L)
    as (marker & blanks & digit & rest & -> & _ & _ & D).
  assert (I : In digit (collapse_ws content)).
  { rewrite E. apply in_or_app. right. apply in_or_app. left.
    apply in_or_app. right. apply in_or_app. right. now left. }
  apply in_collapse_ws in I. destruct I as [->|I]; [discriminate D|].
  rewrite (H _ I) in D. discriminate D.
Qed.

(** A run of [no_digit_no_deal_value]. *)
Lemma no_digit_no_deal_value_witness :
  extract_deal_value_from_text caseless
    (str "Acme paid USD millions, EUR more") = NA.
Proof.
  apply no_digit_no_deal_value. intros c I. simpl in I.
  repeat (destruct I as [<-|I]; [reflexivity|]). destruct I.
Defined.

(* ================================================================= *)
(** ** The metadata: failure of the service, exceptions, priority *)

Lemma strip_by_occurs p s : occurs_in (strip_by p s) s.
Proof.
  unfold strip_by.
  destruct (rstrip_by_prefix p (lstrip_by p s)) as [post E].
  destruct (lstrip_by_suffix p s) as [pre E'].
  exists pre, post. now rewrite <- E.
Qed.

Lemma occurs_in_trans (a b c : pystr) :
  occurs_in a b -> occurs_in b c -> occurs_in a c.
Proof.
  intros [p [q ->]] [p' [q' ->]]. exists (p' ++ p), (q ++ q').
  now rewrite <- !app_assoc.
Qed.

Lemma occurs_in_In (c : char) (a b : pystr) :
  occurs_in a b -> In c a -> In c b.
Proof.
  intros [p [q ->]] I. apply in_or_app. right. apply in_or_app. now left.
Qed.

(** The text that the pattern [\{.*\}] matches goes from a [{] to a
    [}]. *)
Lemma braces_match_shape s m :
  Re.match_at
    (Re.Seq (Re.Chr (Re.one "{"))
       (Re.Seq (Re.Many (fun _ => true)) (Re.Chr (Re.one "}")))) s = Some m ->
  In 123%N m /\ In 125%N m /\ occurs_in m s.
Proof.
  intros H. apply ReFacts.match_at_sound in H. destruct H as [L [s' E]].
  cbn [Re.lang] in L.
  destruct L as (m1 & m2 & -> & (c1 & -> & C1) & m3 & m4 & -> & _ &
                 (c2 & -> & C2)).
  unfold Re.one in C1, C2. simpl in C1, C2.
  rewrite orb_false_r in C1, C2. apply N.eqb_eq in C1, C2. subst.
  split; [simpl; now left|]. split.
  - simpl. right. apply in_or_app. right. now left.
  - exists [], s'. reflexivity.
Qed.

(** When the service fails, answers without a pair of braces, or with
    a text in which the parser finds no JSON, the proposal is [{}]. *)
Lemma proposal_of_nothing R ans :
  ans = None \/
  (exists response,
     ans = Some response /\
     (~ In 123%N response \/ ~ In 125%N response \/
      forall t, occurs_in t response -> json_loads R t = None)) ->
  proposal_of R ans = JObj [].
Proof.
  intros [->|[response [-> H]]]; [reflexivity|].
  unfold proposal_of. cbv zeta.
  destruct (Re.search _ (strip response)) as [[i group0]|] eqn:S;
    [|reflexivity].
  apply ReFacts.search_sound in S. destruct S as (_ & M & _).
  apply braces_match_shape in M. destruct M as (I1 & I2 & O).
  assert (Or : occurs_in group0 response).
  { eapply occurs_in_trans; [exact O|].
    eapply occurs_in_trans; [|apply (strip_by_occurs is_space)].
    exists (firstn i (strip response)), []. rewrite app_nil_r.
    now rewrite firstn_skipn. }
  destruct H as [H|[H|H]].
  - exfalso. apply H. now apply (occurs_in_In _ _ _ Or).
  - exfalso. apply H. now apply (occurs_in_In _ _ _ Or).
  - now rewrite (H _ Or).
Qed.

(** X6. When nothing comes back from the service (the call fails, the
    answer holds no [{] or no [}], or the parser raises on every piece
    of it), [ai_extract_deal_metadata] still returns: the deal value
    found in the text and ["NA"] in the ten other fields. *)
Theorem metadata_without_proposal (R : runtime)
  (service : request -> option pystr) (content : pystr) :
  content <> [] ->
  service (MetadataPrompt (firstn MAX_CHARS_FOR_AI content)) = None \/
  (exists response,
     service (MetadataPrompt (firstn MAX_CHARS_FOR_AI content))
       = Some response /\
     (~ In 123%N response \/ ~ In 125%N response \/
      forall t, occurs_in t response -> json_loads R t = None)) ->
  result service (ai_extract_deal_metadata R content)
  = Returns {| deal_value := extract_deal_value_from_text R content;
               deal_advisor := str "NA"; investor_or_pe := str "NA";
               buyer := str "NA"; seller := str "NA";
               buyer_lead_name := str "NA"; buyer_lead_role := str "NA";
               investor_lead_name := str "NA";
               investor_lead_role := str "NA";
               seller_lead_name := str "NA";
               seller_lead_role := str "NA" |}.
Proof.
  intros N H. rewrite ai_extract_result by exact N.
  rewrite (proposal_of_nothing R _ H). reflexivity.
Qed.

(** A run of [metadata_without_proposal]: the service answers with
    prose only. *)
Lemma metadata_without_proposal_witness :
  result (fun _ => Some (str "I cannot tell."))
    (ai_extract_deal_metadata caseless (str "Acme paid $5m for Foo."))
  = Returns {| deal_value := str "USD 5m";
               deal_advisor := str "NA"; investor_or_pe := str "NA";
               buyer := str "NA"; seller := str "NA";
               buyer_lead_name := str "NA"; buyer_lead_role := str "NA";
               investor_lead_name := str "NA";
               investor_lead_role := str "NA";
               seller_lead_name := str "NA";
               seller_lead_role := str "NA" |}.
Proof.
  apply (metadata_without_proposal caseless
           (fun _ => Some (str "I cannot tell."))
           (str "Acme paid $5m for Foo.")).
  - discriminate.
  - right. exists (str "I cannot tell."). split; [reflexivity|].
    left. simpl. intuition discriminate.
Defined.

Lemma clean_returns_iff val :
  (exists v, clean val = Returns v) <-> cleanable val.
Proof.
  unfold clean, cleanable. split.
  - intros [v H]. destruct (falsy val); [now left|].
    destruct val; try discriminate H. right. now eexists.
  - intros [->|[s ->]]; [now eexists|].
    destruct (falsy (JStr s)); now eexists.
Qed.

Lemma clean_raises val e : clean val = Raises e -> e = AttributeError.
Proof.
  unfold clean. destruct (falsy val); [discriminate|].
  destruct val; intros H; try discriminate H; now injection H.
Qed.

Lemma proposed_returns_iff data key :
  (exists v, proposed data key = Returns v) <->
  exists items,
    data = JObj items /\ cleanable (dict_get items (str key) (JStr NA)).
Proof.
  unfold proposed, data_get. split.
  - intros [v H]. destruct data; try discriminate H. simpl in H.
    exists items. split; [reflexivity|]. apply clean_returns_iff.
    now exists v.
  - intros [items [-> C]]. simpl. now apply clean_returns_iff.
Qed.

Lemma proposed_raises data key e :
  proposed data key = Raises e -> e = AttributeError.
Proof.
  unfold proposed, data_get.
  destruct data; simpl; intros H; try (now injection H).
  now apply clean_raises in H.
Qed.

Lemma validate_proposal_raises R content dv data e :
  validate_proposal R content dv data = Raises e -> e = AttributeError.
Proof.
  unfold validate_proposal.
  repeat match goal with
  | |- obind (proposed data ?k) _ = _ -> _ =>
      let H := fresh "H" in
      destruct (proposed data k) eqn:H;
      [cbn [obind] | cbn [obind]; intros [= <-];
                     now apply proposed_raises in H]
  end.
  cbv zeta. discriminate.
Qed.

Lemma validate_proposal_returns_iff R content dv data :
  (exists m, validate_proposal R content dv data = Returns m) <->
  proposal_ok data.
Proof.
  split.
  - intros [m H]. apply validate_proposal_inv in H.
    destruct H as (i & b & s & ad & bn & br & inn & inr & sn & sr & H).
    destruct H as (P1 & P2 & P3 & P4 & P5 & P6 & P7 & P8 & P9 & P10 & _).
    assert (Q : forall key v, proposed data key = Returns v ->
                exists items, data = JObj items /\
                  cleanable (dict_get items (str key) (JStr NA))).
    { intros key v H. apply proposed_returns_iff. now exists v. }
    destruct (Q _ _ P1) as [items [-> C1]].
    assert (Q' : forall key v, proposed (JObj items) key = Returns v ->
                 cleanable (dict_get items (str key) (JStr NA))).
    { intros key v H. destruct (Q _ _ H) as [items' [[= <-] C]]. exact C. }
    exists items. split; [reflexivity|]. unfold metadata_keys.
    repeat (constructor; [eapply Q'; eassumption|]). constructor.
  - intros [items [-> F]]. unfold metadata_keys in F.
    assert (Q : forall key,
              cleanable (dict_get items (str key) (JStr NA)) ->
              exists v, proposed (JObj items) key = Returns v).
    { intros key C. apply proposed_returns_iff. now exists items. }
    repeat match goal with
    | F : Forall _ (_ :: _) |- _ =>
        let C := fresh "C" in
        let v := fresh "v" in
        let E := fresh "E" in
        inversion F as [|? ? C F']; subst; clear F; rename F' into F;
        apply Q in C; destruct C as [v E]
    end.
    unfold validate_proposal.
    repeat match goal with
    | E : proposed _ ?k = Returns _ |- context [proposed _ ?k] =>
        rewrite E; clear E
    end.
    cbn [obind]. now eexists.
Qed.

(** X7. Exceptions of [ai_extract_deal_metadata].  For a content that
    is not empty the function returns exactly when the parsed proposal
    is a dictionary in which each of the ten keys is absent or holds a
    string or a value that is false as a condition; in every other case
    ([clean] meets a number, [true], a list or a dictionary that is not
    empty) it raises [AttributeError], and it raises nothing else. *)
Theorem metadata_raises_on_non_strings (R : runtime)
  (service : request -> option pystr) (content : pystr) :
  content <> [] ->
  let data :=
    proposal_of R
      (service (MetadataPrompt (firstn MAX_CHARS_FOR_AI content))) in
  ((exists m,
      result service (ai_extract_deal_metadata R content) = Returns m) <->
   proposal_ok data) /\
  (~ proposal_ok data ->
   result service (ai_extract_deal_metadata R content)
     = Raises AttributeError).
Proof.
  intros N data. rewrite ai_extract_result by exact N. fold data.
  pose proof (validate_proposal_returns_iff R content
                (extract_deal_value_from_text R content) data) as I.
  split; [exact I|]. intros No.
  destruct (validate_proposal R content
              (extract_deal_value_from_text R content) data) as [m|e] eqn:V.
  - exfalso. apply No, I. now exists m.
  - now apply validate_proposal_raises in V; subst.
Qed.

(** A run of [metadata_raises_on_non_strings]: the parser answers a
    dictionary with a number under ["buyer"]. *)
Lemma metadata_raises_on_non_strings_witness :
  result (fun _ => Some (str "{}"))
    (ai_extract_deal_metadata
       {| uni_decimal := uni_decimal caseless;
          uni_lower := uni_lower caseless;
          uni_fold := uni_fold caseless;
          json_loads := fun _ =>
            Some (JObj [(str "buyer", JInt 7 false)]) |}
       (str "Acme bought Foo."))
  = Raises AttributeError.
Proof.
  apply metadata_raises_on_non_strings; [discriminate|].
  intros [items [E F]]. vm_compute in E. injection E as <-.
  inversion F as [|? ? _ F1]; subst. inversion F1 as [|? ? C _]; subst.
  vm_compute in C. destruct C as [C|[s C]]; discriminate C.
Defined.

Lemma lstrip_by_head p s :
  lstrip_by p s = [] \/
  exists c r, lstrip_by p s = c :: r /\ p c = false.
Proof.
  induction s as [|c s IH]; simpl; [now left|].
  destruct (p c) eqn:C; [exact IH|]. right. now exists c, s.
Qed.

Lemma lstrip_by_idem p s : lstrip_by p (lstrip_by p s) = lstrip_by p s.
Proof.
  destruct (lstrip_by_head p s) as [->|[c [r [-> C]]]]; [reflexivity|].
  simpl. now rewrite C.
Qed.

Lemma rstrip_by_idem p s : rstrip_by p (rstrip_by p s) = rstrip_by p s.
Proof.
  unfold rstrip_by. now rewrite rev_involutive, lstrip_by_idem.
Qed.

(** Stripping twice is stripping once. *)
Lemma strip_by_idem p s : strip_by p (strip_by p s) = strip_by p s.
Proof.
  assert (E : strip_by p s = [] \/
              exists c r, strip_by p s = c :: rstrip_by p r /\ p c = false).
  { unfold strip_by.
    destruct (lstrip_by_head p s) as [->|[c [r [-> C]]]]; [now left|].
    right. exists c, r. split; [now apply rstrip_by_cons | exact C]. }
  destruct E as [->|[c [r [-> C]]]]; [reflexivity|].
  rewrite strip_by_cons by exact C. now rewrite rstrip_by_idem.
Qed.

Lemma trimmed_NA : trimmed NA.
Proof. split; [discriminate | reflexivity]. Qed.

Lemma clean_trimmed val v : clean val = Returns v -> trimmed v.
Proof.
  unfold clean. destruct (falsy val).
  - intros [= <-]. apply trimmed_NA.
  - destruct val; try discriminate. intros [= <-].
    destruct (truthy (strip s)) eqn:T; [|apply trimmed_NA].
    split; [now apply truthy_true | apply strip_by_idem].
Qed.

Lemma proposed_trimmed data key v :
  proposed data key = Returns v -> trimmed v.
Proof.
  unfold proposed. destruct (data_get data key) as [val|]; [|discriminate].
  apply clean_trimmed.
Qed.

Lemma kept_trimmed v out : trimmed v -> kept_or_NA v out -> trimmed out.
Proof. intros T [->| ->]; [exact T | apply trimmed_NA]. Qed.

(** X8. Every party field of a record that [ai_extract_deal_metadata]
    returns (the four organisation fields, the lead names and the lead
    roles) is a text that is not empty and has no white space at either
    end: a missing, empty or blank proposal is ["NA"], never [""]. *)
Theorem metadata_fields_are_trimmed (R : runtime)
  (service : request -> option pystr) (content : pystr) (m : metadata) :
  result service (ai_extract_deal_metadata R content) = Returns m ->
  Forall trimmed
    [ deal_advisor m; investor_or_pe m; buyer m; seller m;
      buyer_lead_name m; buyer_lead_role m;
      investor_lead_name m; investor_lead_role m;
      seller_lead_name m; seller_lead_role m ].
Proof.
  destruct content as [|c rest].
  - simpl. intros [= <-]. repeat constructor; try discriminate.
  - intros H. rewrite ai_extract_result in H by discriminate.
    apply validate_proposal_inv in H.
    destruct H as (i & b & s & ad & bn & br & inn & inr & sn & sr & H).
    destruct H as (P1 & P2 & P3 & P4 & P5 & P6 & P7 & P8 & P9 & P10 & H).
    cbv zeta in H.
    destruct H as (_ & -> & -> & -> & -> & -> & -> & -> & -> & -> & A).
    apply proposed_trimmed in P1, P2, P3, P4, P5, P6, P7, P8, P9, P10.
    assert (O : forall v, trimmed v ->
              trimmed (validate_org R
                         (lower R (collapse_ws (c :: rest))) v))
      by (intros v T; eapply kept_trimmed;
          [exact T | apply validate_org_kept]).
    assert (Pe : forall v, trimmed v ->
              trimmed (validate_person R
                         (lower R (collapse_ws (c :: rest))) v))
      by (intros v T; eapply kept_trimmed;
          [exact T | apply validate_person_kept]).
    assert (Ro : forall v, trimmed v ->
              trimmed (validate_role R
                         (lower R (collapse_ws (c :: rest))) v))
      by (intros v T; eapply kept_trimmed;
          [exact T | apply validate_role_kept]).
    constructor.
    + destruct A as [-> | [-> | [-> | [-> | ->]]]]; auto using trimmed_NA.
    + repeat (constructor; [now auto|]). constructor.
Qed.

(** A run of [metadata_fields_are_trimmed]: the buyer that
    [example_runtime] proposes with blanks around it. *)
Lemma metadata_fields_are_trimmed_witness :
  trimmed (str "Acme Corp & Zed").
Proof.
  set (content := str "Acme Corp  bought foo. Jane Doe, CEO").
  set (m := {| deal_value := str "NA";
               deal_advisor := str "Acme Corp & Zed";
               investor_or_pe := str "NA";
               buyer := str "Acme Corp & Zed";
               seller := str "NA";
               buyer_lead_name := str "Jane Q. Doe";
               buyer_lead_role := str "Chief/ceo";
               investor_lead_name := str "NA";
               investor_lead_role := str "NA";
               seller_lead_name := str "NA";
               seller_lead_role := str "NA" |}).
  assert (H : result (fun _ => Some (str "Here it is: {} "))
                (ai_extract_deal_metadata example_runtime content)
              = Returns m) by (vm_compute; reflexivity).
  pose proof (metadata_fields_are_trimmed example_runtime _ content m H) as F.
  inversion F as [|? ? _ F1]. inversion F1 as [|? ? _ F2].
  inversion F2 as [|? ? B _]. exact B.
Defined.

Lemma validate_proposal_advisor R content dv data m :
  validate_proposal R content dv data = Returns m ->
  exists ad,
    proposed data "advisor_firm" = Returns ad /\
    deal_advisor m =
    first_non_NA
      [ investor_or_pe m;
        validate_org R (lower R (collapse_ws content)) ad;
        buyer m; seller m ].
Proof.
  unfold validate_proposal.
  destruct (proposed data "investor_or_pe") as [i|]; [|discriminate].
  destruct (proposed data "buyer") as [b|]; [|discriminate].
  destruct (proposed data "seller") as [s|]; [|discriminate].
  destruct (proposed data "advisor_firm") as [ad|]; [|discriminate].
  destruct (proposed data "buyer_lead_name") as [bn|]; [|discriminate].
  destruct (proposed data "buyer_lead_role") as [br|]; [|discriminate].
  destruct (proposed data "investor_lead_name") as [inn|]; [|discriminate].
  destruct (proposed data "investor_lead_role") as [inr|]; [|discriminate].
  destruct (proposed data "seller_lead_name") as [sn|]; [|discriminate].
  destruct (proposed data "seller_lead_role") as [sr|]; [|discriminate].
  cbn [obind]. cbv zeta. intros [= <-]. exists ad. split; reflexivity.
Qed.

Lemma first_non_NA_head v rest : v <> NA -> first_non_NA (v :: rest) = v.
Proof.
  intros N. simpl. apply eqb_neq in N. now rewrite N.
Qed.

Lemma first_non_NA_skip rest : first_non_NA (NA :: rest) = first_non_NA rest.
Proof. reflexivity. Qed.

Lemma first_non_NA_is_NA values :
  first_non_NA values = NA <-> Forall (fun v => v = NA) values.
Proof.
  induction values as [|v rest IH]; simpl.
  - split; [constructor | reflexivity].
  - destruct (Str.eqb v NA) eqn:E; simpl.
    + apply eqb_eq in E. rewrite IH. split.
      * intros F. now constructor.
      * intros F. now inversion F.
    + apply eqb_neq in E. split; [congruence|].
      intros F. inversion F. contradiction.
Qed.

(** X9. Priority of the deal advisor.  In a record that
    [ai_extract_deal_metadata] returns, [deal_advisor] is the first of
    the validated investor, advisor firm, buyer and seller that is not
    ["NA"], the advisor firm being a value attested in the content that
    the record does not hold otherwise.  So an investor that survived
    validation is always the deal advisor, and the deal advisor is
    ["NA"] only if investor, buyer and seller all are. *)
Theorem deal_advisor_priority (R : runtime)
  (service : request -> option pystr) (content : pystr) (m : metadata) :
  result service (ai_extract_deal_metadata R content) = Returns m ->
  (exists advisor_firm,
     attested R content org_parts 1 advisor_firm /\
     deal_advisor m =
     first_non_NA [investor_or_pe m; advisor_firm; buyer m; seller m]) /\
  (investor_or_pe m <> NA -> deal_advisor m = investor_or_pe m) /\
  (deal_advisor m = NA ->
   investor_or_pe m = NA /\ buyer m = NA /\ seller m = NA).
Proof.
  intros H.
  assert (E : exists advisor_firm,
            attested R content org_parts 1 advisor_firm /\
            deal_advisor m =
            first_non_NA
              [investor_or_pe m; advisor_firm; buyer m; seller m]).
  { destruct content as [|c rest].
    - simpl in H. injection H as <-. exists NA. split; [now left|reflexivity].
    - rewrite ai_extract_result in H by discriminate.
      apply validate_proposal_advisor in H. destruct H as [ad [_ H]].
      eexists. split; [|exact H]. apply validate_org_attested. }
  split; [exact E|]. destruct E as [ad [_ E]]. rewrite E. split.
  - apply first_non_NA_head.
  - intros F. apply first_non_NA_is_NA in F.
    inversion F as [|? ? F1 F']; subst. inversion F' as [|? ? _ F'']; subst.
    inversion F'' as [|? ? F3 F''']; subst.
    inversion F''' as [|? ? F4 _]; subst. auto.
Qed.

(** A run of [deal_advisor_priority]: the proposal of
    [example_runtime] has no investor and no advisor, so the buyer is
    the deal advisor. *)
Lemma deal_advisor_priority_witness :
  exists advisor_firm,
    attested example_runtime (str "Acme Corp  bought foo. Jane Doe, CEO")
      org_parts 1 advisor_firm /\
    str "Acme Corp & Zed" =
    first_non_NA [str "NA"; advisor_firm; str "Acme Corp & Zed"; str "NA"].
Proof.
  set (content := str "Acme Corp  bought foo. Jane Doe, CEO").
  set (m := {| deal_value := str "NA";
               deal_advisor := str "Acme Corp & Zed";
               investor_or_pe := str "NA";
               buyer := str "Acme Corp & Zed";
               seller := str "NA";
               buyer_lead_name := str "Jane Q. Doe";
               buyer_lead_role := str "Chief/ceo";
               investor_lead_name := str "NA";
               investor_lead_role := str "NA";
               seller_lead_name := str "NA";
               seller_lead_role := str "NA" |}).
  assert (H : result (fun _ => Some (str "Here it is: {} "))
                (ai_extract_deal_metadata example_runtime content)
              = Returns m) by (vm_compute; reflexivity).
  exact (proj1 (deal_advisor_priority example_runtime _ content m H)).
Defined.

(* ================================================================= *)
(** ** Calls of the service and the text they carry *)

(** X10. Calls of the service.  For an article with content each of
    [get_context_text] and [ai_extract_deal_metadata] calls the service
    exactly once, whatever it answers; the prompt carries the first
    [MAX_CHARS_FOR_AI] = 2000 characters of the content at most, and the
    one of the summary the normalised date.  Without content neither
    calls it. *)
Theorem one_call_each (R : runtime) (service : request -> option pystr)
  (a : article) :
  exists date,
    get_pretty_date R a = Returns date /\
    calls service (get_context_text R a) =
      (if truthy (content a)
       then [SummaryPrompt (firstn MAX_CHARS_FOR_AI (content a)) date]
       else []) /\
    calls service (ai_extract_deal_metadata R (content a)) =
      (if truthy (content a)
       then [MetadataPrompt (firstn MAX_CHARS_FOR_AI (content a))]
       else []) /\
    length (firstn MAX_CHARS_FOR_AI (content a)) <= 2000 /\
    prefix_of (firstn MAX_CHARS_FOR_AI (content a)) (content a).
Proof.
  destruct (get_pretty_date_returns R a) as [date D]. exists date.
  split; [exact D|]. split; [|split; [|split]].
  - unfold get_context_text, bind, pure_call, ret, service_call.
    rewrite D. cbn [gbind]. cbv zeta.
    destruct (truthy (content a)) eqn:T; [|reflexivity].
    rewrite !calls_gbind, !result_gbind. cbn [result calls app].
    unfold ai_summarise_with_ollama. rewrite T. cbn [negb calls result].
    set (q := SummaryPrompt (firstn MAX_CHARS_FOR_AI (content a)) date).
    assert (C : calls service
                  match service q with
                  | Some response => Ret (strip response)
                  | None => Ret []
                  end = []) by (destruct (service q); reflexivity).
    rewrite C. cbn [app]. f_equal.
    match goal with
    | |- calls _ (if ?b then _ else _) = _ => destruct b; reflexivity
    end.
  - unfold ai_extract_deal_metadata.
    destruct (truthy (content a)); reflexivity.
  - apply firstn_le_length.
  - apply prefix_of_firstn.
Qed.

(* ================================================================= *)
(** ** The proposal inside the answer of the service *)

Lemma many_any_none (A : Type) (K : pystr -> option A) : forall s,
  (forall s', suffix_of s' s -> K s' = None) ->
  Re.many (fun _ => true) s K = None.
Proof.
  induction s as [|c s IH]; intros H; simpl.
  - apply H. now exists [].
  - rewrite IH.
    + apply H. now exists [].
    + intros s' [pre ->]. apply H. now exists (c :: pre).
Qed.

Lemma many_any_last (A : Type) (K : pystr -> option A) a mid : forall tail,
  K tail = Some a ->
  (forall s' pre, tail = pre ++ s' -> pre <> [] -> K s' = None) ->
  Re.many (fun _ => true) (mid ++ tail) K = Some a.
Proof.
  induction mid as [|c mid IH]; intros tail Ka Later.
  - simpl. destruct tail as [|c tail]; simpl; [exact Ka|].
    rewrite many_any_none; [exact Ka|].
    intros s' [pre ->]. apply (Later s' (c :: pre)); [reflexivity|].
    discriminate.
  - simpl. now rewrite (IH tail Ka Later).
Qed.

(** The pattern [\{.*\}]: in a text with a [{] and a later [}] the
    match goes from the first [{] to the last [}]. *)
Lemma braces_search pre mid post :
  ~ In 123%N pre -> ~ In 125%N post ->
  Re.search
    (Re.match_at
       (Re.Seq (Re.Chr (Re.one "{"))
          (Re.Seq (Re.Many (fun _ => true)) (Re.Chr (Re.one "}")))))
    (pre ++ 123%N :: mid ++ 125%N :: post)
  = Some (length pre, 123%N :: mid ++ [125%N]).
Proof.
  intros Npre Npost. induction pre as [|c pre IH].
  - simpl app. cbn [Re.search]. unfold Re.match_at at 1.
    cbn [Re.run]. change (Re.one "{" 123%N) with true. cbv iota.
    set (whole := 123%N :: mid ++ 125%N :: post).
    rewrite (many_any_last _ _ (Re.consumed whole post) mid (125%N :: post)).
    + simpl length. f_equal. f_equal. unfold whole.
      replace (123%N :: mid ++ 125%N :: post)
        with ((123%N :: mid ++ [125%N]) ++ post)
        by (simpl; now rewrite <- app_assoc).
      apply ReFacts.consumed_app.
    + reflexivity.
    + intros s' p E Np. destruct p as [|d p]; [congruence|].
      injection E as _ E. subst post.
      destruct s' as [|e s']; [reflexivity|]. simpl.
      destruct (N.eqb_spec e 125) as [->|Ne]; simpl.
      * exfalso. apply Npost. apply in_or_app. right. now left.
      * unfold Re.one. simpl. apply N.eqb_neq in Ne. now rewrite Ne.
  - simpl app. cbn [Re.search]. unfold Re.match_at at 1. cbn [Re.run].
    assert (C : Re.one "{" c = false).
    { unfold Re.one. simpl. rewrite orb_false_r. apply N.eqb_neq.
      intros ->. apply Npre. now left. }
    rewrite C. rewrite IH by (intros I; apply Npre; now right).
    reflexivity.
Qed.

(** X11. The proposal is read from the answer whatever surrounds it:
    when the trimmed answer of the service holds a [{] and a later [}],
    the text handed to [json.loads] goes from the first [{] to the last
    [}], and the proposal is what the parser returns for it, [{}] when
    it raises. *)
Theorem proposal_is_the_widest_braces (R : runtime)
  (response pre mid post : pystr) :
  strip response = pre ++ str "{" ++ mid ++ str "}" ++ post ->
  ~ In 123%N pre -> ~ In 125%N post ->
  proposal_of R (Some response) =
  match json_loads R (str "{" ++ mid ++ str "}") with
  | Some data => data
  | None => JObj []
  end.
Proof.
  intros E Npre Npost. unfold proposal_of. cbv zeta. rewrite E.
  change (pre ++ str "{" ++ mid ++ str "}" ++ post)
    with (pre ++ 123%N :: mid ++ 125%N :: post).
  rewrite braces_search by assumption. reflexivity.
Qed.

(** A run of [proposal_is_the_widest_braces] on an answer with prose
    around the object. *)
Lemma proposal_is_the_widest_braces_witness :
  proposal_of example_runtime (Some (str " Sure: {x} done "))
  = match json_loads example_runtime (str "{" ++ str "x" ++ str "}") with
    | Some data => data
    | None => JObj []
    end.
Proof.
  apply (proposal_is_the_widest_braces example_runtime
           (str " Sure: {x} done ") (str "Sure: ") (str "x") (str " done")).
  - reflexivity.
  - simpl. intuition discriminate.
  - simpl. intuition discriminate.
Defined.

(* ================================================================= *)
(** ** Titles of short words *)

Lemma filter_nil_of_false (A : Type) (f : A -> bool) (l : list A) :
  (forall x, In x l -> f x = false) -> filter f l = [].
Proof.
  induction l as [|x l IH]; intros H; simpl; [reflexivity|].
  rewrite (H x) by now left. apply IH. intros y I. apply H. now right.
Qed.

(** X12. A title without a word of four characters or more (once the
    punctuation around each word is stripped) matches no summary, so
    for such an article [get_context_text] returns the deterministic
    summary whatever the service answers. *)
Theorem short_titles_get_the_fallback (R : runtime)
  (service : request -> option pystr) (a : article) :
  (forall w, In w (split_ws (title a)) ->
             length (strip_chars title_punctuation w) < 4) ->
  (forall summary, summary_matches_title R summary (title a) = false) /\
  result service (get_context_text R a)
    = Returns (simple_summary (content a) 400).
Proof.
  intros H.
  assert (M : forall summary,
            summary_matches_title R summary (title a) = false).
  { intros summary. unfold summary_matches_title.
    destruct (negb (truthy summary) || negb (truthy (title a)));
      [reflexivity|].
    cbv zeta. unfold title_tokens. rewrite filter_nil_of_false; [reflexivity|].
    intros w I. apply Nat.leb_gt. now apply H. }
  split; [exact M|].
  destruct (get_pretty_date_returns R a) as [date D].
  rewrite (get_context_text_result R service a date D). cbv zeta.
  now rewrite M, andb_false_r.
Qed.

(** A run of [short_titles_get_the_fallback]. *)
Lemma short_titles_get_the_fallback_witness :
  result (fun _ => Some (str "IBM buys HP in a big deal."))
    (get_context_text caseless
       {| title := str "IBM to buy HP"; content := str "IBM bought HP.";
          url := []; timestamp := [] |})
  = Returns (simple_summary (str "IBM bought HP.") 400).
Proof.
  apply (short_titles_get_the_fallback caseless
           (fun _ => Some (str "IBM buys HP in a big deal."))
           {| title := str "IBM to buy HP"; content := str "IBM bought HP.";
              url := []; timestamp := [] |}).
  intros w I. vm_compute in I.
  repeat (destruct I as [<-|I]; [vm_compute; lia|]). destruct I.
Defined.

(* ================================================================= *)
(** ** Delivery *)

Lemma read_emails_cons line rest :
  read_emails (line :: rest) =
  if negb (truthy (strip line)) || starts_with (str "#") (strip line)
  then read_emails rest
  else if contains (strip line) (str "@") && contains (strip line) (str ".")
  then strip line :: read_emails rest
  else read_emails rest.
Proof. reflexivity. Qed.

Lemma read_emails_spec lines e :
  In e (read_emails lines) <->
  exists line,
    In line lines /\ e = strip line /\ e <> [] /\
    starts_with (str "#") e = false /\
    occurs_in (str "@") e /\ occurs_in (str ".") e.
Proof.
  induction lines as [|line rest IH].
  - split; [intros [] | intros [line [[] _]]].
  - rewrite read_emails_cons.
    assert (Later : In e (read_emails rest) ->
              exists l, In l (line :: rest) /\ e = strip l /\ e <> [] /\
                starts_with (str "#") e = false /\
                occurs_in (str "@") e /\ occurs_in (str ".") e).
    { intros I. apply IH in I. destruct I as [l [Il P]]. exists l.
      split; [now right | exact P]. }
    assert (Skip : (e = strip line -> e <> [] ->
                    starts_with (str "#") e = false ->
                    occurs_in (str "@") e -> occurs_in (str ".") e ->
                    False) ->
              (exists l, In l (line :: rest) /\ e = strip l /\ e <> [] /\
                 starts_with (str "#") e = false /\
                 occurs_in (str "@") e /\ occurs_in (str ".") e) ->
              In e (read_emails rest)).
    { intros No [l [Il (E & N & Hh & A & D)]]. apply in_inv in Il.
      destruct Il as [<-|Il]; [now elim No|]. apply IH. now exists l. }
    destruct (truthy (strip line)) eqn:T; cbn [negb orb].
    + destruct (starts_with (str "#") (strip line)) eqn:H.
      * split; [exact Later|]. apply Skip. intros -> _ Hh _ _. congruence.
      * destruct (contains (strip line) (str "@")) eqn:At; cbn [andb].
        -- destruct (contains (strip line) (str ".")) eqn:Dot.
           ++ split.
              ** intros I. apply in_inv in I. destruct I as [<-|I];
                   [|now apply Later].
                 exists line. split; [now left|]. split; [reflexivity|].
                 split; [now apply truthy_true|]. split; [exact H|].
                 split; now apply contains_spec.
              ** intros [l [Il P]]. apply in_inv in Il.
                 destruct Il as [<-|Il]; [left; symmetry; apply P|].
                 right. apply IH. now exists l.
           ++ split; [exact Later|]. apply Skip. intros -> _ _ _ D.
              apply contains_spec in D. congruence.
        -- split; [exact Later|]. apply Skip. intros -> _ _ A _.
           apply contains_spec in A. congruence.
    + split; [exact Later|]. apply Skip. intros -> N _ _ _.
      apply truthy_false in T. congruence.
Qed.

Lemma read_emails_length lines : length (read_emails lines) <= length lines.
Proof.
  induction lines as [|line rest IH]; [simpl; lia|].
  rewrite read_emails_cons. cbn [length].
  destruct (negb (truthy (strip line)) || _); [lia|].
  destruct (contains _ _ && _); cbn [length]; lia.
Qed.

(** X13. The recipients that [load_emails_from_file] returns: none
    when the file does not exist; otherwise exactly the lines of the
    file, stripped of the white space around them, that are not empty,
    do not begin with [#] and hold both an [@] and a [.], so there are
    no more recipients than lines and each is without white space
    around it. *)
Theorem recipients_are_filtered_lines (lines : list pystr) :
  load_emails_from_file None = [] /\
  (forall e,
     In e (load_emails_from_file (Some lines)) <->
     exists line,
       In line lines /\ e = strip line /\ e <> [] /\
       starts_with (str "#") e = false /\
       occurs_in (str "@") e /\ occurs_in (str ".") e) /\
  (forall e, In e (load_emails_from_file (Some lines)) -> trimmed e) /\
  length (load_emails_from_file (Some lines)) <= length lines.
Proof.
  split; [reflexivity|]. split; [apply read_emails_spec|]. split.
  - intros e I. apply read_emails_spec in I.
    destruct I as [line [_ (-> & N & _)]]. split; [exact N|].
    apply strip_by_idem.
  - apply read_emails_length.
Qed.

(** A run of [recipients_are_filtered_lines] on a file with a comment,
    a blank line, an address and a line that is none. *)
Lemma recipients_are_filtered_lines_witness :
  In (str "jane@acme.com")
    (load_emails_from_file
       (Some [str "# team"; str "  "; str " jane@acme.com "; str "nobody"])).
Proof.
  apply (proj1 (proj2 (recipients_are_filtered_lines
                         [str "# team"; str "  "; str " jane@acme.com ";
                          str "nobody"]))).
  exists (str " jane@acme.com ").
  split; [simpl; tauto|]. split; [reflexivity|]. split; [discriminate|].
  split; [reflexivity|]. split.
  - now exists (str "jane"), (str "acme.com").
  - now exists (str "jane@acme"), (str "com").
Defined.

Lemma send_loop_counts send : forall emails idx sc fc,
  let sent :=
    filter (fun p => send (fst p) (snd p))
      (combine (seq idx (length emails)) emails) in
  send_loop send idx emails sc fc
  = (sc + length sent, fc + (length emails - length sent)) /\
  length sent <= length emails.
Proof.
  induction emails as [|e rest IH]; intros idx sc fc.
  - simpl. split; [f_equal; lia | lia].
  - destruct (IH (S idx) (S sc) fc) as [E1 L1].
    destruct (IH (S idx) sc (S fc)) as [E2 L2].
    cbv zeta in *.
    cbn [length filter combine seq fst snd send_loop].
    set (n := length
                (filter (fun p => send (fst p) (snd p))
                   (combine (seq (S idx) (length rest)) rest))) in *.
    destruct (send idx e); cbn [length]; fold n.
    + rewrite E1. split; [f_equal; lia | lia].
    + rewrite E2. split; [f_equal; lia | lia].
Qed.

(** X14. The counts of [send_newsletters_to_all].  [total] is always
    the number of recipients.  With an API key every recipient is tried
    once, in order and numbered from 1; [success] counts those whose
    sending succeeded and [success + failed = total].  Without a key
    nothing is sent and both counts are 0, so they add up to [total]
    only when there is no recipient. *)
Theorem delivery_counts (api_key : pystr) (send : nat -> pystr -> bool)
  (emails : list pystr) :
  let stats := send_newsletters_to_all api_key send emails in
  total stats = length emails /\
  (api_key <> [] ->
   success stats =
     length (filter (fun p => send (fst p) (snd p))
               (combine (seq 1 (length emails)) emails)) /\
   success stats + failed stats = total stats) /\
  (api_key = [] -> success stats = 0 /\ failed stats = 0).
Proof.
  unfold send_newsletters_to_all.
  destruct (send_loop_counts send emails 1 0 0) as [E L]. cbv zeta in E, L.
  destruct api_key as [|c k]; simpl negb; cbv iota.
  - simpl. repeat split; congruence.
  - rewrite E. simpl. repeat split; try lia; discriminate.
Qed.

(** A run of [delivery_counts]: three recipients, the second fails. *)
Lemma delivery_counts_witness :
  success (send_newsletters_to_all (str "key")
             (fun idx _ => negb (idx =? 2))
             [str "a@b.c"; str "d@e.f"; str "g@h.i"])
  + failed (send_newsletters_to_all (str "key")
              (fun idx _ => negb (idx =? 2))
              [str "a@b.c"; str "d@e.f"; str "g@h.i"])
  = total (send_newsletters_to_all (str "key")
             (fun idx _ => negb (idx =? 2))
             [str "a@b.c"; str "d@e.f"; str "g@h.i"]).
Proof.
  apply (delivery_counts (str "key") (fun idx _ => negb (idx =? 2))
           [str "a@b.c"; str "d@e.f"; str "g@h.i"]).
  discriminate.
Defined.

(* ================================================================= *)
(** ** The normalised date: its shape, and normalising it again *)

Lemma normalize_month_cases month_str :
  normalize_month month_str = month_str \/
  In (normalize_month month_str) month_abbreviations.
Proof.
  unfold normalize_month, MONTH_MAP. cbn [dict_get].
  repeat match goal with
  | |- context [if Str.eqb ?k month_str then _ else _] =>
      destruct (Str.eqb k month_str);
      [right; unfold month_abbreviations; simpl; tauto|]
  end.
  now left.
Qed.

Lemma normalize_month_abbreviation m :
  In m month_abbreviations ->
  normalize_month m = m /\ Re.lang month_re m.
Proof.
  assert (L : forall c0 c1 c2,
            in_range 65 90 c0 = true -> in_range 97 122 c1 = true ->
            in_range 97 122 c2 = true -> Re.lang month_re [c0; c1; c2]).
  { intros c0 c1 c2 H0 H1 H2. unfold month_re. cbn [Re.lang].
    exists [c0], [c1; c2]. split; [reflexivity|].
    split; [now exists c0|]. exists [c1; c2], []. split; [reflexivity|].
    split; [|now left]. split; [simpl; lia|]. simpl. now rewrite H1, H2. }
  unfold month_abbreviations. simpl.
  intros H.
  repeat (destruct H as [<-|H];
          [split; [reflexivity | apply L; reflexivity]|]).
  destruct H.
Qed.

(** X15. [normalize_month] is idempotent: its values are the twelve
    three-letter abbreviations, which it leaves as they are, and any
    other word passes unchanged. *)
Theorem normalize_month_idempotent (month_str : pystr) :
  normalize_month (normalize_month month_str) = normalize_month month_str /\
  (normalize_month month_str = month_str \/
   In (normalize_month month_str) month_abbreviations).
Proof.
  split; [|apply normalize_month_cases].
  destruct (normalize_month_cases month_str) as [E|I].
  - now rewrite E.
  - now apply normalize_month_abbreviation.
Qed.

Lemma month_lang_parts m :
  Re.lang month_re m ->
  exists c0 letters dot,
    m = c0 :: letters ++ dot /\ in_range 65 90 c0 = true /\
    forallb (in_range 97 122) letters = true /\
    2 <= length letters <= 9 /\ (dot = [] \/ dot = [46%N]).
Proof.
  unfold month_re. cbn [Re.lang].
  intros (m1 & m2 & -> & (c0 & -> & C0) & letters & dot & -> & [L F] & D).
  exists c0, letters, dot. repeat split; auto; try lia.
  destruct D as [->|(c & -> & C)]; [now left|]. right.
  unfold Re.one in C. simpl in C. rewrite orb_false_r in C.
  apply N.eqb_eq in C. now subst.
Qed.

Lemma normalized_month_lang month_raw :
  Re.lang month_re month_raw ->
  Re.lang month_re (normalize_month month_raw) /\
  normalize_month (normalize_month month_raw) = normalize_month month_raw.
Proof.
  intros L. destruct (normalize_month_cases month_raw) as [E|I].
  - rewrite !E. now split.
  - destruct (normalize_month_abbreviation _ I) as [E L']. now split.
Qed.

Lemma decimal_value_lt R c v :
  sane_digits R -> decimal_value R c = Some v -> (v < 10)%N.
Proof.
  intros Sa. unfold decimal_value. destruct (is_ascii c); [|apply Sa].
  destruct (in_range 48 57 c) eqn:E; [|discriminate].
  intros [= <-]. unfold in_range in E. apply andb_true_iff in E.
  destruct E as [E1 E2]. apply N.leb_le in E1, E2. lia.
Qed.

(** [int] of the day group: a number below 100. *)
Lemma day_value R day :
  sane_digits R -> Re.lang (day_re R) day ->
  exists n, py_int R day = Returns n /\ (n < 100)%N.
Proof.
  intros Sa [L F]. unfold py_int.
  destruct day as [|c1 day]; [simpl in L; lia|].
  simpl in F. apply andb_true_iff in F. destruct F as [F1 F].
  unfold is_digit in F1. cbn [int_digits].
  destruct (decimal_value R c1) as [v1|] eqn:D1; [|discriminate].
  apply (decimal_value_lt R c1 v1 Sa) in D1.
  destruct day as [|c2 day].
  - cbn [int_digits]. exists (10 * 0 + v1)%N. split; [reflexivity | lia].
  - destruct day; [|simpl in L; lia].
    simpl in F. rewrite andb_true_r in F. unfold is_digit in F.
    cbn [int_digits].
    destruct (decimal_value R c2) as [v2|] eqn:D2; [|discriminate].
    apply (decimal_value_lt R c2 v2 Sa) in D2.
    eexists. split; [reflexivity | lia].
Qed.

(** What [get_pretty_date] returns comes from a match of the pattern
    in the first timestamp entry or in the collapsed content. *)
Lemma get_pretty_date_source R a out :
  get_pretty_date R a = Returns out ->
  out = [] \/
  exists month_raw day year m,
    date_text R (month_raw, day, year) m /\
    (occurs_in m (hd [] (timestamp a)) \/
     occurs_in m (collapse_ws (content a))) /\
    format_date R (month_raw, day, year) = Returns out.
Proof.
  assert (C : extract_date_from_content R (content a) = Returns out ->
              out = [] \/
              exists month_raw day year m,
                date_text R (month_raw, day, year) m /\
                (occurs_in m (hd [] (timestamp a)) \/
                 occurs_in m (collapse_ws (content a))) /\
                format_date R (month_raw, day, year) = Returns out).
  { unfold extract_date_from_content.
    destruct (date_search R (collapse_ws (content a))) as [[[mo d] y]|] eqn:S.
    - intros F. right. apply date_search_some in S.
      destruct S as [m [T O]]. exists mo, d, y, m. auto.
    - intros [= <-]. now left. }
  unfold get_pretty_date, extract_date_from_timestamp_list.
  destruct (timestamp a) as [|ts rest]; [exact C|]. simpl hd.
  destruct (date_search R ts) as [[[mo d] y]|] eqn:S; [|exact C].
  destruct (format_date R (mo, d, y)) as [ts_date|] eqn:F; [|discriminate].
  cbn [obind]. destruct (truthy ts_date); [|exact C].
  intros [= <-]. right. apply date_search_some in S.
  destruct S as [m [T O]]. exists mo, d, y, m. auto.
Qed.

(** X16. The shape of the normalised date.  What [get_pretty_date]
    returns is empty or has the form [<month> <day>, <year>]: the
    capitalised word found in the text (its abbreviation when
    [MONTH_MAP] knows it, else the word as it is, month or not), the
    day as a number below 100 without leading zero, and the four digits
    of the year as the text has them; the three come from one match of
    the pattern in the first timestamp entry or in the collapsed
    content. *)
Theorem pretty_date_shape (R : runtime) (a : article) (out : pystr) :
  sane_digits R ->
  get_pretty_date R a = Returns out ->
  out = [] \/
  exists month_raw day year m n,
    date_text R (month_raw, day, year) m /\
    (occurs_in m (hd [] (timestamp a)) \/
     occurs_in m (collapse_ws (content a))) /\
    py_int R day = Returns n /\ (n < 100)%N /\
    length year = 4 /\
    out = normalize_month month_raw ++ str " " ++ of_N n ++ str ", " ++ year.
Proof.
  intros Sa H. apply get_pretty_date_source in H.
  destruct H as [->|(mo & d & y & m & T & O & F)]; [now left|]. right.
  pose proof T as T'. destruct T' as (sp & cm & _ & _ & _ & Ld & _ & Ly).
  destruct (day_value R d Sa Ld) as [n [I B]].
  exists mo, d, y, m, n. repeat (split; [assumption|]).
  split; [destruct Ly as [Ly _]; lia|].
  unfold format_date in F. rewrite I in F. simpl in F. now injection F.
Qed.

(** A run of [pretty_date_shape]. *)
Lemma pretty_date_shape_witness :
  str "Paris 5, 2024" = [] \/
  exists month_raw day year m n,
    date_text caseless (month_raw, day, year) m /\
    (occurs_in m (hd [] [str "Signed in Paris 05,2024"]) \/
     occurs_in m (collapse_ws [])) /\
    py_int caseless day = Returns n /\ (n < 100)%N /\
    length year = 4 /\
    str "Paris 5, 2024"
    = normalize_month month_raw ++ str " " ++ of_N n ++ str ", " ++ year.
Proof.
  apply (pretty_date_shape caseless
           {| title := []; content := []; url := [];
              timestamp := [str "Signed in Paris 05,2024"] |}).
  - intros c v H. discriminate H.
  - vm_compute. reflexivity.
Defined.

(** A greedy repetition that can take all of [m] and no more, and
    after which the rest of the pattern succeeds, takes it. *)
Lemma rep_greedy (A : Type) p (k : pystr -> option A) a s' :
  k s' = Some a ->
  forall hi lo m,
    forallb p m = true -> lo <= length m <= hi ->
    length m = hi \/ match s' with [] => True | c :: _ => p c = false end ->
    Re.rep p lo hi (m ++ s') k = Some a.
Proof.
  intros K. induction hi as [|hi IH]; intros lo m F L Stop.
  - destruct m; [|simpl in L; lia]. simpl in *.
    destruct lo; [exact K | lia].
  - destruct m as [|c m].
    + simpl in L. destruct lo; [|lia].
      destruct Stop as [E|Stop]; [discriminate E|].
      destruct s' as [|c s']; simpl; [exact K|]. now rewrite Stop.
    + simpl in F, L. apply andb_true_iff in F. destruct F as [P F].
      cbn [app Re.rep]. rewrite P. rewrite IH; [reflexivity|exact F|lia|].
      destruct Stop as [E|Stop]; [left; simpl in E; lia | now right].
Qed.

Lemma many_greedy (A : Type) p (k : pystr -> option A) a s' :
  k s' = Some a ->
  match s' with [] => True | c :: _ => p c = false end ->
  forall m, forallb p m = true -> Re.many p (m ++ s') k = Some a.
Proof.
  intros K Stop. induction m as [|c m IH]; intros F.
  - destruct s' as [|c s']; simpl; [exact K|]. now rewrite Stop.
  - simpl in F. apply andb_true_iff in F. destruct F as [P F].
    cbn [app Re.many]. now rewrite P, IH.
Qed.

Lemma consumed_nil (s : pystr) : Re.consumed s [] = s.
Proof.
  unfold Re.consumed. simpl. rewrite Nat.sub_0_r. apply firstn_all.
Qed.

Lemma digit_not_blank R c : is_digit R c = true -> Re.one " " c = false.
Proof.
  intros D. unfold Re.one. simpl. rewrite orb_false_r.
  apply N.eqb_neq. intros ->. discriminate D.
Qed.

(** The pattern on a text that is a month word, one blank, a day, a
    comma, one blank and a year: the three are its groups. *)
Lemma date_at_normalised R month day year :
  Re.lang month_re month -> Re.lang (day_re R) day ->
  Re.lang (year_re R) year ->
  date_at R (month ++ 32%N :: day ++ 44%N :: 32%N :: year)
  = Some (month, day, year).
Proof.
  intros Lm [Ld Fd] [Ly Fy].
  destruct (month_lang_parts _ Lm) as (c0 & letters & dot & -> & C0 & Fl & Ll & D).
  assert (Hy : match year with [] => True | c :: _ => Re.one " " c = false end).
  { destruct year as [|c year]; [exact I|]. simpl in Fy.
    apply andb_true_iff in Fy. now apply (digit_not_blank R), Fy. }
  assert (Hd : match day with [] => True | c :: _ => Re.one " " c = false end).
  { destruct day as [|c day]; [exact I|]. simpl in Fd.
    apply andb_true_iff in Fd. now apply (digit_not_blank R), Fd. }
  set (rest1 := 32%N :: day ++ 44%N :: 32%N :: year).
  set (whole := (c0 :: letters ++ dot) ++ rest1).
  assert (Final :
    Re.run (Re.plus (Re.one " ")) rest1
      (fun s2 =>
       Re.run (day_re R) s2
         (fun s3 =>
          Re.run (Re.Seq (Re.Chr (Re.one ",")) (Re.Many (Re.one " "))) s3
            (fun s4 =>
             Re.run (year_re R) s4
               (fun s5 =>
                Some (Re.consumed whole rest1, Re.consumed s2 s3,
                      Re.consumed s4 s5)))))
    = Some (c0 :: letters ++ dot, day, year)).
  { unfold rest1 at 1. unfold Re.plus. cbn [Re.run].
    change (Re.one " " 32%N) with true. cbv iota.
    rewrite (many_greedy _ (Re.one " ") _
               (c0 :: letters ++ dot, day, year)
               (day ++ 44%N :: 32%N :: year) ) with (m := []);
      [reflexivity | | | reflexivity].
    - unfold day_re. cbn [Re.run].
      rewrite (rep_greedy _ (is_digit R) _
                 (c0 :: letters ++ dot, day, year) (44%N :: 32%N :: year));
        [reflexivity | | exact Fd | exact Ld | right; reflexivity].
      cbn [Re.run]. change (Re.one "," 44%N) with true. cbv iota.
      change (32%N :: year) with ([32%N] ++ year).
      rewrite (many_greedy _ (Re.one " ") _
                 (c0 :: letters ++ dot, day, year) year);
        [reflexivity | | exact Hy | reflexivity].
      unfold year_re. cbn [Re.run].
      rewrite <- (app_nil_r year) at 1.
      rewrite (rep_greedy _ (is_digit R) _
                 (c0 :: letters ++ dot, day, year) []);
        [reflexivity | | exact Fy | exact Ly | left; lia].
      unfold whole. rewrite ReFacts.consumed_app.
      change (day ++ 44%N :: [32%N] ++ year)
        with (day ++ (44%N :: 32%N :: year)).
      now rewrite ReFacts.consumed_app, consumed_nil.
    - destruct day as [|c day]; [simpl in Ld; lia | exact Hd]. }
  unfold date_at. fold rest1. fold whole.
  set (K1 := fun s1 : pystr => Re.run (Re.plus (Re.one " ")) s1 _).
  assert (Final' : K1 rest1 = Some (c0 :: letters ++ dot, day, year))
    by exact Final.
  clearbody K1. clear Final.
  unfold whole. unfold month_re. cbn [app Re.run]. rewrite C0.
  rewrite <- app_assoc.
  apply rep_greedy;
    [ | exact Fl | exact Ll | right; destruct D as [-> | ->]; reflexivity].
  destruct D as [-> | ->]; cbn [app]; cbv beta iota;
    rewrite Final'; reflexivity.
Qed.

Lemma search_here (A : Type) (m : pystr -> option A) s a :
  m s = Some a -> Re.search m s = Some (0, a).
Proof. intros H. destruct s; simpl; now rewrite H. Qed.

(** The decimal numeral of a number below 100 is one or two ASCII
    digits that [int] reads back as the number. *)
Lemma day_numeral R n :
  (n < 100)%N ->
  Re.lang (day_re R) (of_N n) /\ py_int R (of_N n) = Returns n.
Proof.
  intros B.
  assert (Ok : forall c, in_range 48 57 c = true ->
               decimal_value R c = Some (c - 48)%N).
  { intros c H. unfold decimal_value. rewrite H.
    assert (is_ascii c = true) as ->; [|reflexivity].
    unfold in_range in H. apply andb_true_iff in H. destruct H as [_ H].
    apply N.leb_le in H. apply N.ltb_lt. lia. }
  assert (Table :
    forallb (fun k =>
      let d := of_N (N.of_nat k) in
      match d with
      | [c1] => in_range 48 57 c1 && (N.of_nat k =? c1 - 48)%N
      | [c1; c2] =>
          in_range 48 57 c1 && in_range 48 57 c2 &&
          (N.of_nat k =? 10 * (10 * 0 + (c1 - 48)) + (c2 - 48))%N
      | _ => false
      end) (seq 0 100) = true) by (vm_compute; reflexivity).
  rewrite forallb_forall in Table.
  specialize (Table (N.to_nat n)). rewrite N2Nat.id in Table.
  assert (I : In (N.to_nat n) (seq 0 100)) by (apply in_seq; lia).
  specialize (Table I). cbv zeta in Table.
  destruct (of_N n) as [|c1 [|c2 [|c3 d]]]; try discriminate Table.
  - apply andb_true_iff in Table. destruct Table as [D1 E].
    apply N.eqb_eq in E. split.
    + split; [simpl; lia|]. simpl. unfold is_digit. now rewrite (Ok _ D1).
    + unfold py_int. cbn [int_digits]. rewrite (Ok _ D1).
      f_equal. lia.
  - apply andb_true_iff in Table. destruct Table as [D E].
    apply andb_true_iff in D. destruct D as [D1 D2].
    apply N.eqb_eq in E. split.
    + split; [simpl; lia|]. simpl. unfold is_digit.
      now rewrite (Ok _ D1), (Ok _ D2).
    + unfold py_int. cbn [int_digits]. rewrite (Ok _ D1), (Ok _ D2).
      f_equal. lia.
Qed.

(** X17. Normalising a normalised date changes nothing: a date that
    [get_pretty_date] has returned, given back as the first timestamp
    entry of any article, is returned as it is. *)
Theorem pretty_date_is_a_fixed_point (R : runtime) (a b : article)
  (out : pystr) :
  sane_digits R ->
  get_pretty_date R a = Returns out -> out <> [] ->
  hd [] (timestamp b) = out ->
  get_pretty_date R b = Returns out.
Proof.
  intros Sa H N Hb. apply get_pretty_date_source in H.
  destruct H as [->|(mo & d & y & m & T & _ & F)]; [congruence|].
  destruct T as (sp & cm & _ & Lm & _ & Ld & _ & Ly).
  destruct (day_value R d Sa Ld) as [n [I B]].
  unfold format_date in F. rewrite I in F. cbn [obind] in F.
  injection F as F.
  destruct (normalized_month_lang mo Lm) as [Lm' Idem].
  destruct (day_numeral R n B) as [Ld' I'].
  assert (S : date_search R out
              = Some (normalize_month mo, of_N n, y)).
  { unfold date_search. rewrite <- F.
    erewrite search_here; [reflexivity|].
    exact (date_at_normalised R _ _ _ Lm' Ld' Ly). }
  unfold get_pretty_date, extract_date_from_timestamp_list.
  destruct (timestamp b) as [|ts rest]; simpl in Hb; [congruence|].
  rewrite Hb, S. unfold format_date. rewrite I'. cbn [obind].
  rewrite Idem.
  assert (E : normalize_month mo ++ str " " ++ of_N n ++ str ", " ++ y = out)
    by exact F.
  rewrite E. apply truthy_true in N. now rewrite N.
Qed.

(** A run of [pretty_date_is_a_fixed_point]. *)
Lemma pretty_date_is_a_fixed_point_witness :
  get_pretty_date caseless
    {| title := []; content := str "other text"; url := [];
       timestamp := [str "Sep 7, 2025"; str "later"] |}
  = Returns (str "Sep 7, 2025").
Proof.
  apply (pretty_date_is_a_fixed_point caseless
           {| title := []; content := []; url := [];
              timestamp := [str "Updated Sept. 07,  2025"] |}).
  - intros c v H. discriminate H.
  - vm_compute. reflexivity.
  - discriminate.
  - reflexivity.
Defined.

(* ================================================================= *)
(** ** Rendering *)

Lemma occurrences_app c s t :
  occurrences c (s ++ t) = occurrences c s + occurrences c t.
Proof. unfold occurrences. now rewrite filter_app, length_app. Qed.

Lemma occurrences_absent c s : ~ In c s -> occurrences c s = 0.
Proof.
  unfold occurrences. induction s as [|d s IH]; intros N; [reflexivity|].
  cbn [filter]. destruct (N.eqb_spec c d) as [->|_].
  - exfalso. apply N. now left.
  - apply IH. intros I. apply N. now right.
Qed.

Lemma absent_of_occurrences c s : occurrences c s = 0 -> ~ In c s.
Proof.
  unfold occurrences. induction s as [|d s IH]; intros E I; [exact I|].
  destruct I as [-> | I].
  - cbn [filter] in E. rewrite N.eqb_refl in E. discriminate.
  - cbn [filter] in E. destruct (c =? d)%N; [discriminate | now apply IH].
Qed.

(** A replacement adds nothing but the characters of the new text. *)
Lemma replace_keeps_out c old new s :
  ~ In c new -> ~ In c s -> ~ In c (replace old new s).
Proof.
  intros Nn Ns I. unfold replace in I.
  apply in_replace_aux in I. tauto.
Qed.

(** What [escape] returns holds none of [<], [>], the double quote and
    the apostrophe. *)
Lemma escape_clean s c :
  In c [60; 62; 34; 39]%N -> ~ In c (escape s).
Proof.
  unfold escape. intros I.
  set (s1 := replace (str "&") (str "&amp;") s).
  set (s2 := replace (str "<") (str "&lt;") s1).
  set (s3 := replace (str ">") (str "&gt;") s2).
  set (s4 := replace [34]%N (str "&quot;") s3).
  assert (L : ~ In 60%N s2).
  { apply (replace_char_gone 60%N). simpl. intuition discriminate. }
  assert (G : ~ In 62%N s3).
  { apply (replace_char_gone 62%N). simpl. intuition discriminate. }
  assert (Q : ~ In 34%N s4).
  { apply (replace_char_gone 34%N). simpl. intuition discriminate. }
  assert (K : forall d new t, ~ In d new -> ~ In d t ->
                forall old, ~ In d (replace old new t)).
  { intros d new t Hn Ht old. now apply replace_keeps_out. }
  simpl in I. destruct I as [<- | [<- | [<- | [<- | []]]]].
  - apply K; [simpl; intuition discriminate|].
    apply K; [simpl; intuition discriminate|].
    apply K; [simpl; intuition discriminate | exact L].
  - apply K; [simpl; intuition discriminate|].
    apply K; [simpl; intuition discriminate | exact G].
  - apply K; [simpl; intuition discriminate | exact Q].
  - apply (replace_char_gone 39%N). simpl. intuition discriminate.
Qed.

Lemma escape_occurrences s c :
  In c [60; 62; 34; 39]%N -> occurrences c (escape s) = 0.
Proof. intros I. apply occurrences_absent. now apply escape_clean. Qed.

Lemma deal_labels_length a : length (deal_labels a) <= 3.
Proof.
  unfold deal_labels.
  repeat match goal with
  | |- context [if ?b then _ else _] => destruct b
  end; cbn [length app]; lia.
Qed.

Lemma join_nil_cons x (L : list pystr) : join [] (x :: L) = x ++ join [] L.
Proof. destruct L; [now rewrite app_nil_r | reflexivity]. Qed.

(** The items of the footer row: for each label the characters of the
    two tags around it. *)
Lemma items_html_occurrences c labels :
  In c [60; 62; 34; 39]%N ->
  occurrences c
    (join []
       (map (fun lbl =>
               str "<div class=" ++ quoted "deal-footer-item" ++ str ">"
               ++ escape lbl ++ str "</div>") labels))
  = length labels *
    (occurrences c
       (str "<div class=" ++ quoted "deal-footer-item" ++ str ">") +
     occurrences c (str "</div>")).
Proof.
  intros I. induction labels as [|lbl rest IH]; [reflexivity|].
  cbn [map length]. rewrite join_nil_cons, occurrences_app, IH.
  rewrite !app_assoc, occurrences_app, occurrences_app.
  rewrite escape_occurrences by exact I.
  rewrite <- !app_assoc. cbn [Nat.mul]. lia.
Qed.

(** Counting a character in the fixed texts of the templates. *)
Ltac count_literals :=
  repeat match goal with
  | |- context [occurrences ?c (str ?x)] =>
      let v := eval vm_compute in (occurrences c (str x)) in
      change (occurrences c (str x)) with v
  | |- context [occurrences ?c (quoted ?x)] =>
      let v := eval vm_compute in (occurrences c (quoted x)) in
      change (occurrences c (quoted x)) with v
  | |- context [occurrences ?c nl] =>
      let v := eval vm_compute in (occurrences c nl) in
      change (occurrences c nl) with v
  | |- context [occurrences ?c dq] =>
      let v := eval vm_compute in (occurrences c dq) in
      change (occurrences c dq) with v
  end.

Lemma footer_row_occurrences (labels : list pystr) :
  let row := match labels with [] => 0 | _ :: _ => 2 + 2 * length labels end in
  occurrences 60%N (footer_row_html labels) = row /\
  occurrences 62%N (footer_row_html labels) = row /\
  occurrences 34%N (footer_row_html labels) = row /\
  occurrences 39%N (footer_row_html labels) = 0.
Proof.
  destruct labels as [|l L]; [repeat split|].
  unfold footer_row_html.
  set (items := join [] _).
  assert (I : forall c, In c [60; 62; 34; 39]%N ->
                occurrences c items =
                length (l :: L) *
                (occurrences c
                   (str "<div class=" ++ quoted "deal-footer-item"
                    ++ str ">") +
                 occurrences c (str "</div>"))).
  { intros c. apply items_html_occurrences. }
  clearbody items. set (n := length (l :: L)) in *. clearbody n.
  repeat split; rewrite !occurrences_app, I by (simpl; tauto);
    rewrite !occurrences_app; count_literals; lia.
Qed.

(** X18. Whatever the article holds, [build_deal_block] returns a block
    whose markup is that of the template: 20 tags, and with labels the
    2 tags of the footer row and 2 for each of the labels, at most
    three; 24 double quotes around attribute values and 2 more for the
    row and for each label; no apostrophe.  Every text of the article
    goes through [escape], so none opens or closes a tag or ends an
    attribute value. *)
Theorem block_markup_is_fixed (R : runtime) (a : enriched) :
  exists block,
    build_deal_block R a = Returns block /\
    let n := length (deal_labels a) in
    let row := match n with 0 => 0 | S _ => 2 + 2 * n end in
    n <= 3 /\
    occurrences 60%N block = 20 + row /\
    occurrences 62%N block = 20 + row /\
    occurrences 34%N block = 24 + row /\
    occurrences 39%N block = 0.
Proof.
  unfold build_deal_block.
  destruct (get_pretty_date_returns R (as_article a)) as [date ->].
  cbn [obind]. eexists. split; [reflexivity|]. cbv zeta.
  split; [apply deal_labels_length|].
  destruct (footer_row_occurrences (deal_labels a)) as (F1 & F2 & F3 & F4).
  cbv zeta in F1, F2, F3.
  assert (Row : match length (deal_labels a) with
                | 0 => 0
                | S _ => 2 + 2 * length (deal_labels a)
                end =
                match deal_labels a with
                | [] => 0
                | _ :: _ => 2 + 2 * length (deal_labels a)
                end) by now destruct (deal_labels a).
  rewrite Row. clear Row.
  set (row := match deal_labels a with [] => 0 | _ :: _ => _ end) in *.
  clearbody row.
  set (footer := footer_row_html (deal_labels a)) in *. clearbody footer.
  repeat split; rewrite !occurrences_app;
    rewrite ?escape_occurrences by (simpl; tauto);
    rewrite ?F1, ?F2, ?F3, ?F4; count_literals; lia.
Qed.

Lemma footer_row_empty (labels : list pystr) :
  footer_row_html labels = [] <-> labels = [].
Proof.
  destruct labels as [|l L]; [tauto|].
  split; [|discriminate]. unfold footer_row_html, nl. cbn [app]. discriminate.
Qed.

(** X19. The footer of a block never shows the sentinel.  Each label
    is made from one party (buyer, investor, seller, or the word
    [Investor] with the investor when no lead is named) whose firm and
    lead name are both different from ["NA"]; the role follows in
    brackets when it is different from ["NA"] and is left out
    otherwise.  A buyer or seller without a named lead gets no label,
    an investor always does, and the footer row is there exactly when
    there is a label. *)
Theorem labels_never_show_NA (a : enriched) :
  let parties :=
    [ (get a "buyer" "NA", get a "buyer_lead_name" "NA",
       get a "buyer_lead_role" "NA");
      (get a "investor_or_pe" "NA", get a "investor_lead_name" "NA",
       get a "investor_lead_role" "NA");
      (str "Investor", get a "investor_or_pe" "NA", NA);
      (get a "seller" "NA", get a "seller_lead_name" "NA",
       get a "seller_lead_role" "NA") ] in
  (forall lbl, In lbl (deal_labels a) ->
     exists firm name role,
       In (firm, name, role) parties /\ firm <> NA /\ name <> NA /\
       lbl = firm ++ label_dash ++ name ++
             (if Str.eqb role NA then [] else str " (" ++ role ++ str ")")) /\
  (deal_labels a = [] <->
   (get a "buyer" "NA" = NA \/ get a "buyer_lead_name" "NA" = NA) /\
   get a "investor_or_pe" "NA" = NA /\
   (get a "seller" "NA" = NA \/ get a "seller_lead_name" "NA" = NA)) /\
  (footer_row_html (deal_labels a) = [] <-> deal_labels a = []).
Proof.
  intros parties. split; [|split; [|apply footer_row_empty]].
  - unfold deal_labels. cbv zeta. subst parties.
    set (b := get a "buyer" "NA"). set (bn := get a "buyer_lead_name" "NA").
    set (br := get a "buyer_lead_role" "NA").
    set (i := get a "investor_or_pe" "NA").
    set (inn := get a "investor_lead_name" "NA").
    set (ir := get a "investor_lead_role" "NA").
    set (s := get a "seller" "NA"). set (sn := get a "seller_lead_name" "NA").
    set (sr := get a "seller_lead_role" "NA").
    clearbody b bn br i inn ir s sn sr.
    assert (Lead : forall firm name role, firm <> NA -> name <> NA ->
              firm ++ label_dash ++ name ++
                (if Str.eqb role NA then [] else str " (" ++ role ++ str ")")
              = (if negb (Str.eqb role NA)
                 then (firm ++ label_dash ++ name) ++
                      str " (" ++ role ++ str ")"
                 else firm ++ label_dash ++ name)).
    { intros firm name role _ _. destruct (Str.eqb role NA); cbn [negb].
      - now rewrite app_nil_r.
      - now rewrite <- !app_assoc. }
    intros lbl I.
    assert (B : negb (Str.eqb b NA) && negb (Str.eqb bn NA) = true ->
                b <> NA /\ bn <> NA).
    { intros H. apply andb_prop in H. destruct H as [H1 H2].
      apply negb_true_iff in H1, H2. now rewrite !eqb_neq in *. }
    assert (S : negb (Str.eqb s NA) && negb (Str.eqb sn NA) = true ->
                s <> NA /\ sn <> NA).
    { intros H. apply andb_prop in H. destruct H as [H1 H2].
      apply negb_true_iff in H1, H2. now rewrite !eqb_neq in *. }
    destruct (negb (Str.eqb b NA) && negb (Str.eqb bn NA)) eqn:Eb;
      destruct (negb (Str.eqb i NA)) eqn:Ei;
      destruct (negb (Str.eqb s NA) && negb (Str.eqb sn NA)) eqn:Es;
      cbn [app] in I;
      repeat match type of I with
      | In _ (_ :: _) => destruct I as [<- | I]
      | In _ [] => destruct I
      end;
      try (exists b, bn, br; destruct (B eq_refl) as [Nb Nn];
           split; [simpl; tauto|]; split; [exact Nb|]; split; [exact Nn|];
           symmetry; now apply Lead);
      try (exists s, sn, sr; destruct (S eq_refl) as [Nb Nn];
           split; [simpl; tauto|]; split; [exact Nb|]; split; [exact Nn|];
           symmetry; now apply Lead);
      apply negb_true_iff, eqb_neq in Ei;
      (destruct (negb (Str.eqb inn NA)) eqn:En;
       [ apply negb_true_iff, eqb_neq in En;
         exists i, inn, ir;
         split; [simpl; tauto|]; split; [exact Ei|]; split; [exact En|];
         symmetry; now apply Lead
       | exists (str "Investor"), i, NA;
         split; [simpl; tauto|]; split; [discriminate|]; split; [exact Ei|];
         now rewrite app_nil_r ]).
  - unfold deal_labels. cbv zeta.
    set (b := get a "buyer" "NA"). set (bn := get a "buyer_lead_name" "NA").
    set (i := get a "investor_or_pe" "NA").
    set (s := get a "seller" "NA"). set (sn := get a "seller_lead_name" "NA").
    destruct (Str.eqb b NA) eqn:Eb; destruct (Str.eqb bn NA) eqn:Ebn;
      destruct (Str.eqb i NA) eqn:Ei;
      destruct (Str.eqb s NA) eqn:Es; destruct (Str.eqb sn NA) eqn:Esn;
      cbn [negb andb app];
      rewrite ?eqb_eq, ?eqb_neq in *;
      (split; [intros H; try discriminate H; tauto|]);
      intros (H1 & H2 & H3); try reflexivity; exfalso; tauto.
Qed.

(** A run of [labels_never_show_NA]: a buyer with its chief
    executive. *)
Lemma labels_never_show_NA_witness :
  exists firm name role : pystr,
    firm <> NA /\ name <> NA /\
    str "Acme" ++ label_dash ++ str "Jane Doe (CEO)"
    = firm ++ label_dash ++ name ++
      (if Str.eqb role NA then [] else str " (" ++ role ++ str ")").
Proof.
  destruct (proj1 (labels_never_show_NA
                     {| texts := [ (str "buyer", str "Acme");
                                   (str "buyer_lead_name", str "Jane Doe");
                                   (str "buyer_lead_role", str "CEO") ];
                        stamps := [] |})
              (str "Acme" ++ label_dash ++ str "Jane Doe (CEO)"))
    as (firm & name & role & _ & F & N & E).
  - vm_compute. now left.
  - now exists firm, name, role.
Defined.

(* ================================================================= *)
(** ** The run *)

Lemma result_bind {A B} service (m : gen (outcome A))
  (f : A -> gen (outcome B)) :
  result service (bind m f) =
  match result service m with
  | Returns a => result service (f a)
  | Raises e => Raises e
  end.
Proof.
  unfold bind. rewrite result_gbind. now destruct (result service m).
Qed.

Lemma calls_bind {A B} service (m : gen (outcome A))
  (f : A -> gen (outcome B)) :
  calls service (bind m f) =
  calls service m ++
  match result service m with
  | Returns a => calls service (f a)
  | Raises e => []
  end.
Proof.
  unfold bind. rewrite calls_gbind. now destruct (result service m).
Qed.

Lemma get_context_text_returns R service a :
  exists c, result service (get_context_text R a) = Returns c.
Proof.
  destruct (get_pretty_date_returns R a) as [date D].
  rewrite (get_context_text_result R service a date D). now eexists.
Qed.

Lemma ai_extract_returns_iff R service content :
  (exists m, result service (ai_extract_deal_metadata R content) = Returns m)
  <->
  content = [] \/
  proposal_ok
    (proposal_of R
       (service (MetadataPrompt (firstn MAX_CHARS_FOR_AI content)))).
Proof.
  destruct content as [|c rest].
  - split; [now left|]. intros _. now exists all_NA.
  - rewrite ai_extract_result by discriminate.
    rewrite validate_proposal_returns_iff.
    split; [now right|]. now intros [H|H].
Qed.

Lemma ai_extract_raises R service content e :
  result service (ai_extract_deal_metadata R content) = Raises e ->
  e = AttributeError.
Proof.
  destruct content as [|c rest]; [discriminate|].
  rewrite ai_extract_result by discriminate.
  apply validate_proposal_raises.
Qed.

Lemma enrich_result R service a :
  result service (enrich R a) =
  obind (result service (get_context_text R (as_article a))) (fun context =>
  obind (result service
           (ai_extract_deal_metadata R (content (as_article a))))
    (fun meta =>
  Returns {| texts := metadata_items meta ++
                      (str "context", context) :: texts a;
             stamps := stamps a |})).
Proof.
  unfold enrich. rewrite result_bind.
  destruct (result service (get_context_text R (as_article a)));
    [|reflexivity].
  cbn [obind]. rewrite result_bind.
  now destruct (result service (ai_extract_deal_metadata R _)).
Qed.

Lemma enrich_calls R service a :
  calls service (enrich R a) = article_calls R service a.
Proof.
  unfold enrich, article_calls. rewrite calls_bind.
  destruct (get_context_text_returns R service (as_article a)) as [c ->].
  rewrite calls_bind.
  destruct (result service (ai_extract_deal_metadata R _));
    cbn [calls ret]; now rewrite app_nil_r.
Qed.

Lemma enrich_returns_iff R service a :
  (exists e, result service (enrich R a) = Returns e) <->
  metadata_ok R service a.
Proof.
  rewrite enrich_result. unfold metadata_ok.
  rewrite <- ai_extract_returns_iff.
  destruct (get_context_text_returns R service (as_article a)) as [c ->].
  cbn [obind].
  destruct (result service (ai_extract_deal_metadata R _)) as [m|e];
    cbn [obind]; split; intros [x H]; try discriminate H; now eexists.
Qed.

Lemma enrich_raises R service a e :
  result service (enrich R a) = Raises e -> e = AttributeError.
Proof.
  rewrite enrich_result.
  destruct (get_context_text_returns R service (as_article a)) as [c ->].
  cbn [obind].
  destruct (result service (ai_extract_deal_metadata R _)) as [m|e'] eqn:M;
    cbn [obind]; [discriminate|].
  intros [= <-]. now apply ai_extract_raises in M.
Qed.

Lemma enrich_all_cons R service a rest :
  result service (enrich_all R (a :: rest)) =
  obind (result service (enrich R a)) (fun e =>
  obind (result service (enrich_all R rest)) (fun es =>
  Returns (e :: es))).
Proof.
  cbn [enrich_all]. rewrite result_bind.
  destruct (result service (enrich R a)); [|reflexivity].
  cbn [obind]. rewrite result_bind.
  now destruct (result service (enrich_all R rest)).
Qed.

(** The loop of [main]: it returns one dictionary for each article
    when every proposal can be cleaned, having made the calls of every
    article; otherwise it raises [AttributeError] at the first article
    whose proposal cannot, having made the calls up to that one. *)
Lemma enrich_all_spec R service : forall articles,
  (exists rest,
     flat_map (article_calls R service) articles
     = calls service (enrich_all R articles) ++ rest) /\
  ((Forall (metadata_ok R service) articles /\
    exists es,
      result service (enrich_all R articles) = Returns es /\
      length es = length articles /\
      calls service (enrich_all R articles)
      = flat_map (article_calls R service) articles) \/
   (~ Forall (metadata_ok R service) articles /\
    result service (enrich_all R articles) = Raises AttributeError)).
Proof.
  induction articles as [|a rest [[more P] IH]].
  - split; [now exists []|]. left. split; [constructor|].
    exists []. now repeat split.
  - assert (C : calls service (enrich_all R (a :: rest)) =
                article_calls R service a ++
                match result service (enrich R a) with
                | Returns _ => calls service (enrich_all R rest)
                | Raises _ => []
                end).
    { cbn [enrich_all]. rewrite calls_bind, enrich_calls. f_equal.
      destruct (result service (enrich R a)); [|reflexivity].
      rewrite calls_bind.
      destruct (result service (enrich_all R rest));
        cbn [calls ret]; now rewrite app_nil_r. }
    rewrite C, enrich_all_cons. cbn [flat_map].
    destruct (result service (enrich R a)) as [e|x] eqn:E.
    + assert (Oa : metadata_ok R service a)
        by (apply enrich_returns_iff; now exists e).
      split.
      { exists more. now rewrite <- app_assoc, <- P. }
      cbn [obind]. destruct IH as [[F (es & -> & L & Cs)] | [F ->]].
      * left. split; [now constructor|]. exists (e :: es). cbn [obind length].
        now rewrite L, Cs.
      * right. split; [|reflexivity].
        intros G. apply F. now inversion G.
    + split.
      { exists (flat_map (article_calls R service) rest).
        now rewrite app_nil_r. }
      right. pose proof (enrich_raises R service a x E) as ->.
      split; [|reflexivity].
      intros G. inversion G as [|? ? Oa _]; subst.
      apply enrich_returns_iff in Oa. destruct Oa as [e' E'].
      congruence.
Qed.

Lemma build_deal_block_returns R a :
  exists block, build_deal_block R a = Returns block.
Proof.
  unfold build_deal_block.
  destruct (get_pretty_date_returns R (as_article a)) as [date ->].
  now eexists.
Qed.

Lemma deal_blocks_returns R : forall articles,
  exists blocks,
    deal_blocks R articles = Returns blocks /\
    length blocks = length articles.
Proof.
  induction articles as [|a rest [blocks [IH L]]]; [now exists []|].
  destruct (build_deal_block_returns R a) as [block B].
  exists (block :: blocks). cbn [deal_blocks length].
  now rewrite B, IH, L.
Qed.

Lemma build_newsletter_html_returns R template articles :
  exists html, build_newsletter_html R template articles = Returns html.
Proof.
  unfold build_newsletter_html.
  destruct (deal_blocks_returns R articles) as [blocks [-> _]].
  now eexists.
Qed.

Lemma main_result R service template articles :
  result service (main R template articles) =
  obind (result service (enrich_all R (firstn TEST_COUNT articles)))
    (fun enriched =>
  obind (build_newsletter_html R template enriched) (fun html =>
  Returns (html, build_contexts_text enriched))).
Proof.
  unfold main. cbv zeta. rewrite result_bind.
  destruct (result service (enrich_all R _)) as [es|e]; [|reflexivity].
  cbn [obind]. rewrite result_bind. unfold pure_call. cbn [result].
  now destruct (build_newsletter_html R template es).
Qed.

Lemma main_calls R service template articles :
  calls service (main R template articles)
  = calls service (enrich_all R (firstn TEST_COUNT articles)).
Proof.
  unfold main. cbv zeta. rewrite calls_bind.
  destruct (result service (enrich_all R _)) as [es|e];
    [|now rewrite app_nil_r].
  rewrite calls_bind. unfold pure_call. cbn [calls result app].
  destruct (build_newsletter_html R template es);
    cbn [calls ret]; now rewrite app_nil_r.
Qed.

(** X20. The run fails on one thing only.  [main] looks at the first
    [TEST_COUNT] = 20 articles and at no other; it returns the two
    texts it writes exactly when, for each of these articles, the
    proposal read from the answer of the service can be cleaned (or the
    article has no content), and otherwise [AttributeError] escapes it:
    then nothing is written, whatever the other articles gave. *)
Theorem run_fails_only_on_non_strings (R : runtime)
  (service : request -> option pystr) (template : pystr)
  (articles : list enriched) :
  let looked_at := firstn TEST_COUNT articles in
  ((exists out, result service (main R template articles) = Returns out)
   <-> Forall (metadata_ok R service) looked_at) /\
  (~ Forall (metadata_ok R service) looked_at ->
   result service (main R template articles) = Raises AttributeError) /\
  main R template articles = main R template looked_at.
Proof.
  intros looked_at. rewrite main_result. fold looked_at.
  destruct (enrich_all_spec R service looked_at)
    as [_ [[F (es & E & _)] | [F E]]]; rewrite E; cbn [obind].
  - destruct (build_newsletter_html_returns R template es) as [html ->].
    cbn [obind]. split; [|split].
    + split; [now intros _ | intros _; now eexists].
    + intros N. now elim N.
    + unfold main. cbv zeta. subst looked_at.
      now rewrite firstn_firstn, Nat.min_id.
  - split; [|split].
    + split; [intros [out H]; discriminate H | intros G; now elim F].
    + reflexivity.
    + unfold main. cbv zeta. subst looked_at.
      now rewrite firstn_firstn, Nat.min_id.
Qed.

(** A run of [run_fails_only_on_non_strings]: the parser answers a
    dictionary with a number under ["buyer"] for the one article. *)
Lemma run_fails_only_on_non_strings_witness :
  result (fun _ => Some (str "{}"))
    (main
       {| uni_decimal := uni_decimal caseless;
          uni_lower := uni_lower caseless;
          uni_fold := uni_fold caseless;
          json_loads := fun _ =>
            Some (JObj [(str "buyer", JInt 7 false)]) |}
       (str "<html>{{DEAL_BLOCKS}}</html>")
       [ {| texts := [(str "content", str "Acme bought Foo.")];
            stamps := [] |} ])
  = Raises AttributeError.
Proof.
  apply run_fails_only_on_non_strings.
  intros F. inversion F as [|? ? [E | [items [E G]]] _]; subst.
  - vm_compute in E. discriminate E.
  - vm_compute in E. injection E as <-.
    inversion G as [|? ? _ G1]; subst. inversion G1 as [|? ? C _]; subst.
    vm_compute in C. destruct C as [C|[s C]]; discriminate C.
Defined.

Lemma get_context_text_calls R service a date :
  get_pretty_date R a = Returns date ->
  calls service (get_context_text R a) =
  if truthy (content a)
  then [SummaryPrompt (firstn MAX_CHARS_FOR_AI (content a)) date]
  else [].
Proof.
  intros D. unfold get_context_text, bind, pure_call, ret, service_call.
  rewrite D. cbn [gbind]. cbv zeta.
  destruct (truthy (content a)) eqn:T; [|reflexivity].
  rewrite !calls_gbind, !result_gbind. cbn [result calls app].
  unfold ai_summarise_with_ollama. rewrite T. cbn [negb calls result].
  set (q := SummaryPrompt (firstn MAX_CHARS_FOR_AI (content a)) date).
  assert (C : calls service
                match service q with
                | Some response => Ret (strip response)
                | None => Ret []
                end = []) by (destruct (service q); reflexivity).
  rewrite C. cbn [app]. f_equal.
  match goal with
  | |- calls _ (if ?b then _ else _) = _ => destruct b; reflexivity
  end.
Qed.

Lemma article_calls_length R service a :
  length (article_calls R service a)
  = if truthy (content (as_article a)) then 2 else 0.
Proof.
  unfold article_calls.
  destruct (get_pretty_date_returns R (as_article a)) as [date D].
  rewrite (get_context_text_calls R service _ date D).
  unfold ai_extract_deal_metadata.
  now destruct (truthy (content (as_article a))).
Qed.

Lemma flat_map_article_calls_length R service articles :
  length (flat_map (article_calls R service) articles)
  = 2 * length
          (filter (fun a => truthy (content (as_article a))) articles).
Proof.
  induction articles as [|a rest IH]; [reflexivity|].
  cbn [flat_map filter]. rewrite length_app, IH, article_calls_length.
  destruct (truthy (content (as_article a))); cbn [length]; lia.
Qed.

(** X21. The calls of a run.  [main] asks the service for the first
    [TEST_COUNT] articles only, in their order: for each one with
    content the summary and then the metadata, for one without nothing.
    A run that returns has made exactly these calls, two for each
    article with content; a run that raises has made the first of
    them.  So no run makes more than 40 calls. *)
Theorem run_call_budget (R : runtime) (service : request -> option pystr)
  (template : pystr) (articles : list enriched) :
  let looked_at := firstn TEST_COUNT articles in
  let planned := flat_map (article_calls R service) looked_at in
  (exists rest,
     planned = calls service (main R template articles) ++ rest) /\
  ((exists out, result service (main R template articles) = Returns out) ->
   calls service (main R template articles) = planned) /\
  length planned =
    2 * length (filter (fun a => truthy (content (as_article a)))
                  looked_at) /\
  length (calls service (main R template articles)) <= 2 * TEST_COUNT.
Proof.
  intros looked_at planned. rewrite main_calls, main_result.
  fold looked_at.
  destruct (enrich_all_spec R service looked_at) as [[rest P] Q].
  fold planned in P.
  assert (L : length planned =
              2 * length (filter (fun a => truthy (content (as_article a)))
                            looked_at))
    by apply flat_map_article_calls_length.
  assert (B : length looked_at <= TEST_COUNT) by apply firstn_le_length.
  assert (Fl : length (filter (fun a => truthy (content (as_article a)))
                         looked_at) <= length looked_at)
    by apply filter_length_le.
  split; [now exists rest|]. split; [|split; [exact L|]].
  - destruct Q as [[_ (es & _ & _ & C)] | [_ ->]]; [intros _; exact C|].
    cbn [obind]. intros [out H]. discriminate H.
  - apply (f_equal (@length _)) in P. rewrite length_app in P. lia.
Qed.

(** A run of [run_call_budget] with one article that has content and
    one that has none, the service being down: two calls. *)
Lemma run_call_budget_witness :
  calls (fun _ => None)
    (main example_runtime (str "{{DEAL_BLOCKS}}")
       [ {| texts := [(str "content", str "Acme bought Foo.")];
            stamps := [] |};
         {| texts := [(str "title", str "Untitled")]; stamps := [] |} ])
  = [ SummaryPrompt (str "Acme bought Foo.") [];
      MetadataPrompt (str "Acme bought Foo.") ].
Proof.
  rewrite (proj1 (proj2 (run_call_budget example_runtime (fun _ => None)
                           (str "{{DEAL_BLOCKS}}") _))).
  - reflexivity.
  - eexists. vm_compute. reflexivity.
Defined.

Lemma dict_get_skip {V} (k key : pystr) (v : V) d default :
  k <> key -> dict_get ((k, v) :: d) key default = dict_get d key default.
Proof. intros N. cbn [dict_get]. apply eqb_neq in N. now rewrite N. Qed.

Lemma dict_get_here {V} (key : pystr) (v : V) d default :
  dict_get ((key, v) :: d) key default = v.
Proof.
  cbn [dict_get].
  assert (E : Str.eqb key key = true) by now apply eqb_eq.
  now rewrite E.
Qed.

(** Looking up one of the keys that the loop of [main] sets, or
    another one. *)
Ltac lookup :=
  unfold get, metadata_items; cbn [texts app];
  repeat first
    [ rewrite dict_get_here
    | rewrite dict_get_skip by (vm_compute; discriminate) ].

(** X22. What the loop of [main] makes of an article.  The dictionary
    it hands to the rendering holds, under ["context"], the text that
    [get_context_text] chose and, under the eleven keys of the
    metadata, the record that [ai_extract_deal_metadata] returned, even
    where the article had a value of its own under such a key; every
    other key reads as in the article, so that title, url, content and
    timestamps, and with them the date, are those of the article. *)
Theorem enrich_keeps_the_article (R : runtime)
  (service : request -> option pystr) (a e : enriched) :
  result service (enrich R a) = Returns e ->
  as_article e = as_article a /\
  get_pretty_date R (as_article e) = get_pretty_date R (as_article a) /\
  result service (get_context_text R (as_article a))
    = Returns (get e "context" "") /\
  result service (ai_extract_deal_metadata R (content (as_article a)))
    = Returns {| deal_value := get e "deal_value" "NA";
                 deal_advisor := get e "deal_advisor" "NA";
                 investor_or_pe := get e "investor_or_pe" "NA";
                 buyer := get e "buyer" "NA";
                 seller := get e "seller" "NA";
                 buyer_lead_name := get e "buyer_lead_name" "NA";
                 buyer_lead_role := get e "buyer_lead_role" "NA";
                 investor_lead_name := get e "investor_lead_name" "NA";
                 investor_lead_role := get e "investor_lead_role" "NA";
                 seller_lead_name := get e "seller_lead_name" "NA";
                 seller_lead_role := get e "seller_lead_role" "NA" |} /\
  (forall key default,
     ~ In (str key) (str "context" :: map fst (metadata_items all_NA)) ->
     get e key default = get a key default).
Proof.
  rewrite enrich_result.
  destruct (result service (get_context_text R (as_article a)))
    as [context|x]; [|discriminate].
  cbn [obind].
  destruct (result service (ai_extract_deal_metadata R _))
    as [meta|x]; [|discriminate].
  cbn [obind]. intros [= <-].
  assert (A : as_article
                {| texts := metadata_items meta ++
                            (str "context", context) :: texts a;
                   stamps := stamps a |} = as_article a).
  { unfold as_article. cbn [stamps]. lookup. reflexivity. }
  split; [exact A|].
  split; [exact (f_equal (get_pretty_date R) A)|].
  split; [now lookup|]. split.
  - lookup. now destruct meta.
  - intros key default N. unfold get, metadata_items. cbn [texts app].
    cbn [metadata_items map fst] in N.
    repeat (rewrite dict_get_skip;
            [|intros E; apply N; rewrite <- E; simpl; tauto]).
    reflexivity.
Qed.

(** A run of [enrich_keeps_the_article]: an article without content
    gets an empty context and the sentinels, and reads as before. *)
Lemma enrich_keeps_the_article_witness :
  as_article
    {| texts := metadata_items all_NA ++
                [(str "context", []); (str "title", str "Acme")];
       stamps := [] |}
  = as_article {| texts := [(str "title", str "Acme")]; stamps := [] |}.
Proof.
  apply (enrich_keeps_the_article example_runtime (fun _ => None)).
  reflexivity.
Defined.

(* ================================================================= *)
(** ** Filling the template *)

(** A placeholder begins with two braces, so it begins nowhere inside
    a plain text, whatever follows the text. *)
Lemma replace_plain P v t : plain t = true -> forall rest,
  replace (123 :: 123 :: P)%N v (t ++ rest)
  = t ++ replace (123 :: 123 :: P)%N v rest.
Proof.
  unfold replace. induction t as [|c t IH]; intros Pl rest; [reflexivity|].
  cbn [plain] in Pl. apply andb_prop in Pl. destruct Pl as [Pc Pt].
  cbn [app replace_aux].
  assert (S : starts_with (123 :: 123 :: P)%N (c :: t ++ rest) = false).
  { cbn [starts_with]. destruct (N.eqb_spec 123 c) as [<-|_]; [|reflexivity].
    change ((123 =? 123)%N) with true in Pc. cbn [andb].
    destruct t as [|d t]; [discriminate Pc|].
    cbn [app starts_with]. apply negb_true_iff in Pc.
    rewrite N.eqb_sym in Pc. now rewrite Pc. }
  rewrite S. f_equal. now apply IH.
Qed.

(** One replacement over the pieces of a template. *)
Lemma replace_pieces P v (before after : piece -> pystr) pieces :
  Forall (fun p => forall rest,
            replace P v (before p ++ rest) = after p ++ replace P v rest)
    pieces ->
  replace P v (concat (map before pieces)) = concat (map after pieces).
Proof.
  induction 1 as [|p rest H _ IH]; [reflexivity|].
  cbn [map concat]. now rewrite H, IH.
Qed.

(** One of the three replacements of [build_newsletter_html] over the
    pieces: the texts are plain, and what stands for the other
    placeholders holds no beginning of this one. *)
Ltac replace_step Pl :=
  unfold template_text, filled, render; apply replace_pieces;
  eapply Forall_impl; [|exact Pl];
  intros [t| | |] Pt rest; try reflexivity;
  cbn [plain_piece] in Pt;
  match goal with
  | |- replace (str ?P) ?v _ = _ =>
      let P' := eval vm_compute in (skipn 2 (str P)) in
      exact (replace_plain P' v t Pt rest)
  end.

Lemma replace_issue_date pieces :
  Forall (fun p => plain_piece p = true) pieces ->
  replace (str "{{ISSUE_DATE}}") ISSUE_DATE (template_text pieces)
  = render ISSUE_DATE (str "{{ISSUE_NUMBER}}") (str "{{DEAL_BLOCKS}}") pieces.
Proof. intros Pl. replace_step Pl. Qed.

Lemma replace_issue_number pieces :
  Forall (fun p => plain_piece p = true) pieces ->
  replace (str "{{ISSUE_NUMBER}}") ISSUE_NUMBER
    (render ISSUE_DATE (str "{{ISSUE_NUMBER}}") (str "{{DEAL_BLOCKS}}")
       pieces)
  = render ISSUE_DATE ISSUE_NUMBER (str "{{DEAL_BLOCKS}}") pieces.
Proof. intros Pl. replace_step Pl. Qed.

Lemma replace_deal_blocks blocks_html pieces :
  Forall (fun p => plain_piece p = true) pieces ->
  replace (str "{{DEAL_BLOCKS}}") blocks_html
    (render ISSUE_DATE ISSUE_NUMBER (str "{{DEAL_BLOCKS}}") pieces)
  = filled blocks_html pieces.
Proof. intros Pl. replace_step Pl. Qed.

(** X23. Filling the template.  For a template made of plain texts
    and of the three placeholders, in any number and order,
    [build_newsletter_html] returns the template with every
    [{{ISSUE_DATE}}] and [{{ISSUE_NUMBER}}] replaced by the issue date
    and number and every [{{DEAL_BLOCKS}}] by the blocks of the
    articles, one for each article, in their order and joined by line
    feeds; the texts between stay as they are.  The blocks go in last
    and as they are: what an article holds is not read as a
    placeholder. *)
Theorem template_is_filled (R : runtime) (pieces : list piece)
  (articles : list enriched) :
  Forall (fun p => plain_piece p = true) pieces ->
  exists blocks,
    deal_blocks R articles = Returns blocks /\
    length blocks = length articles /\
    (forall i a, nth_error articles i = Some a ->
       exists block, nth_error blocks i = Some block /\
                     build_deal_block R a = Returns block) /\
    build_newsletter_html R (template_text pieces) articles
    = Returns (filled (join nl blocks) pieces).
Proof.
  intros Pl. unfold build_newsletter_html.
  assert (B : exists blocks,
            deal_blocks R articles = Returns blocks /\
            length blocks = length articles /\
            forall i a, nth_error articles i = Some a ->
              exists block, nth_error blocks i = Some block /\
                            build_deal_block R a = Returns block).
  { clear Pl. induction articles as [|a rest (blocks & D & L & N)].
    - exists []. repeat split. intros [|i] a H; discriminate H.
    - destruct (build_deal_block_returns R a) as [block B].
      exists (block :: blocks). cbn [deal_blocks length].
      rewrite B, D, L. repeat split.
      intros [|i] a' H; cbn [nth_error] in *.
      + injection H as <-. now exists block.
      + now apply N. }
  destruct B as (blocks & D & L & N). exists blocks.
  rewrite D. cbn [obind]. cbv zeta.
  repeat (split; [assumption|]).
  now rewrite replace_issue_date, replace_issue_number,
    replace_deal_blocks by exact Pl.
Qed.

(** A run of [template_is_filled]: a page with the date in its heading
    and no article. *)
Lemma template_is_filled_witness :
  build_newsletter_html example_runtime
    (str "<h1>{{ISSUE_DATE}}</h1>{{DEAL_BLOCKS}}") []
  = Returns (str "<h1>November 26, 2025</h1>").
Proof.
  destruct (template_is_filled example_runtime
              [Text (str "<h1>"); IssueDate; Text (str "</h1>"); DealBlocks]
              [])
    as (blocks & D & _ & _ & H).
  - repeat constructor.
  - injection D as <-. exact H.
Defined.

(* ================================================================= *)
(** ** The context of an article *)

Lemma strip_starts_clean s : starts_clean (strip s).
Proof.
  unfold strip, strip_by.
  apply (prefix_starts_clean _ (lstrip_by is_space s)).
  - apply rstrip_by_prefix.
  - apply lstrip_starts_clean.
Qed.

(** A text that begins and ends with a character that is not white
    space is left as it is by [strip]. *)
Lemma strip_tidy a c :
  starts_clean (a ++ [c]) -> is_space c = false ->
  strip (a ++ [c]) = a ++ [c].
Proof.
  intros S C. unfold strip, strip_by.
  rewrite (lstrip_by_clean _ S). now apply rstrip_by_snoc.
Qed.

Lemma strip_first_two_sentences content :
  strip (first_two_sentences content) = first_two_sentences content.
Proof.
  unfold first_two_sentences. apply strip_by_idem.
Qed.

Lemma strip_simple_summary content max_chars :
  strip (simple_summary content max_chars) = simple_summary content max_chars.
Proof.
  rewrite simple_summary_unfold. cbv zeta.
  destruct (negb (truthy (strip_prnewswire_boilerplate content)));
    [reflexivity|].
  destruct (max_chars <? length (first_two_sentences content));
    [|apply strip_first_two_sentences].
  set (summary := first_two_sentences content).
  set (short := match rfind_char 32%N (firstn max_chars summary) with
                | Some last =>
                    if 0 <? last then firstn last (firstn max_chars summary)
                    else firstn max_chars summary
                | None => firstn max_chars summary
                end).
  assert (P : prefix_of short summary).
  { subst short. destruct (rfind_char 32%N (firstn max_chars summary));
      [destruct (0 <? n)|]; try apply prefix_of_firstn.
    eapply prefix_of_trans; apply prefix_of_firstn. }
  assert (S : starts_clean short).
  { apply (prefix_starts_clean _ summary P). subst summary.
    rewrite <- strip_first_two_sentences. apply strip_starts_clean. }
  clearbody short.
  change (str "...") with ([46; 46] ++ [46])%N. rewrite app_assoc.
  apply strip_tidy; [|reflexivity].
  destruct short; [reflexivity | exact S].
Qed.

(** X24. The context of an article has no white space around it:
    what [get_context_text] returns, the generated summary or the
    deterministic one, is left as it is by [strip]; so is what
    [simple_summary] returns for any limit, cut or not. *)
Theorem context_is_trimmed (R : runtime) :
  (forall content max_chars,
     strip (simple_summary content max_chars)
     = simple_summary content max_chars) /\
  (forall service a c,
     result service (get_context_text R a) = Returns c -> strip c = c).
Proof.
  split; [apply strip_simple_summary|].
  intros service a c.
  destruct (get_pretty_date_returns R a) as [date D].
  rewrite (get_context_text_result R service a date D). cbv zeta.
  intros [= <-].
  destruct (truthy _ && _); [|apply strip_simple_summary].
  unfold ai_summarise_with_ollama.
  destruct (negb (truthy (content a))); [reflexivity|].
  cbv zeta. cbn [result].
  destruct (service _); [apply strip_by_idem | reflexivity].
Qed.

(** A run of [context_is_trimmed]: a generated summary that names the
    title, returned with white space around it. *)
Lemma context_is_trimmed_witness :
  strip (str "Acme buys Foo.") = str "Acme buys Foo.".
Proof.
  apply (proj2 (context_is_trimmed example_runtime)
           (fun _ => Some (str "  Acme buys Foo. "))
           {| title := str "Acme"; content := str "Acme Corp bought Foo.";
              url := []; timestamp := [] |}).
  reflexivity.
Defined.

(* ================================================================= *)
(** ** The contexts file *)

Lemma join_nil_app (xs ys : list pystr) :
  join [] (xs ++ ys) = join [] xs ++ join [] ys.
Proof.
  induction xs as [|x xs IH]; [reflexivity|].
  cbn [app]. now rewrite !join_nil_cons, IH, app_assoc.
Qed.

Lemma build_contexts_text_app xs ys :
  build_contexts_text (xs ++ ys)
  = build_contexts_text xs ++ build_contexts_text ys.
Proof.
  unfold build_contexts_text. now rewrite filter_app, map_app, join_nil_app.
Qed.

Lemma build_contexts_text_cons a xs :
  build_contexts_text (a :: xs)
  = (if truthy (get a "url" "") then build_context_entry a else [])
    ++ build_contexts_text xs.
Proof.
  unfold build_contexts_text. cbn [filter].
  destruct (truthy (get a "url" "")); [|reflexivity].
  cbn [map]. apply join_nil_cons.
Qed.

(** X25. The contexts file has one entry for each article with a url
    that is not empty, in the order of the articles: an article
    without one, or with an empty one, is left out wherever it stands,
    though it has its block in the page.  The text of several lists of
    articles is the texts of the lists one after the other, and it is
    empty only when no article has a url. *)
Theorem contexts_text_entries (xs ys : list enriched) :
  build_contexts_text (xs ++ ys)
    = build_contexts_text xs ++ build_contexts_text ys /\
  (forall a, get a "url" "" = [] ->
     build_contexts_text (xs ++ a :: ys) = build_contexts_text (xs ++ ys)) /\
  (forall a, get a "url" "" <> [] ->
     build_contexts_text (xs ++ a :: ys)
     = build_contexts_text xs ++
       (get a "url" "" ++ nl ++ nl ++ get a "context" "" ++ nl ++ nl) ++
       build_contexts_text ys) /\
  (build_contexts_text xs = [] <->
   Forall (fun a => get a "url" "" = []) xs).
Proof.
  split; [apply build_contexts_text_app|]. split; [|split].
  - intros a E.
    rewrite !build_contexts_text_app, build_contexts_text_cons, E.
    reflexivity.
  - intros a N. apply truthy_true in N.
    rewrite build_contexts_text_app, build_contexts_text_cons, N.
    reflexivity.
  - induction xs as [|a rest IH]; [split; [constructor | reflexivity]|].
    rewrite build_contexts_text_cons.
    destruct (truthy (get a "url" "")) eqn:T.
    + split.
      * intros H. apply app_eq_nil in H. destruct H as [H _].
        unfold build_context_entry, nl in H.
        destruct (get a "url" ""); discriminate.
      * intros F. inversion F as [|? ? E _]; subst.
        rewrite E in T. discriminate T.
    + apply truthy_false in T. cbn [app]. rewrite IH.
      split; [now constructor | intros F; now inversion F].
Qed.

(** A run of [contexts_text_entries]: one article with a url. *)
Lemma contexts_text_entries_witness :
  build_contexts_text
    ([] ++
     [ {| texts := [(str "url", str "http://a");
                    (str "context", str "Acme.")];
          stamps := [] |} ])
  = build_contexts_text [] ++
    (str "http://a" ++ nl ++ nl ++ str "Acme." ++ nl ++ nl) ++
    build_contexts_text [].
Proof.
  apply (proj1 (proj2 (proj2 (contexts_text_entries [] [])))
           {| texts := [(str "url", str "http://a");
                        (str "context", str "Acme.")];
              stamps := [] |}).
  discriminate.
Defined.
